(** * AI-Counsellor backend: enrichment cache, confidence scoring, LLM routing
      and response reconciliation

    A shallow embedding of the service modules of the backend
    (cacheService, aiService, discoveryAnalysisService, universityEnrichment,
    the country names, the classification loop, the batch step and the
    batch upsert of universityService.searchUniversities, and the profile
    strength and stage of aiContext), followed by the properties established
    about them.

    Conventions of the embedding.
    - A JavaScript number is an IEEE-754 binary64 value: Rocq's primitive
      [float], whose operations round exactly as the JavaScript ones do.
    - A JavaScript string is a Rocq [string] holding its UTF-8 encoding; every
      delimiter the code looks for is one ASCII byte.
    - A JavaScript value that the code inspects dynamically is a [value];
      a plain object is an association list in insertion order.
    - The remote store is a table (a list of rows); the clock, the language
      model endpoints and the random key order are inputs of the model. *)

From Stdlib Require Import ZArith List String Ascii Bool Lia Floats Permutation.
Import ListNotations.

Set Warnings "-inexact-float,-register-all".
Local Open Scope string_scope.

(* ================================================================== *)
(** * JavaScript numbers                                               *)
(* ================================================================== *)

Module JsNum.
Local Open Scope float_scope.

Definition of_Z (n : Z) : float :=
  SF2Prim (binary_normalize prec emax n 0 false).

Definition of_nat (n : nat) : float := of_Z (Z.of_nat n).

(** [Math.round]: the nearest integer, a tie going towards +infinity;
    computed exactly on the mantissa and exponent of the argument. *)
Definition Math_round (x : float) : float :=
  match Prim2SF x with
  | S754_finite s m e =>
      if (0 <=? e)%Z then x
      else
        let den := Z.pow 2 (- e) in
        let num := if s then Z.neg m else Z.pos m in
        let n := Z.div (2 * num + den) (2 * den) in
        if (n =? 0)%Z then (if s then neg_zero else zero) else of_Z n
  | _ => x
  end.

(** [Math.max] and [Math.min] of two arguments: NaN is contagious and
    +0 is larger than -0. *)
Definition Math_max (a b : float) : float :=
  if is_nan a || is_nan b then nan
  else if a <? b then b
  else if b <? a then a
  else if get_sign a then b else a.

Definition Math_min (a b : float) : float :=
  if is_nan a || is_nan b then nan
  else if a <? b then a
  else if b <? a then b
  else if get_sign a then a else b.

(** Truthiness of a number: everything but +0, -0 and NaN. *)
Definition truthy (x : float) : bool := negb (PrimFloat.is_zero x || PrimFloat.is_nan x).
End JsNum.

(* ================================================================== *)
(** * JavaScript strings                                               *)
(* ================================================================== *)

Module JsStr.
Local Open Scope char_scope.

Definition byte (c : ascii) : N := N_of_ascii c.

(** White space and line terminators of ECMAScript ([String.prototype.trim]
    and the class [\s]), by the length of their UTF-8 encoding. *)
Definition ws1 (c : ascii) : bool :=
  let n := byte c in ((9 <=? n) && (n <=? 13) || (n =? 32))%N.

Definition ws2 (c1 c2 : ascii) : bool :=            (* U+00A0 *)
  ((byte c1 =? 194) && (byte c2 =? 160))%N.

Definition ws3 (c1 c2 c3 : ascii) : bool :=
  let a := byte c1 in let b := byte c2 in let c := byte c3 in
  ( (a =? 225) && (b =? 154) && (c =? 128)                      (* U+1680 *)
    || (a =? 226) && (b =? 128)
       && ((128 <=? c) && (c <=? 138)                            (* U+2000-200A *)
           || (c =? 168) || (c =? 169) || (c =? 175))            (* U+2028/9, U+202F *)
    || (a =? 226) && (b =? 129) && (c =? 159)                    (* U+205F *)
    || (a =? 227) && (b =? 128) && (c =? 128)                    (* U+3000 *)
    || (a =? 239) && (b =? 187) && (c =? 191) )%N.               (* U+FEFF *)

Fixpoint trimStart (s : string) : string :=
  match s with
  | String c1 s1 =>
      if ws1 c1 then trimStart s1
      else match s1 with
           | String c2 s2 =>
               if ws2 c1 c2 then trimStart s2
               else match s2 with
                    | String c3 s3 => if ws3 c1 c2 c3 then trimStart s3 else s
                    | EmptyString => s
                    end
           | EmptyString => s
           end
  | EmptyString => s
  end.

Fixpoint rev_append (s acc : string) : string :=
  match s with
  | EmptyString => acc
  | String c s' => rev_append s' (String c acc)
  end.

Definition rev (s : string) : string := rev_append s EmptyString.

(** The same scan from the right end, on the reversed string. *)
Fixpoint trimStart_rev (s : string) : string :=
  match s with
  | String c1 s1 =>
      if ws1 c1 then trimStart_rev s1
      else match s1 with
           | String c2 s2 =>
               if ws2 c2 c1 then trimStart_rev s2
               else match s2 with
                    | String c3 s3 => if ws3 c3 c2 c1 then trimStart_rev s3 else s
                    | EmptyString => s
                    end
           | EmptyString => s
           end
  | EmptyString => s
  end.

Definition trimEnd (s : string) : string := rev (trimStart_rev (rev s)).

(** [s.trim()] *)
Definition trim (s : string) : string := trimEnd (trimStart s).

(** [s] without its prefix [p], when it has it. *)
Fixpoint strip_prefix (p s : string) : option string :=
  match p with
  | EmptyString => Some s
  | String a p' =>
      match s with
      | String b s' => if Ascii.eqb a b then strip_prefix p' s' else None
      | EmptyString => None
      end
  end.

Definition strip_optional (p s : string) : string :=
  match strip_prefix p s with Some r => r | None => s end.

(** [hay.includes(needle)] *)
Fixpoint includes (needle hay : string) : bool :=
  match strip_prefix needle hay with
  | Some _ => true
  | None => match hay with
            | EmptyString => false
            | String _ hay' => includes needle hay'
            end
  end.

Definition newline : string := String (ascii_of_nat 10) EmptyString.

(** [s.replace(/PAT\n?/g, '')] (with [opt_nl]) and [s.replace(/PAT/g, '')]
    for a non-empty literal [pat]: matches are taken left to right and do
    not overlap. *)
Fixpoint remove_all_fuel (fuel : nat) (pat : string) (opt_nl : bool) (s : string) : string :=
  match fuel with
  | O => s
  | S fuel' =>
      match strip_prefix pat s with
      | Some rest =>
          remove_all_fuel fuel' pat opt_nl
            (if opt_nl then strip_optional newline rest else rest)
      | None =>
          match s with
          | EmptyString => EmptyString
          | String c s' => String c (remove_all_fuel fuel' pat opt_nl s')
          end
      end
  end.

Definition remove_all (pat : string) (opt_nl : bool) (s : string) : string :=
  remove_all_fuel (S (String.length s)) pat opt_nl s.

(** [s.replace(/,\s*C/g, 'C')] for a closing bracket [C]: a comma, then
    the longest run of white space, then [C]. *)
Fixpoint drop_comma_before_fuel (fuel : nat) (close : ascii) (s : string) : string :=
  match fuel with
  | O => s
  | S fuel' =>
      match s with
      | EmptyString => EmptyString
      | String c s' =>
          if Ascii.eqb c ","
          then match trimStart s' with
               | String d rest =>
                   if Ascii.eqb d close
                   then String close (drop_comma_before_fuel fuel' close rest)
                   else String c (drop_comma_before_fuel fuel' close s')
               | EmptyString => String c (drop_comma_before_fuel fuel' close s')
               end
          else String c (drop_comma_before_fuel fuel' close s')
      end
  end.

Definition drop_comma_before (close : ascii) (s : string) : string :=
  drop_comma_before_fuel (S (String.length s)) close s.

(** The suffix of [s] that starts at the first [c]. *)
Fixpoint from_first (c : ascii) (s : string) : option string :=
  match s with
  | EmptyString => None
  | String d s' => if Ascii.eqb d c then Some s else from_first c s'
  end.

(** The prefix of [s] that ends at the last [c]. *)
Fixpoint through_last (c : ascii) (s : string) : option string :=
  match s with
  | EmptyString => None
  | String d s' =>
      match through_last c s' with
      | Some r => Some (String d r)
      | None => if Ascii.eqb d c then Some (String d EmptyString) else None
      end
  end.

(** [s.match(/O[\s\S]*C/)] for brackets [O] and [C]: the text from the
    first [O] to the last [C] after it ([[\s\S]*] is greedy and matches
    every character). *)
Definition match_bracketed (open close : ascii) (s : string) : option string :=
  match from_first open s with
  | Some (String o rest) =>
      match through_last close rest with
      | Some r => Some (String o r)
      | None => None
      end
  | _ => None
  end.

Fixpoint mem (c : ascii) (s : string) : bool :=
  match s with
  | EmptyString => false
  | String d s' => Ascii.eqb d c || mem c s'
  end.

End JsStr.

(* ================================================================== *)
(** * JavaScript values                                                *)
(* ================================================================== *)

Inductive value : Type :=
| VUndefined
| VNull
| VBool (b : bool)
| VNum (n : float)
| VStr (s : string)
| VArr (items : list value)
| VObj (props : list (string * value))
| VFun (name : string).   (* a built-in function object, e.g. Object.prototype.toString *)

Module Js.

Definition truthy (v : value) : bool :=
  match v with
  | VUndefined | VNull => false
  | VBool b => b
  | VNum n => JsNum.truthy n
  | VStr s => negb (s =? "")
  | VArr _ | VObj _ | VFun _ => true
  end.

(** [a || b] and [a && b] on values. *)
Definition or (a b : value) : value := if truthy a then a else b.
Definition and (a b : value) : value := if truthy a then b else a.

(** [v === lit] against a primitive literal.  Objects, arrays and
    functions are compared by identity and so never equal a literal. *)
Definition strict_eq (v lit : value) : bool :=
  match v, lit with
  | VUndefined, VUndefined => true
  | VNull, VNull => true
  | VBool a, VBool b => Bool.eqb a b
  | VNum a, VNum b => PrimFloat.eqb a b
  | VStr a, VStr b => String.eqb a b
  | _, _ => false
  end.

Fixpoint assoc {A : Type} (k : string) (l : list (string * A)) : option A :=
  match l with
  | [] => None
  | (k', v) :: l' => if String.eqb k k' then Some v else assoc k l'
  end.

(** What every plain object inherits from [Object.prototype]. *)
Definition Object_prototype_methods : list string :=
  [ "constructor"; "hasOwnProperty"; "isPrototypeOf"; "propertyIsEnumerable";
    "toLocaleString"; "toString"; "valueOf";
    "__defineGetter__"; "__defineSetter__"; "__lookupGetter__"; "__lookupSetter__" ].

Definition inherited (k : string) : value :=
  if String.eqb k "__proto__" then VObj []          (* Object.prototype itself *)
  else if existsb (String.eqb k) Object_prototype_methods then VFun k
  else VUndefined.

(** [o[k]] for a plain object given by its own properties: an own
    property, else an inherited one, else undefined. *)
Definition get_own (props : list (string * value)) (k : string) : value :=
  match assoc k props with
  | Some v => v
  | None => inherited k
  end.

(** [v.k] for a data property [k] (not the name of a method of arrays or
    strings); reading a property of undefined or null throws, which is
    what [None] stands for. *)
Definition get (v : value) (k : string) : option value :=
  match v with
  | VUndefined | VNull => None
  | VObj props => Some (get_own props k)
  | VBool _ | VNum _ | VStr _ | VArr _ | VFun _ => Some VUndefined
  end.

(** [v?.k] *)
Definition get_opt (v : value) (k : string) : value :=
  match get v k with Some r => r | None => VUndefined end.

(** Assignment [o.k = v] on own properties: an existing key keeps its
    place, a new key goes last. *)
Fixpoint set_own (k : string) (v : value) (props : list (string * value))
  : list (string * value) :=
  match props with
  | [] => [(k, v)]
  | (k', v') :: rest =>
      if String.eqb k k' then (k, v) :: rest else (k', v') :: set_own k v rest
  end.

Definition has_own (k : string) (props : list (string * value)) : bool :=
  match assoc k props with Some _ => true | None => false end.

(** The array index a property key denotes, if any: the decimal numeral,
    without leading zeros, of an integer below 2^32 - 1. *)
Definition digit_of (c : ascii) : option N :=
  let n := N_of_ascii c in
  if (48 <=? n)%N && (n <=? 57)%N then Some (n - 48)%N else None.

Fixpoint numeral (s : string) (acc : N) : option N :=
  match s with
  | EmptyString => Some acc
  | String c s' =>
      match digit_of c with
      | Some d => numeral s' (10 * acc + d)%N
      | None => None
      end
  end.

Definition array_index (k : string) : option N :=
  match k with
  | EmptyString => None
  | String c rest =>
      if Ascii.eqb c "0" then match rest with EmptyString => Some 0%N | _ => None end
      else match numeral k 0 with
           | Some n => if (n <? 4294967295)%N then Some n else None
           | None => None
           end
  end.

(** A new own property under the array index [i]: it goes before the
    first key that is a larger array index or no array index. *)
Fixpoint insert_index (i : N) (k : string) (v : value) (props : list (string * value))
  : list (string * value) :=
  match props with
  | [] => [(k, v)]
  | (k', v') :: rest =>
      match array_index k' with
      | Some j =>
          if (j <? i)%N then (k', v') :: insert_index i k v rest
          else (k, v) :: (k', v') :: rest
      | None => (k, v) :: (k', v') :: rest
      end
  end.

(** Assignment [o[k] = v] under a computed key, on an object built by
    such assignments.  The key [__proto__] names the accessor of
    Object.prototype: assigning to it sets the prototype of [o] (or does
    nothing) and adds no own property; an object is given by its own
    properties, so that assignment leaves it as it is.  An existing key
    keeps its place; a new key that is an array index is enumerated with the
    array indices, which come first in ascending order; any other new key
    goes last. *)
Definition assign (k : string) (v : value) (props : list (string * value))
  : list (string * value) :=
  if String.eqb k "__proto__" then props
  else if has_own k props then set_own k v props
  else match array_index k with
       | Some i => insert_index i k v props
       | None => set_own k v props
       end.


(** Object spread [{...a, ...b}] on own properties. *)
Definition spread (a b : list (string * value)) : list (string * value) :=
  fold_left (fun acc kv => set_own (fst kv) (snd kv) acc) b a.

Definition remove (k : string) (props : list (string * value)) : list (string * value) :=
  filter (fun kv => negb (String.eqb k (fst kv))) props.

(** [.single()] of the store client: the one row of a result set; no
    row, or more than one, is reported as an error. *)
Definition single {A : Type} (rows : list A) : option A :=
  match rows with
  | [r] => Some r
  | _ => None
  end.

End Js.

(* ================================================================== *)
(** * JSON.parse                                                       *)
(* ================================================================== *)

Module JSON.
Import JsStr.
Local Open Scope char_scope.

Definition dquote : ascii := "034".
Definition backslash : ascii := "092".

Definition ws (c : ascii) : bool :=
  let n := byte c in ((n =? 32) || (n =? 9) || (n =? 10) || (n =? 13))%N.

Fixpoint skip_ws (s : string) : string :=
  match s with
  | String c s' => if ws c then skip_ws s' else s
  | EmptyString => s
  end.

Definition digit (c : ascii) : option Z :=
  let n := byte c in
  if ((48 <=? n) && (n <=? 57))%N then Some (Z.of_N n - 48)%Z else None.

Definition hex (c : ascii) : option N :=
  let n := byte c in
  if ((48 <=? n) && (n <=? 57))%N then Some (n - 48)%N
  else if ((65 <=? n) && (n <=? 70))%N then Some (n - 55)%N
  else if ((97 <=? n) && (n <=? 102))%N then Some (n - 87)%N
  else None.

(** ** Numbers *)

(** A run of digits appended to the decimal mantissa [m]; [cnt] counts
    them. *)
Fixpoint digits (s : string) (m : Z) (cnt : Z) : Z * Z * string :=
  match s with
  | String c s' =>
      match digit c with
      | Some d => digits s' (10 * m + d)%Z (cnt + 1)%Z
      | None => (m, cnt, s)
      end
  | EmptyString => (m, cnt, s)
  end.

(** The binary64 value nearest to [m * 10^e] (ties to even): exact for
    [e >= 0]; otherwise the quotient is taken with 64 extra bits and a
    sticky bit before the final rounding. *)
Definition decimal_to_float (neg : bool) (m e : Z) : float :=
  let sgn (n : Z) := if neg then Z.opp n else n in
  if (m =? 0)%Z then (if neg then neg_zero else zero)
  else if (0 <=? e)%Z
  then SF2Prim (binary_normalize prec emax (sgn (m * 10 ^ e)%Z) 0 false)
  else
    let den := (10 ^ (- e))%Z in
    let sh := (Z.log2 den + 64)%Z in
    let num := (m * 2 ^ sh)%Z in
    let q := (num / den)%Z in
    let sticky := if (num mod den =? 0)%Z then 0%Z else 1%Z in
    SF2Prim (binary_normalize prec emax (sgn (2 * q + sticky)%Z) (- sh - 1) false).

Definition parse_number (s : string) : option (float * string) :=
  let '(neg, s1) :=
    match s with
    | String c r => if Ascii.eqb c "-" then (true, r) else (false, s)
    | EmptyString => (false, s)
    end in
  match s1 with
  | String c r =>
      match digit c with
      | None => None
      | Some d0 =>
          let '(ip, _, s2) := if (d0 =? 0)%Z then (0%Z, 1%Z, r) else digits s1 0 0 in
          let frac :=
            match s2 with
            | String dot fr =>
                if Ascii.eqb dot "."
                then let '(m, cnt, s3) := digits fr ip 0 in
                     if (cnt =? 0)%Z then None else Some (m, cnt, s3)
                else Some (ip, 0%Z, s2)
            | EmptyString => Some (ip, 0%Z, s2)
            end in
          match frac with
          | None => None
          | Some (m, fl, s3) =>
              match s3 with
              | String ech er =>
                  if Ascii.eqb ech "e" || Ascii.eqb ech "E"
                  then
                    let '(eneg, s4) :=
                      match er with
                      | String sg r4 =>
                          if Ascii.eqb sg "-" then (true, r4)
                          else if Ascii.eqb sg "+" then (false, r4)
                          else (false, er)
                      | EmptyString => (false, er)
                      end in
                    let '(ex, cnt, s5) := digits s4 0 0 in
                    if (cnt =? 0)%Z then None
                    else Some (decimal_to_float neg m ((if eneg then - ex else ex) - fl)%Z, s5)
                  else Some (decimal_to_float neg m (- fl)%Z, s3)
              | EmptyString => Some (decimal_to_float neg m (- fl)%Z, s3)
              end
          end
      end
  | EmptyString => None
  end.

(** ** Strings *)

Definition chr (n : N) : ascii := ascii_of_N n.

(** The UTF-8 bytes of a code point, appended in reverse to [acc]
    (a lone surrogate is written in the same three-byte form). *)
Definition push_utf8 (cp : N) (acc : string) : string :=
  (if cp <? 128 then String (chr cp) acc
   else if cp <? 2048
   then String (chr (128 + cp mod 64)) (String (chr (192 + cp / 64)) acc)
   else if cp <? 65536
   then String (chr (128 + cp mod 64))
          (String (chr (128 + (cp / 64) mod 64)) (String (chr (224 + cp / 4096)) acc))
   else String (chr (128 + cp mod 64))
          (String (chr (128 + (cp / 64) mod 64))
             (String (chr (128 + (cp / 4096) mod 64))
                (String (chr (240 + cp / 262144)) acc))))%N.

Definition hex4 (s : string) : option (N * string) :=
  match s with
  | String a (String b (String c (String d r))) =>
      match hex a, hex b, hex c, hex d with
      | Some x, Some y, Some z, Some w => Some (((x * 16 + y) * 16 + z) * 16 + w, r)%N
      | _, _, _, _ => None
      end
  | _ => None
  end.

(** A low surrogate escape at the head of [s]. *)
Definition low_surrogate (s : string) : option (N * string) :=
  match s with
  | String b (String u r) =>
      if Ascii.eqb b backslash && Ascii.eqb u "u"
      then match hex4 r with
           | Some (lo, r') => if ((56320 <=? lo) && (lo <=? 57343))%N then Some (lo, r') else None
           | None => None
           end
      else None
  | _ => None
  end.

(** The characters of a string literal after its opening quote; [acc]
    holds the decoded text in reverse. *)
Fixpoint parse_string_fuel (fuel : nat) (s : string) (acc : string)
  : option (string * string) :=
  match fuel with
  | O => None
  | S fuel' =>
      match s with
      | EmptyString => None
      | String c r =>
          if Ascii.eqb c dquote then Some (rev acc, r)
          else if Ascii.eqb c backslash then
            match r with
            | EmptyString => None
            | String e r2 =>
                let simple (n : N) := parse_string_fuel fuel' r2 (String (chr n) acc) in
                if Ascii.eqb e dquote then simple 34%N
                else if Ascii.eqb e backslash then simple 92%N
                else if Ascii.eqb e "/" then simple 47%N
                else if Ascii.eqb e "b" then simple 8%N
                else if Ascii.eqb e "f" then simple 12%N
                else if Ascii.eqb e "n" then simple 10%N
                else if Ascii.eqb e "r" then simple 13%N
                else if Ascii.eqb e "t" then simple 9%N
                else if Ascii.eqb e "u" then
                  match hex4 r2 with
                  | None => None
                  | Some (cp, r3) =>
                      if ((55296 <=? cp) && (cp <=? 56319))%N
                      then match low_surrogate r3 with
                           | Some (lo, r4) =>
                               parse_string_fuel fuel' r4
                                 (push_utf8 (65536 + (cp - 55296) * 1024 + (lo - 56320))%N acc)
                           | None => parse_string_fuel fuel' r3 (push_utf8 cp acc)
                           end
                      else parse_string_fuel fuel' r3 (push_utf8 cp acc)
                  end
                else None
            end
          else if (byte c <? 32)%N then None
          else parse_string_fuel fuel' r (String c acc)
      end
  end.

Definition parse_string (s : string) : option (string * string) :=
  parse_string_fuel (S (String.length s)) s EmptyString.

(** ** Arrays and objects *)

Section Composite.
Variable parse_value : string -> option (value * string).

(** The elements of an array after [[], the array being non-empty. *)
Fixpoint parse_elements (fuel : nat) (s : string) (acc : list value)
  : option (list value * string) :=
  match fuel with
  | O => None
  | S fuel' =>
      match parse_value s with
      | None => None
      | Some (v, r) =>
          match skip_ws r with
          | String c r' =>
              if Ascii.eqb c "," then parse_elements fuel' r' (v :: acc)
              else if Ascii.eqb c "]" then Some (List.rev (v :: acc), r')
              else None
          | EmptyString => None
          end
      end
  end.

(** The members of an object after [{], the object being non-empty;
    a repeated key keeps its place and takes the later value. *)
Fixpoint parse_members (fuel : nat) (s : string) (acc : list (string * value))
  : option (list (string * value) * string) :=
  match fuel with
  | O => None
  | S fuel' =>
      match skip_ws s with
      | String q r =>
          if Ascii.eqb q dquote then
            match parse_string r with
            | None => None
            | Some (k, r1) =>
                match skip_ws r1 with
                | String colon r2 =>
                    if Ascii.eqb colon ":" then
                      match parse_value r2 with
                      | None => None
                      | Some (v, r3) =>
                          match skip_ws r3 with
                          | String c r4 =>
                              if Ascii.eqb c ","
                              then parse_members fuel' r4 (Js.set_own k v acc)
                              else if Ascii.eqb c "}"
                              then Some (Js.set_own k v acc, r4)
                              else None
                          | EmptyString => None
                          end
                      end
                    else None
                | EmptyString => None
                end
            end
          else None
      | EmptyString => None
      end
  end.
End Composite.

Definition literal (word : string) (v : value) (s : string) : option (value * string) :=
  match strip_prefix word s with
  | Some r => Some (v, r)
  | None => None
  end.

Fixpoint parse_value (fuel : nat) (s : string) : option (value * string) :=
  match fuel with
  | O => None
  | S fuel' =>
      let s0 := skip_ws s in
      match s0 with
      | EmptyString => None
      | String c r =>
          if Ascii.eqb c "{" then
            match skip_ws r with
            | String c' r' =>
                if Ascii.eqb c' "}" then Some (VObj [], r')
                else match parse_members (parse_value fuel') (String.length r) r [] with
                     | Some (m, r'') => Some (VObj m, r'')
                     | None => None
                     end
            | EmptyString => None
            end
          else if Ascii.eqb c "[" then
            match skip_ws r with
            | String c' r' =>
                if Ascii.eqb c' "]" then Some (VArr [], r')
                else match parse_elements (parse_value fuel') (String.length r) r [] with
                     | Some (l, r'') => Some (VArr l, r'')
                     | None => None
                     end
            | EmptyString => None
            end
          else if Ascii.eqb c dquote then
            match parse_string r with
            | Some (str, r') => Some (VStr str, r')
            | None => None
            end
          else if Ascii.eqb c "t" then literal "true" (VBool true) s0
          else if Ascii.eqb c "f" then literal "false" (VBool false) s0
          else if Ascii.eqb c "n" then literal "null" VNull s0
          else match parse_number s0 with
               | Some (n, r') => Some (VNum n, r')
               | None => None
               end
      end
  end.

(** [JSON.parse(text)]; [None] is the SyntaxError. *)
Definition parse (text : string) : option value :=
  match parse_value (S (String.length text)) text with
  | Some (v, rest) =>
      match skip_ws rest with
      | EmptyString => Some v
      | String _ _ => None
      end
  | None => None
  end.

End JSON.

(* ================================================================== *)
(** * cacheService: the confidence score                               *)
(* ================================================================== *)

Module ConfidenceScorer.
Local Open Scope float_scope.

Definition requiredFields : list string :=
  [ "name"; "country"; "city"; "domain"; "tuition_estimate";
    "acceptance_rate"; "rank" ].

(** The filter predicate
    [d[f] && d[f] !== null && d[f] !== '' && d[f] !== 0]. *)
Definition field_present (enrichedData : list (string * value)) (field : string) : bool :=
  let v := Js.get_own enrichedData field in
  Js.truthy v
  && negb (Js.strict_eq v VNull)
  && negb (Js.strict_eq v (VStr ""))
  && negb (Js.strict_eq v (VNum 0)).

Definition presentFields (enrichedData : list (string * value)) : nat :=
  List.length (filter (field_present enrichedData) requiredFields).

Definition sourceScores : list (string * value) :=
  [ ("VERIFIED", VNum 1.0); ("MANUAL", VNum 0.85); ("GEMINI", VNum 0.75);
    ("LLAMA", VNum 0.65); ("AI", VNum 0.70) ].

(** The numeric value of the operand [sourceScore] in
    [sourceScore * 0.3].  The table holds numbers; what an object literal
    inherits is a function or an object, whose conversion to a number is
    NaN. *)
Definition operand (v : value) : float :=
  match v with
  | VNum n => n
  | _ => nan
  end.

Definition calculateConfidenceScore
    (enrichedData : list (string * value)) (source : string) (isVerified : bool)
  : float :=
  let completeness :=
    JsNum.of_nat (presentFields enrichedData) / JsNum.of_nat (List.length requiredFields) in
  let sourceScore := Js.or (Js.get_own sourceScores source) (VNum 0.5) in
  let verifiedScore := if isVerified then 1.0 else 0.0 in
  let recencyScore := 1.0 in
  let confidence :=
    (completeness * 0.4) + (operand sourceScore * 0.3)
    + (verifiedScore * 0.2) + (recencyScore * 0.1) in
  JsNum.Math_min 1.0 (JsNum.Math_max 0.0 (JsNum.Math_round (confidence * 100) / 100)).

End ConfidenceScorer.


(* ================================================================== *)
(** * cacheService: the enrichment cache                               *)
(* ================================================================== *)

Module EnrichmentCache.
Import ConfidenceScorer.
Local Open Scope Z_scope.

(** A row of the table [enrichment_cache]; time stamps are epoch
    milliseconds.  The pair (university_name, country) is declared
    UNIQUE. *)
Record row : Type := {
  id : Z;
  university_name : string;
  country : string;
  enriched_data : list (string * value);
  confidence_score : float;
  source : string;
  created_at : Z;
  last_accessed_at : Z;
  access_count : Z;
  is_verified : bool;
  verified_by_user_id : option Z;
  verified_at : option Z
}.

Definition table : Type := list row.

Module CACHE_TTL.
Definition VERIFIED : Z := 30 * 24 * 60 * 60 * 1000.    (* 30 days *)
Definition AI_ENRICHED : Z := 7 * 24 * 60 * 60 * 1000.  (* 7 days *)
Definition MANUAL : Z := 14 * 24 * 60 * 60 * 1000.      (* 14 days *)
End CACHE_TTL.

(** The [_cache_meta] object attached to what the service returns; the
    failure result of [enrichUniversity] carries the first three fields
    only. *)
Record cache_meta : Type := {
  cached : bool;
  meta_confidence_score : float;
  meta_source : string;
  meta_is_verified : option bool;
  meta_created_at : option Z;
  meta_access_count : option Z
}.

(** An object [{ ...payload, _cache_meta: meta }]: its properties other
    than [_cache_meta], and the meta data. *)
Record enrichment : Type := {
  fields : list (string * value);
  _cache_meta : cache_meta
}.

Definition with_meta (payload : list (string * value)) (m : cache_meta) : enrichment :=
  {| fields := Js.remove "_cache_meta" payload; _cache_meta := m |}.

(** [.eq('university_name', n).eq('country', c)]: exact, case-sensitive
    comparison of both columns. *)
Definition key_is (n c : string) (r : row) : bool :=
  String.eqb (university_name r) n && String.eqb (country r) c.

Definition ttl_of (data : row) : Z :=
  if is_verified data then CACHE_TTL.VERIFIED
  else if String.eqb (source data) "MANUAL" then CACHE_TTL.MANUAL
  else CACHE_TTL.AI_ENRICHED.

(** The object handed to [upsert]. *)
Record cacheEntry : Type := {
  entry_university_name : string;
  entry_country : string;
  entry_enriched_data : list (string * value);
  entry_confidence_score : float;
  entry_source : string;
  entry_created_at : Z;
  entry_last_accessed_at : Z;
  entry_access_count : Z;
  entry_is_verified : bool
}.

(** INSERT ... ON CONFLICT (university_name, country) DO UPDATE: the
    conflicting row takes every column of the entry and keeps the
    others; without a conflict a row is inserted under a new id. *)
Definition overwrite (e : cacheEntry) (r : row) : row :=
  {| id := id r;
     university_name := entry_university_name e;
     country := entry_country e;
     enriched_data := entry_enriched_data e;
     confidence_score := entry_confidence_score e;
     source := entry_source e;
     created_at := entry_created_at e;
     last_accessed_at := entry_last_accessed_at e;
     access_count := entry_access_count e;
     is_verified := entry_is_verified e;
     verified_by_user_id := verified_by_user_id r;
     verified_at := verified_at r |}.

Definition inserted (new_id : Z) (e : cacheEntry) : row :=
  {| id := new_id;
     university_name := entry_university_name e;
     country := entry_country e;
     enriched_data := entry_enriched_data e;
     confidence_score := entry_confidence_score e;
     source := entry_source e;
     created_at := entry_created_at e;
     last_accessed_at := entry_last_accessed_at e;
     access_count := entry_access_count e;
     is_verified := entry_is_verified e;
     verified_by_user_id := None;
     verified_at := None |}.

(** The table after the upsert, and the row it reports back. *)
Fixpoint upsert (new_id : Z) (e : cacheEntry) (t : table) : table * row :=
  match t with
  | [] => ([inserted new_id e], inserted new_id e)
  | r :: t' =>
      if key_is (entry_university_name e) (entry_country e) r
      then (overwrite e r :: t', overwrite e r)
      else let '(t'', data) := upsert new_id e t' in (r :: t'', data)
  end.

(** What a lookup returns for a row [data] that is within its TTL. *)
Definition hit_of (data : row) : enrichment :=
  with_meta (enriched_data data)
    {| cached := true;
       meta_confidence_score := confidence_score data;
       meta_source := source data;
       meta_is_verified := Some (is_verified data);
       meta_created_at := Some (created_at data);
       meta_access_count := Some (access_count data + 1) |}.

Section Store.
(** What the request sent by [updateCacheAccess] does to the table.
    The value it sends for [access_count] is a pending remote call
    ([supabase.rpc('increment', ...)]), so the outcome is decided by the
    store, not by this code; the reply is not inspected. *)
Variable updateCacheAccess : Z -> Z -> table -> table.

(** [getCachedEnrichment(name, country)] at clock reading [now]: what
    it returns ([None] for null) and the table afterwards. *)
Definition getCachedEnrichment (now : Z) (name country : string) (t : table)
  : option enrichment * table :=
  match Js.single (filter (key_is (JsStr.trim name) (JsStr.trim country)) t) with
  | None => (None, t)
  | Some data =>
      let ttl := ttl_of data in
      let cacheAge := now - created_at data in
      if cacheAge >? ttl then (None, t)
      else
        (Some (hit_of data), updateCacheAccess now (id data) t)
  end.
End Store.

(** [setCachedEnrichment(name, country, enrichedData, source)]:
    [created] and [accessed] are its two clock readings, [new_id] the
    identifier the store would give a new row.  Returns the stored row
    and the table afterwards. *)
Definition setCachedEnrichment (created accessed new_id : Z) (name country : string)
    (enrichedData : list (string * value)) (source : string) (t : table)
  : option row * table :=
  let confidence := calculateConfidenceScore enrichedData source false in
  let cacheEntry :=
    {| entry_university_name := JsStr.trim name;
       entry_country := JsStr.trim country;
       entry_enriched_data := enrichedData;
       entry_confidence_score := confidence;
       entry_source := source;
       entry_created_at := created;
       entry_last_accessed_at := accessed;
       entry_access_count := 1;
       entry_is_verified := false |} in
  let '(t', data) := upsert new_id cacheEntry t in
  (Some data, t').

(** [clearExpiredCache()] at clock reading [now]:
    DELETE ... WHERE is_verified = false AND created_at < cutoff. *)
Definition expired_unverified (now : Z) (r : row) : bool :=
  let cutoffDate := now - CACHE_TTL.VERIFIED in
  Bool.eqb (is_verified r) false && (created_at r <? cutoffDate).

Definition clearExpiredCache (now : Z) (t : table) : table :=
  filter (fun r => negb (expired_unverified now r)) t.

(** The UNIQUE constraint of the table. *)
Definition unique_keys (t : table) : Prop :=
  NoDup (map (fun r => (university_name r, country r)) t).

Definition rows_with_key (n c : string) (t : table) : list row :=
  filter (key_is n c) t.

End EnrichmentCache.

(* ================================================================== *)
(** * Effects: the store, the clock, the model endpoints               *)
(* ================================================================== *)

(** What a [throw] carries: an [Error] object with its message, or the
    value [null] (thrown by [throw lastError] when nothing was recorded). *)
Inductive exn : Type :=
| Error (message : string)
| ThrownNull.

Inductive outcome (A : Type) : Type :=
| Returned (a : A)
| Thrown (e : exn).
Arguments Returned {A} a.
Arguments Thrown {A} e.

(** What an endpoint gives back: the generated text, or a failure (a
    network error, a timeout, a refusal), which the client library raises as
    an Error with a message. *)
Inductive reply : Type :=
| Answer (text : string)
| Failure (message : string).

Inductive provider : Type := GEMINI | GROQ.

Record message : Type := { role : string; content : string }.

(** What a run leaves in its trace: entering [tryGemini] / [tryGroq], and
    every request that leaves for an endpoint. *)
Inductive event : Type :=
| TryProvider (p : provider)
| GeminiRequest (modelName apiKey fullPrompt : string)
| GroqRequest (apiKey systemPrompt : string) (messages : list message).

(** A row of [user_university_analyses]; (user_id, university_id) is
    UNIQUE. *)
Record analysis_row : Type := {
  user_id : string;
  university_id : string;
  analysis : value;
  analyzed_at : Z
}.

Section World.
Variable World : Type.

(** Everything the services get from outside: the clock, fresh row
    identifiers, the random draws of the key shuffle, the two endpoints,
    the configured keys, and the effect of the access-statistics update. *)
Record environment : Type := {
  Date_now : World -> Z * World;
  uuid_generate_v4 : World -> Z * World;
  Math_random_draws : nat -> World -> list nat * World;
  gemini_generateContent :
    string -> string -> string -> World -> reply * World;
  groq_chat_completions :
    string -> string -> list message -> World -> reply * World;
  GEMINI_API_KEYS : list string;
  GROQ_API_KEYS : list string;
  updateCacheAccess : Z -> Z -> EnrichmentCache.table -> EnrichmentCache.table
}.

Record state : Type := {
  world : World;
  enrichment_cache : EnrichmentCache.table;
  profiles : list (string * list (string * value));        (* by user_id *)
  universities : list (string * list (string * value));    (* by id *)
  user_university_analyses : list analysis_row;
  trace : list event
}.

Definition M (A : Type) : Type := state -> outcome A * state.

Definition ret {A} (a : A) : M A := fun st => (Returned a, st).

Definition bind {A B} (m : M A) (k : A -> M B) : M B :=
  fun st =>
    match m st with
    | (Returned a, st') => k a st'
    | (Thrown e, st') => (Thrown e, st')
    end.

Definition throw {A} (e : exn) : M A := fun st => (Thrown e, st).

(** [try { m } catch (e) { handler e }] *)
Definition try_catch {A} (m : M A) (handler : exn -> M A) : M A :=
  fun st =>
    match m st with
    | (Returned a, st') => (Returned a, st')
    | (Thrown e, st') => handler e st'
    end.

Definition emit (e : event) : M unit :=
  fun st =>
    (Returned tt,
     {| world := world st; enrichment_cache := enrichment_cache st;
        profiles := profiles st; universities := universities st;
        user_university_analyses := user_university_analyses st;
        trace := trace st ++ [e] |}).

Definition set_world (w : World) (st : state) : state :=
  {| world := w; enrichment_cache := enrichment_cache st;
     profiles := profiles st; universities := universities st;
     user_university_analyses := user_university_analyses st;
     trace := trace st |}.

Definition set_enrichment_cache (t : EnrichmentCache.table) (st : state) : state :=
  {| world := world st; enrichment_cache := t;
     profiles := profiles st; universities := universities st;
     user_university_analyses := user_university_analyses st;
     trace := trace st |}.

Definition set_analyses (t : list analysis_row) (st : state) : state :=
  {| world := world st; enrichment_cache := enrichment_cache st;
     profiles := profiles st; universities := universities st;
     user_university_analyses := t;
     trace := trace st |}.

(** A total request to the outside world. *)
Definition ask {A} (f : World -> A * World) : M A :=
  fun st => let '(a, w) := f (world st) in (Returned a, set_world w st).

(** A request to an endpoint; a failure is thrown as an Error. *)
Definition call (f : World -> reply * World) : M string :=
  fun st =>
    let '(r, w) := f (world st) in
    match r with
    | Answer text => (Returned text, set_world w st)
    | Failure m => (Thrown (Error m), set_world w st)
    end.

(** [e.message]; reading it off [null] is a TypeError. *)
Definition message_of (e : exn) : M string :=
  match e with
  | Error m => ret m
  | ThrownNull => throw (Error "TypeError: Cannot read properties of null (reading 'message')")
  end.

End World.

Arguments ret {World A} a.
Arguments bind {World A B} m k.
Arguments throw {World A} e.
Arguments try_catch {World A} m handler.
Arguments emit {World} e.
Arguments ask {World A} f.
Arguments call {World} f.
Arguments message_of {World} e.
Arguments world {World} s.
Arguments enrichment_cache {World} s.
Arguments profiles {World} s.
Arguments universities {World} s.
Arguments user_university_analyses {World} s.
Arguments trace {World} s.
Arguments set_world {World} w st.
Arguments set_enrichment_cache {World} t st.
Arguments set_analyses {World} t st.
Arguments Date_now {World} e.
Arguments uuid_generate_v4 {World} e.
Arguments Math_random_draws {World} e.
Arguments gemini_generateContent {World} e.
Arguments groq_chat_completions {World} e.
Arguments GEMINI_API_KEYS {World} e.
Arguments GROQ_API_KEYS {World} e.
Arguments updateCacheAccess {World} e.

Declare Scope js_scope.
Delimit Scope js_scope with js.
Notation "x <- m ;; k" := (bind m (fun x => k))
  (at level 61, m at next level, right associativity) : js_scope.
Notation "m ;;; k" := (bind m (fun _ => k))
  (at level 61, right associativity) : js_scope.

(** The long template literals of the services.  Their text only travels
    to the endpoints, so it is kept abstract; each takes the data the
    literal interpolates. *)
Record templates : Type := {
  enrichment_systemPrompt : string -> string -> string;
  discovery_systemPrompt : list (string * value) -> list (string * value) -> string;
  discovery_userPrompt : list (string * value) -> string;
  batch_analysis_systemPrompt :
    list (string * value) -> list (list (string * value)) -> string;
  batch_analysis_userPrompt : nat -> string;
  batch_enrichment_prompt : list (string * string) -> string
}.

(* ================================================================== *)
(** * aiService: provider clients and the router                       *)
(* ================================================================== *)

Module AiService.
Import JsStr.
Local Open Scope js_scope.

(** [[...keys].sort(() => 0.5 - Math.random())]: some rearrangement of
    the keys, picked by the random draws. *)
Fixpoint insert_at {A : Type} (n : nat) (x : A) (l : list A) : list A :=
  match n, l with
  | S n', y :: l' => y :: insert_at n' x l'
  | _, _ => x :: l
  end.

Fixpoint rearrange {A : Type} (draws : list nat) (l : list A) : list A :=
  match l with
  | [] => []
  | x :: l' => insert_at (hd O draws) x (rearrange (tl draws) l')
  end.

(** The text clean-up shared by both clients:
    [text.replace(/```json\n?/g, '').replace(/```\n?/g, '').trim()]. *)
Definition strip_fences (text : string) : string :=
  trim (remove_all "```" true (remove_all "```json" true text)).

(** The own properties spread by [{ ...json }]; the parsed text starts
    with an opening brace, so [json] is an object. *)
Definition own_props (json : value) : list (string * value) :=
  match json with
  | VObj props => props
  | _ => []
  end.

Section Env.
Context {World : Type}.
Variable env : environment World.

Definition shuffled (keys : list string) : M World (list string) :=
  draws <- ask (Math_random_draws env (List.length keys)) ;;
  ret (rearrange draws keys).

(** ** callGemini *)

Definition gemini_result (text modelName : string) : list (string * value) :=
  let text_only :=
    [ ("text", VStr text); ("actions", VArr []);
      ("_aiSource", VStr "GEMINI"); ("_model", VStr modelName) ] in
  let cleanedText := strip_fences text in
  match match_bracketed "{" "}" cleanedText with
  | Some objectMatch =>
      match JSON.parse objectMatch with
      | Some json =>
          Js.spread (own_props json)
            [ ("_aiSource", VStr "GEMINI"); ("_model", VStr modelName) ]
      | None => text_only
      end
  | None => text_only
  end.

(** The body of the innermost [try] of [callGemini]. *)
Definition gemini_attempt (messages : list message) (systemPrompt modelName apiKey : string)
  : M World (list (string * value)) :=
  let fullPrompt :=
    systemPrompt ++ newline ++ newline ++ "User: "
    ++ String.concat newline (map content messages) in
  emit (GeminiRequest modelName apiKey fullPrompt) ;;;
  text <- call (gemini_generateContent env apiKey modelName fullPrompt) ;;
  if String.eqb text "" then throw (Error "Empty response from Gemini")
  else ret (gemini_result text modelName).

(** The loop over the shuffled keys: the first answer is returned
    ([inl]); otherwise the loop ends with the last error ([inr]). *)
Fixpoint gemini_keys (messages : list message) (systemPrompt modelName : string)
    (keys : list string) (lastError : option exn)
  : M World (list (string * value) + option exn) :=
  match keys with
  | [] => ret (inr lastError)
  | apiKey :: rest =>
      try_catch
        (r <- gemini_attempt messages systemPrompt modelName apiKey ;; ret (inl r))
        (fun error =>
           _ <- message_of error ;;
           gemini_keys messages systemPrompt modelName rest (Some error))
  end.

Fixpoint gemini_models (messages : list message) (systemPrompt : string)
    (modelsToTry : list string) (lastError : option exn)
  : M World (list (string * value)) :=
  match modelsToTry with
  | [] =>
      match lastError with
      | Some e => throw e
      | None => throw ThrownNull
      end
  | modelName :: rest =>
      shuffledKeys <- shuffled (GEMINI_API_KEYS env) ;;
      r <- gemini_keys messages systemPrompt modelName shuffledKeys lastError ;;
      match r with
      | inl response => ret response
      | inr lastError' => gemini_models messages systemPrompt rest lastError'
      end
  end.

(** [callGemini(messages, systemPrompt, preferredModel)]; an omitted
    or undefined model takes the default. *)
Definition callGemini (messages : list message) (systemPrompt : string)
    (preferredModel : option string) : M World (list (string * value)) :=
  let preferredModel :=
    match preferredModel with Some m => m | None => "gemini-2.5-flash" end in
  match GEMINI_API_KEYS env with
  | [] => throw (Error "GEMINI_API_KEYS not configured")
  | _ :: _ =>
      let fallbackModel :=
        if String.eqb preferredModel "gemini-2.5-flash"
        then "gemini-2.5-flash-lite" else "gemini-2.5-flash" in
      let modelsToTry := [preferredModel; fallbackModel] in
      gemini_models messages systemPrompt modelsToTry None
  end.

(** ** callGroq *)

Definition groq_result (text : string) : list (string * value) :=
  let text_only :=
    [ ("text", VStr text); ("actions", VArr []); ("_aiSource", VStr "LLAMA") ] in
  let cleanedText := strip_fences text in
  match match_bracketed "{" "}" cleanedText with
  | Some objectMatch =>
      match JSON.parse objectMatch with
      | Some json =>
          let json := own_props json in
          let json :=
            if negb (Js.truthy (Js.get_own json "text")) && Js.truthy (Js.get_own json "actions")
            then Js.set_own "text" (VStr "I've updated your profile.") json
            else if negb (Js.truthy (Js.get_own json "text"))
            then Js.set_own "text" (VStr "I heard you.") json
            else json in
          Js.spread json [ ("_aiSource", VStr "LLAMA") ]
      | None => text_only
      end
  | None => text_only
  end.

Definition groq_attempt (messages : list message) (systemPrompt apiKey : string)
  : M World (list (string * value)) :=
  emit (GroqRequest apiKey systemPrompt messages) ;;;
  text <- call (groq_chat_completions env apiKey systemPrompt messages) ;;
  ret (groq_result text).

Fixpoint groq_keys (messages : list message) (systemPrompt : string)
    (keys : list string) (lastError : option exn)
  : M World (list (string * value)) :=
  match keys with
  | [] =>
      match lastError with
      | Some e => throw e
      | None => throw ThrownNull
      end
  | apiKey :: rest =>
      try_catch
        (groq_attempt messages systemPrompt apiKey)
        (fun error =>
           _ <- message_of error ;;
           groq_keys messages systemPrompt rest (Some error))
  end.

Definition callGroq (messages : list message) (systemPrompt : string)
  : M World (list (string * value)) :=
  match GROQ_API_KEYS env with
  | [] => throw (Error "GROQ_API_KEYS not configured")
  | _ :: _ =>
      shuffledKeys <- shuffled (GROQ_API_KEYS env) ;;
      groq_keys messages systemPrompt shuffledKeys None
  end.

(** ** getLLMResponse *)

(** The third argument: the legacy provider string, or an object with
    optional [provider] and [model]. *)
Inductive llm_options : Type :=
| OptString (provider : string)
| OptObject (provider : option string) (model : option string).

Definition default_options : llm_options :=
  OptObject (Some "GROQ") (Some "gemini-2.5-flash").

Definition unavailable : list (string * value) :=
  [ ("text", VStr "I'm having trouble connecting to my AI services. Please check your connection.");
    ("error", VBool true) ].

(** The provider and the model read off the options:
    [typeof options === 'string' ? options : (options.provider || 'GROQ')] and
    [typeof options === 'object' ? options.model : 'gemini-2.5-flash']. *)
Definition provider_of (options : llm_options) : string :=
  match options with
  | OptString s => s
  | OptObject (Some s) _ => if String.eqb s "" then "GROQ" else s
  | OptObject None _ => "GROQ"
  end.

Definition preferredModel_of (options : llm_options) : option string :=
  match options with
  | OptObject _ m => m
  | OptString _ => Some "gemini-2.5-flash"
  end.

Definition tryGemini (messages : list message) (systemPrompt : string)
    (preferredModel : option string) : M World (list (string * value)) :=
  emit (TryProvider GEMINI) ;;; callGemini messages systemPrompt preferredModel.

Definition tryGroq (messages : list message) (systemPrompt : string)
  : M World (list (string * value)) :=
  emit (TryProvider GROQ) ;;; callGroq messages systemPrompt.

(** [getLLMResponse(messages, systemPrompt, options)]; [None] is the
    omitted argument. *)
Definition getLLMResponse (messages : list message) (systemPrompt : string)
    (options : option llm_options) : M World (list (string * value)) :=
  let options := match options with Some o => o | None => default_options end in
  let provider := provider_of options in
  let preferredModel := preferredModel_of options in
  if String.eqb provider "GEMINI" then
    try_catch (tryGemini messages systemPrompt preferredModel)
      (fun geminiError =>
         _ <- message_of geminiError ;;
         try_catch (tryGroq messages systemPrompt) (fun groqError => ret unavailable))
  else
    try_catch (tryGroq messages systemPrompt)
      (fun groqError =>
         _ <- message_of groqError ;;
         try_catch (tryGemini messages systemPrompt preferredModel)
           (fun geminiError => ret unavailable)).

(** ** enrichUniversity *)

Variable prompts : templates.

(** The cache operations of cacheService, run against the store of
    the state; the clock is read where the code reads it: [Date.now()] for
    the age of the row found and, on a hit, [new Date()] in
    [updateCacheAccess] for [last_accessed_at]. *)
Definition getCachedEnrichment (name country : string)
  : M World (option EnrichmentCache.enrichment) :=
  fun st =>
    let t := enrichment_cache st in
    match Js.single
            (filter (EnrichmentCache.key_is (trim name) (trim country)) t) with
    | None => (Returned None, st)
    | Some data =>
        let '(now, w) := Date_now env (world st) in
        match fst (EnrichmentCache.getCachedEnrichment
                     (updateCacheAccess env) now name country t) with
        | None => (Returned None, set_world w st)
        | Some hit =>
            let '(accessed, w') := Date_now env w in
            (Returned (Some hit),
             set_enrichment_cache
               (updateCacheAccess env accessed (EnrichmentCache.id data) t)
               (set_world w' st))
        end
    end.

Definition setCachedEnrichment (name country : string)
    (enrichedData : list (string * value)) (source : string)
  : M World (option EnrichmentCache.row) :=
  created <- ask (Date_now env) ;;
  accessed <- ask (Date_now env) ;;
  new_id <- ask (uuid_generate_v4 env) ;;
  fun st =>
    let '(data, t') :=
      EnrichmentCache.setCachedEnrichment created accessed new_id name country
        enrichedData source (enrichment_cache st) in
    (Returned data, set_enrichment_cache t' st).

Definition parse_failure (name country : string) : list (string * value) :=
  [ ("name", VStr name); ("country", VStr country);
    ("error", VStr "Failed to parse AI response") ].

(** Steps 1 and 2 of the response handling: the object itself when it
    already carries data, else the JSON object found in its text. *)
Definition enrichedData_of (name country : string) (response : list (string * value))
  : M World (list (string * value)) :=
  if Js.truthy (Js.or (Js.or (Js.get_own response "name")
                             (Js.get_own response "tuition_estimate"))
                      (Js.get_own response "city"))
  then ret response
  else if Js.truthy (Js.get_own response "text") then
    match Js.get_own response "text" with
    | VStr text =>
        match match_bracketed "{" "}" text with
        | Some jsonMatch =>
            match JSON.parse jsonMatch with
            | Some v => ret (own_props v)
            | None =>
                let cleaned := trim (remove_all "```" false (remove_all "```json" false jsonMatch)) in
                match JSON.parse cleaned with
                | Some v => ret (own_props v)
                | None => ret (parse_failure name country)
                end
            end
        | None => ret (parse_failure name country)
        end
    | _ => throw (Error "TypeError: text.match is not a function")
    end
  else ret response.

(** [response._aiSource || 'AI'].  The tag is written by callGemini /
    callGroq after the spread, so it is a string whenever present. *)
Definition source_of (response : list (string * value)) : string :=
  match Js.or (Js.get_own response "_aiSource") (VStr "AI") with
  | VStr s => s
  | _ => "AI"
  end.

Definition enrichment_failed (name country : string) : EnrichmentCache.enrichment :=
  EnrichmentCache.with_meta
    [ ("name", VStr name); ("country", VStr country); ("error", VStr "Failed to enrich") ]
    {| EnrichmentCache.cached := false;
       EnrichmentCache.meta_confidence_score := 0%float;
       EnrichmentCache.meta_source := "ERROR";
       EnrichmentCache.meta_is_verified := None;
       EnrichmentCache.meta_created_at := None;
       EnrichmentCache.meta_access_count := None |}.

Definition enrich_fresh (name country : string) : M World EnrichmentCache.enrichment :=
  let systemPrompt := enrichment_systemPrompt prompts name country in
  let messages :=
    [ {| role := "user"; content := "Enrich data for " ++ name ++ " in " ++ country |} ] in
  try_catch
    (response <- getLLMResponse messages systemPrompt
                   (Some (OptObject (Some "GEMINI") (Some "gemini-2.5-flash-lite"))) ;;
     enrichedData <- enrichedData_of name country response ;;
     let source := source_of response in
     _ <- setCachedEnrichment name country enrichedData source ;;
     let confidence :=
       ConfidenceScorer.calculateConfidenceScore enrichedData source false in
     created <- ask (Date_now env) ;;
     ret (EnrichmentCache.with_meta enrichedData
            {| EnrichmentCache.cached := false;
               EnrichmentCache.meta_confidence_score := confidence;
               EnrichmentCache.meta_source := source;
               EnrichmentCache.meta_is_verified := Some false;
               EnrichmentCache.meta_created_at := Some created;
               EnrichmentCache.meta_access_count := Some 1%Z |}))
    (fun error => ret (enrichment_failed name country)).

(** [enrichUniversity(name, country)] *)
Definition enrichUniversity (name country : string) : M World EnrichmentCache.enrichment :=
  cached <- getCachedEnrichment name country ;;
  match cached with
  | Some c =>
      if negb (Js.truthy (Js.get_own (EnrichmentCache.fields c) "error"))
      then ret c
      else enrich_fresh name country
  | None => enrich_fresh name country
  end.

End Env.
End AiService.

(* ================================================================== *)
(** * discoveryAnalysisService                                         *)
(* ================================================================== *)

Module DiscoveryAnalysis.
Import JsStr AiService.
Local Open Scope js_scope.

(** [isValidAnalysis(analysis)] *)
Definition isValidAnalysis (analysis : value) : bool :=
  Js.truthy analysis
  && Js.truthy (Js.get_opt analysis "profile_fit")
  && Js.truthy (Js.get_opt analysis "budget_analysis")
  && Js.truthy (Js.get_opt analysis "country_preference")
  && Js.truthy (Js.get_opt analysis "acceptance_score")
  && Js.truthy (Js.get_opt analysis "risk_level").

Definition getDefaultAnalysis : value :=
  VObj
    [ ("profile_fit",
        VObj [ ("reasons", VArr [VStr "Complete your profile to see personalized insights"]);
               ("score", VNum 50) ]);
      ("budget_analysis",
        VObj [ ("tuition", VNum 0); ("user_budget", VNum 0);
               ("within_budget", VBool true); ("gap", VNum 0);
               ("recommendation", VStr "Set your budget in profile to see cost analysis") ]);
      ("country_preference",
        VObj [ ("matches", VBool false);
               ("message", VStr "Set country preferences to see matches") ]);
      ("acceptance_score",
        VObj [ ("percentage", VNum 50); ("category", VStr "TARGET");
               ("reasoning", VStr "Complete profile for accurate assessment") ]);
      ("risk_level", VStr "medium");
      ("cost_level", VStr "medium") ].

Definition TTL : Z := (7 * 24 * 60 * 60 * 1000)%Z.   (* 7 days *)

(** [isStale(analyzedAt)] at clock reading [now]. *)
Definition isStale (now analyzedAt : Z) : bool :=
  let age := (now - analyzedAt)%Z in (age >? TTL)%Z.

(** [v?.[0]] *)
Definition first_opt (v : value) : value :=
  match v with
  | VArr items => hd VUndefined items
  | VObj props => Js.get_own props "0"
  | VStr (String c _) => VStr (String c EmptyString)
  | _ => VUndefined
  end.

(** [v?.includes(needle)]: undefined on undefined or null; the search
    of a string or of an array; any other receiver has no callable
    [includes], and the call throws ([None]). *)
Definition includes_opt (v : value) (needle : string) : option value :=
  match v with
  | VUndefined | VNull => Some VUndefined
  | VStr s => Some (VBool (includes needle s))
  | VArr items => Some (VBool (existsb (fun x => Js.strict_eq x (VStr needle)) items))
  | VBool _ | VNum _ | VObj _ | VFun _ => None
  end.

Definition sentinel : string := "Complete your profile".

(** [analysis?.profile_fit?.reasons?.[0]] *)
Definition first_reason (analysis : value) : value :=
  first_opt (Js.get_opt (Js.get_opt analysis "profile_fit") "reasons").

(** [cached?.analysis?.profile_fit?.reasons?.[0]?.includes('Complete your profile')] *)
Definition isGenericCache (cached : option analysis_row) : option value :=
  match cached with
  | None => Some VUndefined
  | Some c => includes_opt (first_reason (analysis c)) sentinel
  end.

(** ** The response-parsing step of analyzeUniversityForDiscovery

    [Some analysis], or [None] when the step ends in its [catch], where
    the caller returns the default analysis. *)
Definition is_object (v : value) : bool :=
  match v with
  | VObj _ | VArr _ | VNull => true
  | _ => false
  end.

Definition parse_text (text : string) : option value :=
  let cleanedText := strip_fences text in
  match match_bracketed "{" "}" cleanedText with
  | Some jsonMatch =>
      match JSON.parse jsonMatch with
      | Some v => Some v
      | None =>
          let furtherCleaned :=
            trim (drop_comma_before "]" (drop_comma_before "}" jsonMatch)) in
          JSON.parse furtherCleaned
      end
  | None => None      (* 'No JSON object found in response' *)
  end.

Definition parse_response (response : value) : option value :=
  if Js.truthy response && is_object response
     && Js.truthy (Js.or (Js.get_opt response "profile_fit")
                         (Js.get_opt response "budget_analysis"))
  then Some response
  else
    match response with
    | VStr s => parse_text s                (* text = response.text || response *)
    | VUndefined | VNull => None            (* reading .text throws *)
    | _ =>
        let text := Js.get_opt response "text" in
        if Js.truthy text then
          match text with
          | VStr s => parse_text s
          | _ => None                       (* text.replace is not a function *)
          end
        else Some response
    end.

(** ** The analysis table *)

Definition analysis_key_is (userId universityId : string) (r : analysis_row) : bool :=
  String.eqb (user_id r) userId && String.eqb (university_id r) universityId.

Fixpoint upsert_analysis (e : analysis_row) (t : list analysis_row) : list analysis_row :=
  match t with
  | [] => [e]
  | r :: t' =>
      if analysis_key_is (user_id e) (university_id e) r
      then e :: t'
      else r :: upsert_analysis e t'
  end.

Definition lookup (k : string) (t : list (string * list (string * value)))
  : option (list (string * value)) :=
  Js.single (map snd (filter (fun r => String.eqb (fst r) k) t)).

Section Env.
Context {World : Type}.
Variable env : environment World.
Variable prompts : templates.

(** [getCachedAnalysis(userId, universityId)] *)
Definition getCachedAnalysis (userId universityId : string)
  : M World (option analysis_row) :=
  fun st =>
    (Returned (Js.single (filter (analysis_key_is userId universityId)
                            (user_university_analyses st))), st).

(** [cacheAnalysis(userId, universityId, analysis)] *)
Definition cacheAnalysis (userId universityId : string) (a : value) : M World unit :=
  now <- ask (Date_now env) ;;
  fun st =>
    (Returned tt,
     set_analyses
       (upsert_analysis
          {| user_id := userId; university_id := universityId;
             analysis := a; analyzed_at := now |}
          (user_university_analyses st)) st).

Definition fetch_profile (userId : string) : M World (option (list (string * value))) :=
  fun st => (Returned (lookup userId (profiles st)), st).

Definition fetch_university (universityId : string)
  : M World (option (list (string * value))) :=
  fun st => (Returned (lookup universityId (universities st)), st).

(** [String(v)] for a value read from a JSONB column.  It throws for
    an object with an own [toString] (no JSON value is callable, and the
    inherited [valueOf] gives the object back), and for an array one of
    whose elements does; an array is converted by joining its elements. *)
Fixpoint converts_to_string (v : value) : bool :=
  match v with
  | VObj props => negb (Js.has_own "toString" props)
  | VArr items =>
      (fix all (l : list value) : bool :=
         match l with
         | [] => true
         | x :: l' => converts_to_string x && all l'
         end) items
  | VUndefined | VNull | VBool _ | VNum _ | VStr _ | VFun _ => true
  end.

(** The receivers on which [v.join(sep)] returns: arrays whose elements
    convert to strings (null and undefined elements are skipped).  No other
    value a JSONB column holds has a callable [join], and the call is a
    TypeError. *)
Definition joins (v : value) : bool :=
  match v with
  | VArr items => forallb converts_to_string items
  | VUndefined | VNull | VBool _ | VNum _ | VStr _ | VObj _ | VFun _ => false
  end.

(** [v?.join(sep)]: the call is skipped on undefined and null. *)
Definition joins_opt (v : value) : bool :=
  match v with
  | VUndefined | VNull => true
  | _ => joins v
  end.

(** The log line of step 1, which interpolates
    [profile.preferred_countries?.join(',')] when a profile was found. *)
Definition log_profile (profile : option (list (string * value))) : M World unit :=
  match profile with
  | Some p =>
      if joins_opt (Js.get_own p "preferred_countries") then ret tt
      else throw (Error "TypeError: profile.preferred_countries?.join is not a function")
  | None => ret tt
  end.

(** [buildDiscoveryPrompt(profile, university)].  It calls [includes]
    and [join] on [profile.preferred_countries || []], a JSONB column:
    both exist on arrays only. *)
Definition buildDiscoveryPrompt (profile university : list (string * value))
  : M World string :=
  if joins (Js.or (Js.get_own profile "preferred_countries") (VArr []))
  then ret (discovery_systemPrompt prompts profile university)
  else throw (Error "TypeError: preferredCountries.join is not a function").

(** The cache test
    [cached && !isStale(cached.analyzed_at) && isValidAnalysis(cached.analysis)
     && !shouldIgnoreCache]; the clock is read only for a row that was
    found. *)
Definition cache_usable (cached : option analysis_row) (shouldIgnoreCache : bool)
  : M World bool :=
  match cached with
  | None => ret false
  | Some c =>
      now <- ask (Date_now env) ;;
      ret (negb (isStale now (analyzed_at c))
           && isValidAnalysis (analysis c)
           && negb shouldIgnoreCache)
  end.

(** [if (!isValidAnalysis(analysis)) analysis = { ...getDefaultAnalysis(), ...analysis }] *)
Definition complete_with_defaults (analysis : value) : value :=
  if isValidAnalysis analysis then analysis
  else VObj (Js.spread (own_props getDefaultAnalysis) (own_props analysis)).

(** The [catch] of the parsing step logs a preview of the response,
    [response.text.substring(0, 300)] when [response.text] is truthy: a
    TypeError, thrown out of the [catch], unless that text is a string. *)
Definition preview_throws (response : list (string * value)) : bool :=
  match Js.get_own response "text" with
  | VStr _ => false
  | text => Js.truthy text
  end.

(** Steps 6 and 7 on the response of the router: parse; on failure log
    and return the default analysis; otherwise complete with defaults,
    store, return. *)
Definition finish_analysis (userId universityId : string)
    (response : list (string * value)) : M World value :=
  match parse_response (VObj response) with
  | None =>
      if preview_throws response
      then throw (Error "TypeError: response.text.substring is not a function")
      else ret getDefaultAnalysis
  | Some parsed =>
      let analysis := complete_with_defaults parsed in
      cacheAnalysis userId universityId analysis ;;;
      ret analysis
  end.

(** Steps 3 to 7 of [analyzeUniversityForDiscovery]: fetch the
    university, ask the model, parse, complete with defaults, store. *)
Definition analyze_fresh (userId universityId : string) (profile : list (string * value))
  : M World value :=
  university <- fetch_university universityId ;;
  match university with
  | None => throw (Error "University not found")
  | Some university =>
      systemPrompt <- buildDiscoveryPrompt profile university ;;
      let messages :=
        [ {| role := "user"; content := discovery_userPrompt prompts university |} ] in
      response <- getLLMResponse env messages systemPrompt (Some (OptString "GROQ")) ;;
      finish_analysis userId universityId response
  end.

(** The body of the outer [try]: steps 1 and 2, then either the cached
    analysis, the defaults for a user without profile, or steps 3 to 7. *)
Definition analyze_body (userId universityId : string) : M World value :=
  profile <- fetch_profile userId ;;
  log_profile profile ;;;
  cached <- getCachedAnalysis userId universityId ;;
  isGeneric <- match isGenericCache cached with
               | Some v => ret v
               | None => throw (Error "TypeError: includes is not a function")
               end ;;
  let shouldIgnoreCache :=
    match profile with
    | Some _ => Js.truthy isGeneric
    | None => false
    end in
  usable <- cache_usable cached shouldIgnoreCache ;;
  match cached, usable with
  | Some c, true => ret (analysis c)
  | _, _ =>
      match profile with
      | None => ret getDefaultAnalysis
      | Some profile => analyze_fresh userId universityId profile
      end
  end.

(** [analyzeUniversityForDiscovery(userId, universityId)] *)
Definition analyzeUniversityForDiscovery (userId universityId : string) : M World value :=
  try_catch (analyze_body userId universityId)
    (fun error => _ <- message_of error ;; ret getDefaultAnalysis).

(** ** batchAnalyzeUniversities *)

(** [createDefaultAnalyses(universityIds)]: the own properties of the
    object it returns. *)
Definition createDefaultAnalyses (universityIds : list string) : list (string * value) :=
  fold_left (fun defaultMap id => Js.assign id getDefaultAnalysis defaultMap)
            universityIds [].

(** [analysisArray.find(a => a.index === n)]; reading [index] off a
    null or undefined element throws ([None]). *)
Fixpoint find_index (n : float) (analysisArray : list value) : option (option value) :=
  match analysisArray with
  | [] => Some None
  | a :: rest =>
      match Js.get a "index" with
      | None => None
      | Some i => if Js.strict_eq i (VNum n) then Some (Some a) else find_index n rest
      end
  end.

(** Step 7: the loop [universities.forEach((uni, idx) => ...)], from
    position [idx] on; [uni.id] is the key of the row. *)
Fixpoint map_analyses (universities : list (string * list (string * value)))
    (idx : nat) (analysisArray : list value) (analysisMap : list (string * value))
  : option (list (string * value)) :=
  match universities with
  | [] => Some analysisMap
  | (uni_id, _) :: rest =>
      match find_index (JsNum.of_nat (idx + 1)) analysisArray with
      | None => None
      | Some (Some aiAnalysis) =>
          map_analyses rest (S idx) analysisArray
            (Js.assign uni_id (VObj (Js.remove "index" (own_props aiAnalysis))) analysisMap)
      | Some None =>
          map_analyses rest (S idx) analysisArray
            (Js.assign uni_id getDefaultAnalysis analysisMap)
      end
  end.

(** Step 8: one [cacheAnalysis] per entry of [Object.entries(analysisMap)]. *)
Fixpoint cache_all (userId : string) (entries : list (string * value)) : M World unit :=
  match entries with
  | [] => ret tt
  | (uniId, a) :: rest =>
      cacheAnalysis userId uniId a ;;; cache_all userId rest
  end.

(** Step 6: the array found in the response; [inl] is the early
    [return createDefaultAnalyses(...)], a throw goes to the outer catch.
    A truthy text that is not a string has no [replace]; the [catch] of the
    step then logs [response.text.substring(0, 500)], which throws again. *)
Definition analysisArray_of (response : list (string * value))
  : M World (unit + value) :=
  let text := Js.get_own response "text" in
  if Js.truthy text then
    match text with
    | VStr s =>
        match match_bracketed "[" "]" (strip_fences s) with
        | Some arrayMatch =>
            match JSON.parse arrayMatch with
            | Some v => ret (inr v)
            | None => ret (inl tt)
            end
        | None => ret (inl tt)
        end
    | _ => throw (Error "TypeError: response.text.substring is not a function")
    end
  else ret (inr (VObj response)).

Definition fetch_universities (universityIds : list string)
  : M World (list (string * list (string * value))) :=
  fun st =>
    (Returned (filter (fun r => existsb (String.eqb (fst r)) universityIds)
                      (universities st)), st).

(** Step 4: the system prompt, which interpolates
    [(profile.preferred_countries || []).join(', ')]; [join] exists on
    arrays only. *)
Definition buildBatchPrompt (profile : list (string * value))
    (universities : list (list (string * value))) : M World string :=
  if joins (Js.or (Js.get_own profile "preferred_countries") (VArr []))
  then ret (batch_analysis_systemPrompt prompts profile universities)
  else throw (Error "TypeError: preferred_countries.join is not a function").

(** [batchAnalyzeUniversities(userId, universityIds)] *)
Definition batchAnalyzeUniversities (userId : string) (universityIds : list string)
  : M World (list (string * value)) :=
  try_catch
    (profile <- fetch_profile userId ;;
     match profile with
     | None => ret (createDefaultAnalyses universityIds)
     | Some profile =>
         unis <- fetch_universities universityIds ;;
         match unis with
         | [] => ret []
         | _ :: _ =>
             systemPrompt <- buildBatchPrompt profile (map snd unis) ;;
             let prompt := batch_analysis_userPrompt prompts (List.length unis) in
             response <- getLLMResponse env [ {| role := "user"; content := prompt |} ]
                           systemPrompt (Some (OptString "GROQ")) ;;
             parsed <- analysisArray_of response ;;
             match parsed with
             | inl _ => ret (createDefaultAnalyses universityIds)
             | inr (VArr analysisArray) =>
                 match map_analyses unis 0 analysisArray [] with
                 | None => throw (Error "TypeError: Cannot read properties of null (reading 'index')")
                 | Some analysisMap =>
                     cache_all userId analysisMap ;;;
                     ret analysisMap
                 end
             | inr _ => throw (Error "TypeError: analysisArray.find is not a function")
             end
         end
     end)
    (fun error => _ <- message_of error ;; ret (createDefaultAnalyses universityIds)).

End Env.
End DiscoveryAnalysis.

(* ================================================================== *)
(** * universityEnrichment and the batch step of searchUniversities    *)
(* ================================================================== *)

Module UniversityEnrichment.
Import JsStr AiService.
Local Open Scope js_scope.

(** [value.replace(/[~,\s]/g, '')] *)
Fixpoint strip_noise (s : string) : string :=
  match s with
  | String c1 s1 =>
      if Ascii.eqb c1 "~" || Ascii.eqb c1 "," || ws1 c1 then strip_noise s1
      else match s1 with
           | String c2 s2 =>
               if ws2 c1 c2 then strip_noise s2
               else match s2 with
                    | String c3 s3 =>
                        if ws3 c1 c2 c3 then strip_noise s3
                        else String c1 (strip_noise s1)
                    | EmptyString => String c1 (strip_noise s1)
                    end
           | EmptyString => String c1 (strip_noise s1)
           end
  | EmptyString => EmptyString
  end.

(** One entry of the map built from the model's array. *)
Record estimate : Type := {
  tuition_estimate : value;
  acceptance_rate : value;
  ranking : value
}.

(** The object [enrichmentMap]: its keys are written as numbers
    ([item.index - 1]) and read as array positions; two numbers name the
    same property exactly when they are equal. *)
Definition enrichmentMap : Type := list (float * estimate).

Fixpoint map_set (k : float) (e : estimate) (m : enrichmentMap) : enrichmentMap :=
  match m with
  | [] => [(k, e)]
  | (k', e') :: rest =>
      if PrimFloat.eqb k k' then (k, e) :: rest else (k', e') :: map_set k e rest
  end.

Fixpoint map_get (arrayIndex : nat) (m : enrichmentMap) : option estimate :=
  match m with
  | [] => None
  | (k, e) :: rest =>
      if PrimFloat.eqb k (JsNum.of_nat arrayIndex) then Some e else map_get arrayIndex rest
  end.

(** [defaults[country] || 15000] in getDefaultTuitionByCountry. *)
Definition tuition_defaults : list (string * value) :=
  [ ("United Kingdom", VNum 25000); ("Canada", VNum 20000); ("Australia", VNum 28000);
    ("Germany", VNum 1500); ("France", VNum 3000); ("Netherlands", VNum 12000);
    ("Singapore", VNum 15000); ("Ireland", VNum 18000); ("New Zealand", VNum 22000);
    ("Switzerland", VNum 1500); ("Sweden", VNum 0); ("Norway", VNum 0);
    ("Denmark", VNum 0); ("Finland", VNum 0); ("Spain", VNum 4000);
    ("Italy", VNum 4000); ("India", VNum 5000); ("China", VNum 8000);
    ("Japan", VNum 12000); ("South Korea", VNum 10000); ("Brazil", VNum 3000);
    ("Mexico", VNum 4000) ].

Definition getDefaultTuitionByCountry (country : string) : value :=
  Js.or (Js.get_own tuition_defaults country) (VNum 15000).

(** An entity waiting for enrichment: its position in [toUpsert], its
    name and its country. *)
Record pending : Type := { index : nat; name : string; country : string }.

(** [a[i]] and [a[i] = v] on an array; writing past the end leaves empty
    slots, which read as undefined. *)
Definition array_get (i : nat) (a : list value) : value := nth i a VUndefined.

Fixpoint array_set (i : nat) (v : value) (a : list value) : list value :=
  match i, a with
  | O, [] => [v]
  | O, _ :: rest => v :: rest
  | S i', [] => VUndefined :: array_set i' v []
  | S i', x :: rest => x :: array_set i' v rest
  end.

(** The record written for an entity without usable model data. *)
Definition default_record (country : string) (old : value) : value :=
  VObj (Js.spread (own_props old)
          [ ("tuition_estimate", getDefaultTuitionByCountry country);
            ("acceptance_rate", VNum 50);
            ("data_source", VStr "OTHER") ]).

Definition enriched_record (country : string) (e : estimate) (old : value) : value :=
  VObj (Js.spread (own_props old)
          [ ("tuition_estimate", Js.or (tuition_estimate e) (getDefaultTuitionByCountry country));
            ("acceptance_rate", Js.or (acceptance_rate e) (VNum 50));
            ("rank", Js.or (ranking e) VNull);
            ("data_source", VStr "OTHER") ]).

Definition set_default (u : pending) (toUpsert : list value) : list value :=
  array_set (index u) (default_record (country u) (array_get (index u) toUpsert)) toUpsert.

(** The loop [universitiesToEnrich.forEach(({index, country}, arrayIndex) => ...)],
    from position [arrayIndex] on. *)
Fixpoint apply_enrichment (m : enrichmentMap) (us : list pending) (arrayIndex : nat)
    (toUpsert : list value) : list value :=
  match us with
  | [] => toUpsert
  | u :: rest =>
      let old := array_get (index u) toUpsert in
      let record :=
        match map_get arrayIndex m with
        | Some e =>
            if Js.truthy (Js.or (tuition_estimate e) (acceptance_rate e))
            then enriched_record (country u) e old
            else default_record (country u) old
        | None => default_record (country u) old
        end in
      apply_enrichment m rest (S arrayIndex) (array_set (index u) record toUpsert)
  end.

Definition cap : nat := 50.

Section Env.
Context {World : Type}.
Variable env : environment World.
Variable prompts : templates.
(** The built-in [parseFloat]. *)
Variable parseFloat : string -> float.

(** [parseNumberOrNull(value)] *)
Definition parseNumberOrNull (v : value) : value :=
  match v with
  | VNull | VUndefined => VNull
  | VNum n => VNum n
  | VStr s =>
      let cleaned := strip_noise s in
      let parsed := parseFloat cleaned in
      if PrimFloat.is_nan parsed then VNull else VNum parsed
  | _ => VNull
  end.

(** The loop [enrichmentData.forEach(item => ...)]; reading [index]
    off a null element throws ([None]). *)
Fixpoint to_map (enrichmentData : list value) (m : enrichmentMap) : option enrichmentMap :=
  match enrichmentData with
  | [] => Some m
  | item :: rest =>
      match Js.get item "index" with
      | None => None
      | Some (VNum i) =>
          if JsNum.truthy i
          then to_map rest
                 (map_set (i - 1)%float
                    {| tuition_estimate := parseNumberOrNull (Js.get_opt item "tuition_estimate");
                       acceptance_rate := parseNumberOrNull (Js.get_opt item "acceptance_rate");
                       ranking := parseNumberOrNull (Js.get_opt item "ranking") |}
                    m)
          else to_map rest m
      | Some _ => to_map rest m
      end
  end.

(** [batchEnrichUniversitiesWithSingleCall(universities)] *)
Definition batchEnrichUniversitiesWithSingleCall (universities : list (string * string))
  : M World enrichmentMap :=
  try_catch
    (match universities with
     | [] => ret []
     | _ :: _ =>
         let prompt := batch_enrichment_prompt prompts universities in
         response <- getLLMResponse env [ {| role := "user"; content := prompt |} ]
                       "You are a university database expert. Return only valid JSON array."
                       None ;;
         let text := Js.get_own response "text" in
         let enrichmentData :=
           if Js.truthy text then
             match text with
             | VStr s =>
                 match match_bracketed "[" "]" (strip_fences s) with
                 | Some arrayMatch => JSON.parse arrayMatch
                 | None => None
                 end
             | _ => None
             end
           else Some (VObj response) in
         match enrichmentData with
         | None => ret []                        (* the early [return {}] *)
         | Some (VArr items) =>
             match to_map items [] with
             | Some m => ret m
             | None => throw (Error "TypeError: Cannot read properties of null (reading 'index')")
             end
         | Some _ => ret []
         end
     end)
    (fun error => _ <- message_of error ;; ret []).

(** The non-US branch of searchUniversities: one model call for the
    first [cap] entities, defaults for the others. *)
Definition enrich_nonUS (nonUSUniversities : list pending) (toUpsert : list value)
  : M World (list value) :=
  match nonUSUniversities with
  | [] => ret toUpsert
  | _ :: _ =>
      let universitiesToEnrich := firstn cap nonUSUniversities in
      toUpsert' <-
        try_catch
          (m <- batchEnrichUniversitiesWithSingleCall
                  (map (fun u => (name u, country u)) universitiesToEnrich) ;;
           ret (apply_enrichment m universitiesToEnrich 0 toUpsert))
          (fun error =>
             _ <- message_of error ;;
             ret (fold_left (fun a u => set_default u a) universitiesToEnrich toUpsert)) ;;
      ret (fold_left (fun a u => set_default u a) (skipn cap nonUSUniversities) toUpsert')
  end.

End Env.
End UniversityEnrichment.

(* ================================================================== *)
(** * Vocabulary of the statements                                     *)
(* ================================================================== *)

Module Spec.
Import EnrichmentCache.

Section ScoreVocabulary.
Import ConfidenceScorer.
Local Open Scope float_scope.

(** The arithmetic of the score, on the number of present fields and the
    numeric source operand. *)
Definition score_kernel (present : nat) (sourceOperand : float) (isVerified : bool) : float :=
  let completeness := JsNum.of_nat present / JsNum.of_nat 7 in
  let confidence :=
    (completeness * 0.4) + (sourceOperand * 0.3)
    + ((if isVerified then 1.0 else 0.0) * 0.2) + (1.0 * 0.1) in
  JsNum.Math_min 1.0 (JsNum.Math_max 0.0 (JsNum.Math_round (confidence * 100) / 100)).

Definition source_operand (source : string) : float :=
  operand (Js.or (Js.get_own sourceScores source) (VNum 0.5)).

(** The integer a float stands for, when it is one. *)
Definition float_to_Z (x : float) : Z :=
  match Prim2SF x with
  | S754_finite s m e =>
      let n := if (0 <=? e)%Z then (Z.pos m * 2 ^ e)%Z else (Z.pos m / 2 ^ (- e))%Z in
      if s then (- n)%Z else n
  | _ => 0%Z
  end.

Definition two_decimals (x : float) : Prop :=
  exists n : Z, (0 <= n <= 100)%Z /\ x = JsNum.of_Z n / 100.

Definition in_unit_interval (x : float) : Prop :=
  (0 <=? x) = true /\ (x <=? 1) = true.

End ScoreVocabulary.

(** A sample cache row. *)
Definition sample_row : row :=
  {| id := 1%Z; university_name := "MIT"; country := "USA";
     enriched_data := [("rank", VNum 2)]; confidence_score := 0.41%float;
     source := "MANUAL"; created_at := 0%Z; last_accessed_at := 0%Z;
     access_count := 1%Z; is_verified := false;
     verified_by_user_id := None; verified_at := None |}.

(** Case folding as the specification speaks of it for cache keys (the
    code has no such step): ASCII capitals become small letters. *)
Definition fold_case_char (c : ascii) : ascii :=
  let n := N_of_ascii c in
  if ((65 <=? n) && (n <=? 90))%N then ascii_of_N (n + 32) else c.

Fixpoint fold_case (s : string) : string :=
  match s with
  | EmptyString => EmptyString
  | String c s' => String (fold_case_char c) (fold_case s')
  end.

(** Two spellings that differ only in letter case or in leading and
    trailing white space. *)
Definition same_modulo_case_and_space (a b : string) : Prop :=
  fold_case (JsStr.trim a) = fold_case (JsStr.trim b).

(** The TTL of a record as [setCachedEnrichment] writes it (never
    verified). *)
Definition stored_ttl (source : string) : Z :=
  if String.eqb source "MANUAL" then CACHE_TTL.MANUAL else CACHE_TTL.AI_ENRICHED.

(** The reading of "lookup and store fold the case of the key": any
    lookup within the TTL whose name and country match the stored ones up
    to case and surrounding white space is a hit. *)
Definition lookup_folds_case : Prop :=
  forall (upd : Z -> Z -> table -> table) (created accessed new_id now : Z)
         (name country name' country' : string)
         (data : list (string * value)) (source : string) (t : table),
    unique_keys t ->
    same_modulo_case_and_space name' name ->
    same_modulo_case_and_space country' country ->
    (now - created <= stored_ttl source)%Z ->
    fst (getCachedEnrichment upd now name' country'
           (snd (setCachedEnrichment created accessed new_id name country data source t)))
    <> None.

(** The providers entered during a run, in order. *)
Definition providers_tried (evs : list event) : list provider :=
  flat_map (fun e => match e with TryProvider p => [p] | _ => [] end) evs.

Definition other (p : provider) : provider :=
  match p with GEMINI => GROQ | GROQ => GEMINI end.

(** The provider [getLLMResponse] starts with. *)
Definition preferred (options : option AiService.llm_options) : provider :=
  let o := match options with Some o => o | None => AiService.default_options end in
  if String.eqb (AiService.provider_of o) "GEMINI" then GEMINI else GROQ.

(** One attempt of a provider, as [getLLMResponse] makes it. *)
Definition try_provider {World : Type} (env : environment World) (p : provider)
    (messages : list message) (systemPrompt : string)
    (options : option AiService.llm_options) : M World (list (string * value)) :=
  let o := match options with Some o => o | None => AiService.default_options end in
  match p with
  | GEMINI => AiService.tryGemini env messages systemPrompt (AiService.preferredModel_of o)
  | GROQ => AiService.tryGroq env messages systemPrompt
  end.

(** The tables of [st'] are those of [st]. *)
Definition same_store {World : Type} (st st' : state World) : Prop :=
  enrichment_cache st' = enrichment_cache st
  /\ profiles st' = profiles st
  /\ universities st' = universities st
  /\ user_university_analyses st' = user_university_analyses st.

(** [st'] extends the trace of [st] without entering a provider, and
    leaves the tables alone. *)
Definition quiet {World : Type} (st st' : state World) : Prop :=
  same_store st st'
  /\ exists evs, trace st' = (trace st ++ evs)%list /\ providers_tried evs = [].

(** A run that enters no provider and throws nothing but Error objects. *)
Definition clean {World A : Type} (st : state World) (run : outcome A * state World) : Prop :=
  quiet st (snd run) /\ forall e, fst run = Thrown e -> exists m, e = Error m.

Definition is_error (o : option exn) : Prop := exists m, o = Some (Error m).


(** Sample data for the examples: an environment whose endpoints always
    fail, over a world without state, and an empty store. *)
Definition endpoints_down : environment unit :=
  {| Date_now := fun w => (1000%Z, w);
     uuid_generate_v4 := fun w => (1%Z, w);
     Math_random_draws := fun _ w => ([1; 0]%nat, w);
     gemini_generateContent := fun _ _ _ w => (Failure "503 Service Unavailable", w);
     groq_chat_completions := fun _ _ _ w => (Failure "timeout of 30000ms exceeded", w);
     GEMINI_API_KEYS := ["gemini-key-1"; "gemini-key-2"];
     GROQ_API_KEYS := ["groq-key-1"];
     updateCacheAccess := fun _ _ t => t |}.

Definition empty_state : state unit :=
  {| world := tt; enrichment_cache := []; profiles := []; universities := [];
     user_university_analyses := []; trace := [] |}.


(** Sample prompt texts for the examples. *)
Definition sample_prompts : templates :=
  {| enrichment_systemPrompt := fun name country => "Provide data for " ++ name ++ " in " ++ country;
     discovery_systemPrompt := fun _ _ => "Provide a quick analysis.";
     discovery_userPrompt := fun _ => "Analyze for discovery browsing";
     batch_analysis_systemPrompt := fun _ _ => "Analyze all universities.";
     batch_analysis_userPrompt := fun _ => "Analyze all universities for this profile.";
     batch_enrichment_prompt := fun _ => "Provide tuition and acceptance rate estimates." |}.

(** A cache row whose payload has an [error] field holding [false]. *)
Definition row_with_false_error : EnrichmentCache.row :=
  {| id := 7%Z; university_name := "Example Institute"; country := "Testland";
     enriched_data := [("name", VStr "Example Institute"); ("error", VBool false)];
     confidence_score := 0.37%float; source := "GEMINI";
     created_at := 900%Z; last_accessed_at := 900%Z; access_count := 1%Z;
     is_verified := false; verified_by_user_id := None; verified_at := None |}.

Definition state_with_false_error : state unit :=
  {| world := tt; enrichment_cache := [row_with_false_error]; profiles := [];
     universities := []; user_university_analyses := []; trace := [] |}.

(** The reading of "a value served from the cache has no error field in
    its payload". *)
Definition cached_values_have_no_error_field : Prop :=
  forall (World : Type) (env : environment World) (prompts : templates)
         (name country : string) (st st' : state World) (r : EnrichmentCache.enrichment),
    AiService.enrichUniversity env prompts name country st = (Returned r, st') ->
    cached (_cache_meta r) = true ->
    Js.has_own "error" (fields r) = false.


(** The text of the parsing example: a fenced JSON object with a trailing
    comma, [```json\n{"a":1,}\n```]. *)
Definition dq : string := String JSON.dquote EmptyString.

Definition fenced_trailing_comma : string :=
  "```json" ++ JsStr.newline ++ "{" ++ dq ++ "a" ++ dq ++ ":1,}" ++ JsStr.newline ++ "```".


(** Sample data: a placeholder analysis stored for a user, with and
    without a profile for that user. *)
Definition placeholder_row : analysis_row :=
  {| user_id := "user-1"; university_id := "uni-1";
     analysis := DiscoveryAnalysis.getDefaultAnalysis; analyzed_at := 900%Z |}.

Definition state_with_placeholder (with_profile : bool) : state unit :=
  {| world := tt; enrichment_cache := [];
     profiles := if with_profile then [("user-1", [("budget_max", VNum 30000)])] else [];
     universities :=
       [("uni-1", [("name", VStr "Example Institute"); ("country", VStr "Testland")])];
     user_university_analyses := [placeholder_row];
     trace := [] |}.





(** The record the batch step of searchUniversities plans for the entity
    at position [i] of the non-US list, given the map [m] obtained from the
    model and the record [old] the entity had before: model data when the
    position is below the cap and the map has a usable entry for it, the
    country-based default otherwise. *)
Definition planned_record (m : UniversityEnrichment.enrichmentMap) (i : nat)
    (u : UniversityEnrichment.pending) (old : value) : value :=
  if (i <? UniversityEnrichment.cap)%nat then
    match UniversityEnrichment.map_get i m with
    | Some e =>
        if Js.truthy (Js.or (UniversityEnrichment.tuition_estimate e)
                            (UniversityEnrichment.acceptance_rate e))
        then UniversityEnrichment.enriched_record (UniversityEnrichment.country u) e old
        else UniversityEnrichment.default_record (UniversityEnrichment.country u) old
    | None => UniversityEnrichment.default_record (UniversityEnrichment.country u) old
    end
  else UniversityEnrichment.default_record (UniversityEnrichment.country u) old.

(** A sequence of slot updates [a[j] = f(a[j])]. *)
Definition run_writes (ws : list (nat * (value -> value))) (a : list value) : list value :=
  fold_left
    (fun a w => UniversityEnrichment.array_set (fst w)
                  (snd w (UniversityEnrichment.array_get (fst w) a)) a)
    ws a.

Fixpoint plan (m : UniversityEnrichment.enrichmentMap) (i : nat)
    (us : list UniversityEnrichment.pending) : list (nat * (value -> value)) :=
  match us with
  | [] => []
  | u :: rest => (UniversityEnrichment.index u, planned_record m i u) :: plan m (S i) rest
  end.







(** What the batch analysis is given in a run from [st]: the universities
    fetched for the requested ids, and the request that goes to the router. *)
Definition fetched_universities {World : Type} (universityIds : list string)
    (st : state World) : list (string * list (string * value)) :=
  filter (fun r => existsb (String.eqb (fst r)) universityIds) (universities st).

Definition batch_analysis_request {World : Type} (env : environment World)
    (prompts : templates) (profile : list (string * value))
    (unis : list (string * list (string * value)))
  : M World (list (string * value)) :=
  AiService.getLLMResponse env
    [ {| role := "user"; content := batch_analysis_userPrompt prompts (List.length unis) |} ]
    (batch_analysis_systemPrompt prompts profile (map snd unis))
    (Some (AiService.OptString "GROQ")).



(** Sample data: Groq answers every request with the given text; one
    user with a profile, one university, nothing stored yet. *)
Definition groq_answers (text : string) : environment unit :=
  {| Date_now := fun w => (1000%Z, w);
     uuid_generate_v4 := fun w => (1%Z, w);
     Math_random_draws := fun _ w => ([]%list, w);
     gemini_generateContent := fun _ _ _ w => (Failure "503 Service Unavailable", w);
     groq_chat_completions := fun _ _ _ w => (Answer text, w);
     GEMINI_API_KEYS := ["gemini-key-1"];
     GROQ_API_KEYS := ["groq-key-1"];
     updateCacheAccess := fun _ _ t => t |}.

Definition one_university_state : state unit :=
  {| world := tt; enrichment_cache := [];
     profiles := [("user-1", [("budget_max", VNum 30000)])];
     universities :=
       [("uni-1", [("name", VStr "Example Institute"); ("country", VStr "Testland")])];
     user_university_analyses := [];
     trace := [] |}.




Definition one_pending : UniversityEnrichment.pending :=
  {| UniversityEnrichment.index := 0;
     UniversityEnrichment.name := "Technical University of Munich";
     UniversityEnrichment.country := "Germany" |}.

Definition one_record : list value :=
  [ VObj [("name", VStr "Technical University of Munich"); ("country", VStr "Germany")] ].


End Spec.

(* ================================================================== *)
(** * Further vocabulary                                               *)
(* ================================================================== *)

Module Notions.
Import EnrichmentCache Spec.

(** The numeric operands the source table can contribute: its five
    entries and the fallback. *)
Definition source_operands : list float :=
  [1.0; 0.85; 0.75; 0.65; 0.70; 0.5]%float.

(** The score of every combination of a field count, a source operand
    and a verification flag. *)
Definition score_table (counts : list nat) (operands : list float)
  : list (nat * float * bool * float) :=
  flat_map (fun p => flat_map (fun s =>
    map (fun v => (p, s, v, score_kernel p s v)) [false; true]) operands) counts.

(** The score does not decrease from (p1, s1, v1) to (p2, s2, v2) whenever
    the number of present fields, the source operand and the verification
    flag do not: checked on the given field counts and operands. *)
Definition score_monotone_on (counts : list nat) (operands : list float) : bool :=
  let table := score_table counts operands in
  forallb (fun a => forallb (fun b =>
    match a, b with
    | (p1, s1, v1, r1), (p2, s2, v2, r2) =>
        implb ((p1 <=? p2)%nat && (s1 <=? s2)%float && implb v1 v2) (r1 <=? r2)%float
    end) table) table.

(** The bounds of the score by verification flag, checked likewise. *)
Definition score_bounds_on (counts : list nat) (operands : list float) : bool :=
  forallb (fun p => forallb (fun s =>
    (0.25 <=? score_kernel p s false)%float && (score_kernel p s false <=? 0.8)%float
    && (0.45 <=? score_kernel p s true)%float && (score_kernel p s true <=? 1)%float)
  operands) counts.

(** The requests of the provider clients.  [callGemini] sends the system
    prompt followed by the user messages; the model it falls back to is the
    other one of the two it knows. *)
Definition gemini_fullPrompt (systemPrompt : string) (messages : list message) : string :=
  systemPrompt ++ JsStr.newline ++ JsStr.newline ++ "User: "
  ++ String.concat JsStr.newline (map content messages).

Definition gemini_requests (modelName fullPrompt : string) (keys : list string) : list event :=
  map (fun apiKey => GeminiRequest modelName apiKey fullPrompt) keys.

Definition groq_requests (systemPrompt : string) (messages : list message)
    (keys : list string) : list event :=
  map (fun apiKey => GroqRequest apiKey systemPrompt messages) keys.

Definition preferredModel_or_default (preferredModel : option string) : string :=
  match preferredModel with Some m => m | None => "gemini-2.5-flash" end.

Definition fallbackModel (preferredModel : string) : string :=
  if String.eqb preferredModel "gemini-2.5-flash"
  then "gemini-2.5-flash-lite" else "gemini-2.5-flash".

(** The tag a provider client writes into its answers. *)
Definition aiSource_of (p : provider) : string :=
  match p with GEMINI => "GEMINI" | GROQ => "LLAMA" end.

(** Sample data: an environment in which no API key is configured. *)
Definition no_keys : environment unit :=
  {| Date_now := fun w => (1000%Z, w);
     uuid_generate_v4 := fun w => (1%Z, w);
     Math_random_draws := fun _ w => ([]%list, w);
     gemini_generateContent := fun _ _ _ w => (Answer "{}", w);
     groq_chat_completions := fun _ _ _ w => (Answer "{}", w);
     GEMINI_API_KEYS := [];
     GROQ_API_KEYS := [];
     updateCacheAccess := fun _ _ t => t |}.

(** A stored analysis that [analyzeUniversityForDiscovery] serves, at
    clock reading [now], to a user without a profile: the placeholder test
    on its first fit reason does not throw (the reason is absent, a string
    or an array), it is not older than 7 days, and it is complete. *)
Definition servable (now : Z) (c : analysis_row) : bool :=
  match DiscoveryAnalysis.includes_opt
          (DiscoveryAnalysis.first_reason (analysis c)) DiscoveryAnalysis.sentinel with
  | Some _ =>
      negb (DiscoveryAnalysis.isStale now (analyzed_at c))
      && DiscoveryAnalysis.isValidAnalysis (analysis c)
  | None => false
  end.

Definition answer_without_profile (now : Z) (cached : option analysis_row) : value :=
  match cached with
  | Some c => if servable now c then analysis c else DiscoveryAnalysis.getDefaultAnalysis
  | None => DiscoveryAnalysis.getDefaultAnalysis
  end.

End Notions.

(* ================================================================== *)
(** * The requests of the services, and more sample data               *)
(* ================================================================== *)

Module Requests.
Import AiService.

(** The call [enrichUniversity] makes to the router. *)
Definition enrichment_request {World : Type} (env : environment World)
    (prompts : templates) (name country : string) : M World (list (string * value)) :=
  getLLMResponse env
    [ {| role := "user"; content := "Enrich data for " ++ name ++ " in " ++ country |} ]
    (enrichment_systemPrompt prompts name country)
    (Some (OptObject (Some "GEMINI") (Some "gemini-2.5-flash-lite"))).

(** The call [analyzeUniversityForDiscovery] makes to the router. *)
Definition discovery_request {World : Type} (env : environment World)
    (prompts : templates) (profile university : list (string * value))
  : M World (list (string * value)) :=
  getLLMResponse env
    [ {| role := "user"; content := discovery_userPrompt prompts university |} ]
    (discovery_systemPrompt prompts profile university)
    (Some (OptString "GROQ")).

(** The source tags [enrichUniversity] can pass to the cache. *)
Definition router_sources : list string := ["GEMINI"; "LLAMA"; "AI"].

(** A model answer holding a complete analysis, and the analysis the
    discovery service makes of it: the parsed object with the text and the
    tag the Groq client adds. *)
Definition quoted (s : string) : string := Spec.dq ++ s ++ Spec.dq.

Definition complete_analysis_text : string :=
  "{" ++ quoted "profile_fit" ++ ":{" ++ quoted "reasons" ++ ":[" ++ quoted "Strong GPA" ++ "],"
      ++ quoted "score" ++ ":80},"
      ++ quoted "budget_analysis" ++ ":{" ++ quoted "within_budget" ++ ":true},"
      ++ quoted "country_preference" ++ ":{" ++ quoted "matches" ++ ":false},"
      ++ quoted "acceptance_score" ++ ":{" ++ quoted "percentage" ++ ":60},"
      ++ quoted "risk_level" ++ ":" ++ quoted "low" ++ "}".

Definition complete_analysis_served : value :=
  VObj [ ("profile_fit", VObj [("reasons", VArr [VStr "Strong GPA"]); ("score", VNum 80)]);
         ("budget_analysis", VObj [("within_budget", VBool true)]);
         ("country_preference", VObj [("matches", VBool false)]);
         ("acceptance_score", VObj [("percentage", VNum 60)]);
         ("risk_level", VStr "low");
         ("text", VStr "I heard you.");
         ("_aiSource", VStr "LLAMA") ].

(** A model answer in prose. *)
Definition prose_answer : string := "I cannot assess this university right now.".

(** A user whose profile holds a text where the list of preferred
    countries should be, with a complete analysis stored five seconds before
    the clock reading of the examples. *)
Definition state_with_text_countries : state unit :=
  {| world := tt; enrichment_cache := [];
     profiles := [("user-1", [("preferred_countries", VStr "Germany")])];
     universities :=
       [("uni-1", [("name", VStr "Example Institute"); ("country", VStr "Testland")])];
     user_university_analyses :=
       [ {| user_id := "user-1"; university_id := "uni-1";
            analysis := complete_analysis_served; analyzed_at := (-4000)%Z |} ];
     trace := [] |}.

End Requests.

Module Reconciliation.
Import UniversityEnrichment.

(** An element of the model's array names position [i] of the request:
    its [index] is a truthy number and [index - 1] is [i]. *)
Definition addresses (i : nat) (item : value) : bool :=
  match Js.get item "index" with
  | Some (VNum x) => JsNum.truthy x && PrimFloat.eqb (x - 1)%float (JsNum.of_nat i)
  | _ => false
  end.

(** The entry [batchEnrichUniversitiesWithSingleCall] builds from an
    element of the array. *)
Definition estimate_of (parseFloat : string -> float) (item : value) : estimate :=
  {| tuition_estimate := parseNumberOrNull parseFloat (Js.get_opt item "tuition_estimate");
     acceptance_rate := parseNumberOrNull parseFloat (Js.get_opt item "acceptance_rate");
     ranking := parseNumberOrNull parseFloat (Js.get_opt item "ranking") |}.

(** The last element of the array that names position [i]. *)
Definition last_addressing (i : nat) (items : list value) : option value :=
  find (addresses i) (rev items).

(** Two binary64 values that compare equal: the same value, the sign of
    a zero apart. *)
Definition sf_equal (f1 f2 : SpecFloat.spec_float) : Prop :=
  match f1, f2 with
  | SpecFloat.S754_zero _, SpecFloat.S754_zero _ => True
  | SpecFloat.S754_infinity s1, SpecFloat.S754_infinity s2 => s1 = s2
  | SpecFloat.S754_finite s1 m1 e1, SpecFloat.S754_finite s2 m2 e2 =>
      s1 = s2 /\ m1 = m2 /\ e1 = e2
  | _, _ => False
  end.

(** A default tuition is a number between 1500 and 28000, and truthy. *)
Definition usable_tuition (v : value) : bool :=
  Js.truthy v
  && match v with
     | VNum n => (1500 <=? n)%float && (n <=? 28000)%float
     | _ => false
     end.

(** The countries the table of defaults lists with a falsy amount. *)
Definition free_countries : list string :=
  map fst (filter (fun kv => negb (Js.truthy (snd kv))) tuition_defaults).

(** The fields the non-US step of searchUniversities writes. *)
Definition enriched_fields : list string :=
  ["tuition_estimate"; "acceptance_rate"; "rank"; "data_source"].

(** What the non-US step writes for an entity, with or without data of
    the model: a usable tuition, a usable acceptance rate and the data source
    OTHER; the other fields of the record stay as they were. *)
Definition complete_record (old record : value) : Prop :=
  exists props,
    record = VObj props
    /\ Js.get_own props "data_source" = VStr "OTHER"
    /\ Js.truthy (Js.get_own props "tuition_estimate") = true
    /\ Js.truthy (Js.get_own props "acceptance_rate") = true
    /\ (forall k, ~ In k enriched_fields ->
                  Js.get_own props k = Js.get_own (AiService.own_props old) k).

(** Sample data: two elements of a model answer that carry the index 1,
    and one that carries the index 2. *)
Definition indexed_item (index tuition : float) : value :=
  VObj [("index", VNum index); ("tuition_estimate", VNum tuition)].

End Reconciliation.

(* ================================================================== *)
(** * universityService: country names                                 *)
(* ================================================================== *)

Module CountryNames.
Import JsStr.
Local Open Scope char_scope.

(** [toLowerCase] and [toUpperCase] on the letters of ASCII; the two are
    exact on strings made of ASCII characters only, which is what the
    statements about them assume ([is_ascii]). *)
Definition toLowerCase_char (c : ascii) : ascii :=
  let n := byte c in
  if ((65 <=? n) && (n <=? 90))%N then ascii_of_N (n + 32) else c.

Definition toUpperCase_char (c : ascii) : ascii :=
  let n := byte c in
  if ((97 <=? n) && (n <=? 122))%N then ascii_of_N (n - 32) else c.

Fixpoint toLowerCase (s : string) : string :=
  match s with
  | EmptyString => EmptyString
  | String c s' => String (toLowerCase_char c) (toLowerCase s')
  end.

Fixpoint toUpperCase (s : string) : string :=
  match s with
  | EmptyString => EmptyString
  | String c s' => String (toUpperCase_char c) (toUpperCase s')
  end.

Fixpoint is_ascii (s : string) : bool :=
  match s with
  | EmptyString => true
  | String c s' => (byte c <? 128)%N && is_ascii s'
  end.

(** [s.charAt(0)] and [s.slice(1)] *)
Definition charAt0 (s : string) : string :=
  match s with
  | EmptyString => EmptyString
  | String c _ => String c EmptyString
  end.

Definition slice1 (s : string) : string :=
  match s with
  | EmptyString => EmptyString
  | String _ s' => s'
  end.

Local Open Scope string_scope.

Definition COUNTRY_ALIASES : list (string * value) :=
  [ ("united states", VStr "United States"); ("usa", VStr "United States");
    ("us", VStr "United States"); ("america", VStr "United States");
    ("united state", VStr "United States"); ("u.s.a", VStr "United States");
    ("u.s", VStr "United States");
    ("united kingdom", VStr "United Kingdom"); ("uk", VStr "United Kingdom");
    ("britain", VStr "United Kingdom"); ("great britain", VStr "United Kingdom");
    ("england", VStr "United Kingdom"); ("u.k", VStr "United Kingdom");
    ("canada", VStr "Canada"); ("cananda", VStr "Canada"); ("canda", VStr "Canada");
    ("australia", VStr "Australia"); ("aus", VStr "Australia");
    ("austrailia", VStr "Australia");
    ("india", VStr "India"); ("bharat", VStr "India");
    ("germany", VStr "Germany"); ("deutschland", VStr "Germany");
    ("france", VStr "France");
    ("netherlands", VStr "Netherlands"); ("holland", VStr "Netherlands");
    ("singapore", VStr "Singapore"); ("singapur", VStr "Singapore");
    ("ireland", VStr "Ireland"); ("eire", VStr "Ireland");
    ("new zealand", VStr "New Zealand"); ("newzealand", VStr "New Zealand");
    ("nz", VStr "New Zealand") ].

(** The test of the loop over [Object.entries(COUNTRY_ALIASES)]:
    [alias.includes(normalized) || normalized.includes(alias)]. *)
Definition close_match (normalized : string) (entry : string * value) : bool :=
  includes normalized (fst entry) || includes (fst entry) normalized.

(** [normalizeCountryName(country)] for a string [country]. *)
Definition normalizeCountryName (country : string) : value :=
  if String.eqb country "" then VNull
  else
    let normalized := trim (toLowerCase country) in
    if Js.truthy (Js.get_own COUNTRY_ALIASES normalized)
    then Js.get_own COUNTRY_ALIASES normalized
    else
      match find (close_match normalized) COUNTRY_ALIASES with
      | Some (alias, canonical) => canonical
      | None =>
          VStr (toUpperCase (charAt0 country) ++ toLowerCase (slice1 country))
      end.

(** The lower-case, trimmed form the function works on. *)
Definition normalized_form (country : string) : string := trim (toLowerCase country).

(** Every canonical name of the table is a fixed point. *)
Definition canonical_names_fixed : bool :=
  forallb (fun kv =>
             match snd kv with
             | VStr canonical =>
                 match normalizeCountryName canonical with
                 | VStr r => String.eqb r canonical
                 | _ => false
                 end
             | _ => false
             end) COUNTRY_ALIASES.

(** Every entry of the table has a non-empty alias and a non-empty
    canonical name. *)
Definition entries_nonempty : bool :=
  forallb (fun kv =>
             negb (String.eqb (fst kv) "")
             && match snd kv with VStr c => negb (String.eqb c "") | _ => false end)
          COUNTRY_ALIASES.

End CountryNames.

(* ================================================================== *)
(** * aiContext: profile strength and stage                            *)
(* ================================================================== *)

Module AiContext.
Local Open Scope float_scope.

(** What [analyzeProfileStrength] accumulates. *)
Record profileStrength : Type := {
  strengths : list string;
  weaknesses : list string;
  score : float
}.

Definition push_strength (s : string) (r : profileStrength) : profileStrength :=
  {| strengths := strengths r ++ [s]; weaknesses := weaknesses r; score := score r |}.

Definition push_weakness (s : string) (r : profileStrength) : profileStrength :=
  {| strengths := strengths r; weaknesses := weaknesses r ++ [s]; score := score r |}.

(** [score += n] *)
Definition add_score (n : float) (r : profileStrength) : profileStrength :=
  {| strengths := strengths r; weaknesses := weaknesses r; score := score r + n |}.

Section Coercion.
(** The conversion of a value to a number that [>=] applies to its left
    operand when the right one is a number. *)
Variable ToNumber : value -> float.

(** [v >= lit] for a number literal [lit]: false when [v] converts to
    NaN. *)
Definition ge (v : value) (lit : float) : bool := lit <=? ToNumber v.

Definition gpa_block (profile : list (string * value)) (r : profileStrength)
  : profileStrength :=
  let gpa := Js.get_own profile "gpa" in
  if Js.truthy gpa then
    if ge gpa 3.7 then add_score 20 (push_strength "Strong GPA (3.7+)" r)
    else if ge gpa 3.3 then add_score 15 (push_strength "Good GPA (3.3-3.7)" r)
    else if ge gpa 3.0 then add_score 10 r
    else add_score 5 (push_weakness "Low GPA (< 3.0)" r)
  else push_weakness "GPA not provided" r.

Definition gre_block (profile : list (string * value)) (r : profileStrength)
  : profileStrength :=
  let gre_score := Js.get_own profile "gre_score" in
  let target_degree := Js.get_own profile "target_degree" in
  if Js.truthy gre_score then
    if ge gre_score 320 then add_score 20 (push_strength "Excellent GRE (320+)" r)
    else if ge gre_score 310 then add_score 15 (push_strength "Good GRE (310-320)" r)
    else add_score 10 r
  else if Js.strict_eq target_degree (VStr "Masters") || Js.strict_eq target_degree (VStr "PhD")
  then push_weakness "GRE score missing" r
  else r.

Definition english_block (profile : list (string * value)) (r : profileStrength)
  : profileStrength :=
  let ielts_score := Js.get_own profile "ielts_score" in
  let toefl_score := Js.get_own profile "toefl_score" in
  if Js.truthy ielts_score then
    if ge ielts_score 7.5 then add_score 20 (push_strength "Excellent IELTS (7.5+)" r)
    else if ge ielts_score 6.5 then add_score 15 r
    else r
  else if Js.truthy toefl_score then
    if ge toefl_score 100 then add_score 20 (push_strength "Excellent TOEFL (100+)" r)
    else if ge toefl_score 90 then add_score 15 r
    else r
  else push_weakness "English proficiency test missing" r.

Definition completeness_block (profile : list (string * value)) (r : profileStrength)
  : profileStrength :=
  if Js.truthy (Js.get_own profile "profile_complete") then add_score 20 r
  else push_weakness "Profile incomplete" r.

Definition sop_block (profile : list (string * value)) (r : profileStrength)
  : profileStrength :=
  let sop_status := Js.get_own profile "sop_status" in
  if Js.strict_eq sop_status (VStr "READY") then add_score 10 (push_strength "SOP ready" r)
  else if Js.strict_eq sop_status (VStr "DRAFT") then add_score 5 r
  else push_weakness "SOP not started" r.

Definition budget_block (profile : list (string * value)) (r : profileStrength)
  : profileStrength :=
  if Js.truthy (Js.and (Js.get_own profile "budget_max") (Js.get_own profile "funding_plan"))
  then add_score 10 (push_strength "Clear budget plan" r)
  else push_weakness "Budget plan unclear" r.

(** [analyzeProfileStrength(profile)] for a profile object. *)
Definition analyzeProfileStrength (profile : list (string * value)) : profileStrength :=
  let r := {| strengths := []; weaknesses := []; score := 0 |} in
  let r := gpa_block profile r in
  let r := gre_block profile r in
  let r := english_block profile r in
  let r := completeness_block profile r in
  let r := sop_block profile r in
  budget_block profile r.

End Coercion.

(** [tasks.filter(t => t.status !== 'DONE')]; reading [status] off a
    null or undefined element throws ([None]). *)
Fixpoint incomplete (tasks : list value) : option (list value) :=
  match tasks with
  | [] => Some []
  | t :: rest =>
      match Js.get t "status" with
      | None => None
      | Some status =>
          match incomplete rest with
          | None => None
          | Some l => Some (if Js.strict_eq status (VStr "DONE") then l else t :: l)
          end
      end
  end.

(** [calculateStage(profile, locks, tasks)] for a profile object and two
    arrays; [None] when it throws. *)
Definition calculateStage (profile : list (string * value)) (locks tasks : list value)
  : option float :=
  if negb (Js.truthy (Js.get_own profile "profile_complete")) then Some 1
  else if (List.length locks =? 0)%nat then Some 2
  else
    match incomplete tasks with
    | None => None
    | Some incompleteTasks =>
        if (0 <? List.length tasks)%nat && (List.length incompleteTasks =? 0)%nat
        then Some 5
        else Some 4
    end.

(** The stages the counsellor prompt has guidance for. *)
Definition stageGuidance : list (float * string) :=
  [ (1, "Focus on completing your profile: add test scores, GPA, and goals");
    (2, "Explore universities and build your shortlist (aim for 8-12 schools)");
    (3, "Finalize your shortlist and lock universities to apply to");
    (4, "Complete application tasks: SOP, LORs, documents");
    (5, "All done! Submit applications and await results") ]%string.

(** A task whose status is DONE. *)
Definition is_done (t : value) : Prop :=
  exists status, Js.get t "status" = Some status
                 /\ Js.strict_eq status (VStr "DONE") = true.

(** The increments the six blocks of the strength analysis can make
    ([None]: the block adds nothing), and the scores they can add up to. *)
Definition increments : list (list (option float)) :=
  [ [None; Some 20; Some 15; Some 10; Some 5];
    [None; Some 20; Some 15; Some 10];
    [None; Some 20; Some 15];
    [None; Some 20];
    [None; Some 10; Some 5];
    [None; Some 10] ].

Definition bump (c : option float) (x : float) : float :=
  match c with Some n => x + n | None => x end.

Fixpoint reachable (blocks : list (list (option float))) (from : list float) : list float :=
  match blocks with
  | [] => from
  | b :: rest =>
      reachable rest (flat_map (fun x => map (fun c => bump c x) b) from)
  end.

(** What one block of the analysis does to the running result: it bumps
    the score by one of its increments and adds at most one remark. *)
Definition block_step (choices : list (option float)) (r r' : profileStrength) : Prop :=
  (exists c, In c choices /\ score r' = bump c (score r))
  /\ (List.length (strengths r') + List.length (weaknesses r')
      <= S (List.length (strengths r) + List.length (weaknesses r)))%nat.

(** A score out of 100 that is a whole number of fives. *)
Definition score_in_fives (x : float) : bool :=
  existsb (fun k => PrimFloat.Leibniz.eqb x (JsNum.of_nat (5 * k))) (seq 0 21).

End AiContext.

(* ================================================================== *)
(** * universityService: the classification loop of searchUniversities *)
(* ================================================================== *)

Module UniversitySearch.
Import UniversityEnrichment.
Local Open Scope js_scope.

(** An entry of the Hipolabs answer, with the fields the loop reads:
    [name], [country], [domains] (absent: the empty list) and
    ['state-province'] (null or a string). *)
Record hipolabs : Type := {
  h_name : string;
  h_country : string;
  h_domains : list string;
  h_state_province : option string
}.

Definition HIPOLABS_CACHE_TTL : float := (7 * 24 * 60 * 60 * 1000)%float.   (* 7 days *)
Definition SCORECARD_CACHE_TTL : float := (24 * 60 * 60 * 1000)%float.      (* 1 day *)

(** [uni.domains?.[0] || `${uni.name}_${uni.country}`] *)
Definition first_domain (uni : hipolabs) : value :=
  match h_domains uni with
  | d :: _ => VStr d
  | [] => VUndefined
  end.

Definition externalId_of (uni : hipolabs) : value :=
  Js.or (first_domain uni) (VStr (h_name uni ++ "_" ++ h_country uni)).

(** [new Map(rows.map(uni => [uni.external_id, uni])).get(externalId)] for
    a string [externalId]: the last row carrying it. *)
Definition existing_row (externalId : value) (existingUniversities : list (list (string * value)))
  : option (list (string * value)) :=
  find (fun row => Js.strict_eq (Js.get_own row "external_id") externalId
                   && match externalId with VStr _ => true | _ => false end)
       (rev existingUniversities).

(** An entity waiting for the College Scorecard. *)
Record us_pending : Type := { us_index : nat; us_name : string }.

(** The four arrays the loop fills. *)
Record sorted : Type := {
  universities_found : list value;
  toUpsert : list value;
  usUniversities : list us_pending;
  nonUSUniversities : list pending
}.

Definition nothing_sorted : sorted :=
  {| universities_found := []; toUpsert := []; usUniversities := [];
     nonUSUniversities := [] |}.

Section Env.
Context {World : Type}.
Variable env : environment World.
(** The built-ins [new Date(v).getTime()] and [new Date(ms).toISOString()]. *)
Variable Date_getTime : value -> float.
Variable toISOString : Z -> string.

(** The cache test of the loop: [cacheAge < ttl] for the row found. *)
Definition still_fresh (existing : list (string * value)) : M World bool :=
  now <- ask (Date_now env) ;;
  let cacheAge := (JsNum.of_Z now - Date_getTime (Js.get_own existing "cached_at"))%float in
  let ttl :=
    if Js.strict_eq (Js.get_own existing "data_source") (VStr "COLLEGE_SCORECARD")
    then SCORECARD_CACHE_TTL else HIPOLABS_CACHE_TTL in
  ret (cacheAge <? ttl)%float.

Definition uniData_of (uni : hipolabs) (cached_at : Z) : value :=
  VObj [ ("external_id", externalId_of uni);
         ("name", VStr (h_name uni));
         ("country", VStr (h_country uni));
         ("domain", Js.or (first_domain uni) VNull);
         ("city", match h_state_province uni with
                  | Some s => Js.or (VStr s) VNull
                  | None => VNull
                  end);
         ("data_source", VStr "HIPOLABS");
         ("cached_at", VStr (toISOString cached_at)) ].

(** The three things one round can do to the arrays: [universities.push(existing)],
    or [toUpsert.push(uniData)] after a push onto one of the two queues. *)
Definition reused (row : list (string * value)) (acc : sorted) : sorted :=
  {| universities_found := universities_found acc ++ [VObj row];
     toUpsert := toUpsert acc;
     usUniversities := usUniversities acc;
     nonUSUniversities := nonUSUniversities acc |}.

Definition queued_us (uni : hipolabs) (cached_at : Z) (acc : sorted) : sorted :=
  {| universities_found := universities_found acc;
     toUpsert := toUpsert acc ++ [uniData_of uni cached_at];
     usUniversities :=
       usUniversities acc
       ++ [ {| us_index := List.length (toUpsert acc); us_name := h_name uni |} ];
     nonUSUniversities := nonUSUniversities acc |}.

Definition queued_nonUS (uni : hipolabs) (cached_at : Z) (acc : sorted) : sorted :=
  {| universities_found := universities_found acc;
     toUpsert := toUpsert acc ++ [uniData_of uni cached_at];
     usUniversities := usUniversities acc;
     nonUSUniversities :=
       nonUSUniversities acc
       ++ [ {| index := List.length (toUpsert acc);
               name := h_name uni; country := h_country uni |} ] |}.

(** One round of [for (const uni of hipolabsResults)]. *)
Definition sort_one (enrichUS : bool) (existingUniversities : list (list (string * value)))
    (uni : hipolabs) (acc : sorted) : M World sorted :=
  let existing := existing_row (externalId_of uni) existingUniversities in
  reuse <- match existing with
           | Some row => still_fresh row
           | None => ret false
           end ;;
  match existing, reuse with
  | Some row, true => ret (reused row acc)
  | _, _ =>
      cached_at <- ask (Date_now env) ;;
      if enrichUS && String.eqb (h_country uni) "United States"
      then ret (queued_us uni cached_at acc)
      else ret (queued_nonUS uni cached_at acc)
  end.

Fixpoint sort_all (enrichUS : bool) (existingUniversities : list (list (string * value)))
    (hipolabsResults : list hipolabs) (acc : sorted) : M World sorted :=
  match hipolabsResults with
  | [] => ret acc
  | uni :: rest =>
      acc' <- sort_one enrichUS existingUniversities uni acc ;;
      sort_all enrichUS existingUniversities rest acc'
  end.

End Env.

(** What the loop keeps true of its arrays: every pending entity owns a
    slot of [toUpsert], no two share one, every slot has an owner, and the
    record in the slot of a non-US entity carries its name and country and
    the source HIPOLABS. *)
Definition slots (s : sorted) : list nat :=
  map us_index (usUniversities s) ++ map index (nonUSUniversities s).

Definition well_sorted (s : sorted) : Prop :=
  NoDup (slots s)
  /\ (forall j, In j (slots s) <-> (j < List.length (toUpsert s))%nat)
  /\ (forall u, In u (nonUSUniversities s) ->
        exists props,
          array_get (index u) (toUpsert s) = VObj props
          /\ Js.get_own props "name" = VStr (name u)
          /\ Js.get_own props "country" = VStr (country u)
          /\ Js.get_own props "data_source" = VStr "HIPOLABS").

(** ** The batch upsert of searchUniversities

    The table [universities] is a list of rows, each an id with its
    columns; [external_id] is UNIQUE, and null clashes with nothing. *)






Section Store.
Context {World : Type}.
Variable env : environment World.
(** The text of a generated identifier. *)
Variable uuid_text : Z -> string.


End Store.








End UniversitySearch.

(* ================================================================== *)
(** * Properties                                                       *)
(* ================================================================== *)

(** ** The confidence score *)

Section ConfidenceFacts.
Import ConfidenceScorer Spec.
Local Open Scope float_scope.

Lemma calculateConfidenceScore_kernel enrichedData source isVerified :
  calculateConfidenceScore enrichedData source isVerified
  = score_kernel (presentFields enrichedData) (source_operand source) isVerified.
Proof. reflexivity. Qed.

Lemma presentFields_le enrichedData : (presentFields enrichedData <= 7)%nat.
Proof.
  unfold presentFields.
  apply (Nat.le_trans _ (List.length requiredFields)); [apply filter_length_le | apply Nat.le_refl].
Qed.

(** A source that names nothing inherited from Object.prototype reads one
    of the five table entries or the fallback 0.5. *)
Lemma source_operand_cases source :
  Js.inherited source = VUndefined ->
  In (source_operand source) [1.0; 0.85; 0.75; 0.65; 0.70; 0.5].
Proof.
  intros Hinh. unfold source_operand, Js.get_own, sourceScores, Js.assoc.
  destruct (String.eqb source "VERIFIED"); [simpl; tauto|].
  destruct (String.eqb source "MANUAL"); [simpl; tauto|].
  destruct (String.eqb source "GEMINI"); [simpl; tauto|].
  destruct (String.eqb source "LLAMA"); [simpl; tauto|].
  destruct (String.eqb source "AI"); [simpl; tauto|].
  rewrite Hinh. simpl. tauto.
Qed.

Lemma score_kernel_range present s v :
  (present <= 7)%nat ->
  In s [1.0; 0.85; 0.75; 0.65; 0.70; 0.5] ->
  (0.25 <=? score_kernel present s v) = true
  /\ (0 <=? score_kernel present s v) = true
  /\ (score_kernel present s v <=? 1) = true
  /\ two_decimals (score_kernel present s v).
Proof.
  intros Hle Hin.
  assert (Hp : In present [0; 1; 2; 3; 4; 5; 6; 7]%nat).
  { do 8 (destruct present as [|present]; [simpl; tauto|]). lia. }
  clear Hle.
  simpl in Hp, Hin.
  repeat (destruct Hp as [<- | Hp]); try contradiction;
    repeat (destruct Hin as [<- | Hin]); try contradiction;
      destruct v;
      (split; [vm_compute; reflexivity |
        split; [vm_compute; reflexivity |
        split; [vm_compute; reflexivity |
          match goal with
          | |- two_decimals ?r => exists (float_to_Z (JsNum.Math_round (r * 100)))
          end;
          split; [vm_compute; split; discriminate | vm_compute; reflexivity]]]]).
Qed.

End ConfidenceFacts.

Section ConfidenceClaims.
Import ConfidenceScorer Spec.
Local Open Scope float_scope.

(** For a source tag that does not name a member inherited from
    Object.prototype, the score lies in [0.25, 1] and is a whole number
    of hundredths. *)
Lemma calculateConfidenceScore_range enrichedData source isVerified :
  Js.inherited source = VUndefined ->
  (0.25 <=? calculateConfidenceScore enrichedData source isVerified) = true
  /\ in_unit_interval (calculateConfidenceScore enrichedData source isVerified)
  /\ two_decimals (calculateConfidenceScore enrichedData source isVerified).
Proof.
  intros Hinh. rewrite calculateConfidenceScore_kernel.
  destruct (score_kernel_range (presentFields enrichedData) (source_operand source) isVerified
              (presentFields_le enrichedData) (source_operand_cases source Hinh))
    as (Hlo & Hz & Hhi & Hdec).
  split; [exact Hlo|]. split; [|exact Hdec]. split; [exact Hz | exact Hhi].
Qed.

(** The empty payload under a source the table does not know, not
    verified, scores 0.25, and no ordinary input scores less. *)
Lemma calculateConfidenceScore_minimum enrichedData source isVerified unknown :
  Js.inherited source = VUndefined ->
  Js.get_own sourceScores unknown = VUndefined ->
  calculateConfidenceScore [] unknown false = 0.25
  /\ (calculateConfidenceScore [] unknown false
      <=? calculateConfidenceScore enrichedData source isVerified) = true.
Proof.
  intros Hinh Hunk.
  assert (E : calculateConfidenceScore [] unknown false = 0.25).
  { unfold calculateConfidenceScore. rewrite Hunk. vm_compute. reflexivity. }
  split; [exact E|]. rewrite E.
  apply (calculateConfidenceScore_range enrichedData source isVerified Hinh).
Qed.

(** A payload with all seven checklist fields present, entered by hand
    and verified, scores 0.96. *)
Lemma calculateConfidenceScore_full_manual_verified enrichedData :
  forallb (field_present enrichedData) requiredFields = true ->
  calculateConfidenceScore enrichedData "MANUAL" true = 0.96
  /\ (0.9 <=? calculateConfidenceScore enrichedData "MANUAL" true) = true.
Proof.
  intros Hall.
  assert (Hp : presentFields enrichedData = 7%nat).
  { unfold presentFields.
    assert (Hf : filter (field_present enrichedData) requiredFields = requiredFields).
    { apply forallb_filter_id. exact Hall. }
    rewrite Hf. reflexivity. }
  rewrite calculateConfidenceScore_kernel, Hp.
  split; vm_compute; reflexivity.
Qed.

(** C2 (failing input).  [calculateConfidenceScore({}, 'constructor', false)]
    is NaN: the lookup [sourceScores['constructor']] finds the member every
    object literal inherits, the product with 0.3 is NaN, and the final
    [Math.min(1, Math.max(0, ...))] passes NaN through.  The value is
    neither at least 0 nor at most 1. *)
Theorem calculateConfidenceScore_inherited_source_is_nan :
  calculateConfidenceScore [] "constructor" false = nan
  /\ (0 <=? calculateConfidenceScore [] "constructor" false) = false
  /\ (calculateConfidenceScore [] "constructor" false <=? 1) = false.
Proof. repeat split; vm_compute; reflexivity. Qed.

End ConfidenceClaims.

(** ** The enrichment cache *)

Section CacheFacts.
Import EnrichmentCache.
Local Open Scope Z_scope.

Lemma key_is_true n c r :
  key_is n c r = true <-> university_name r = n /\ country r = c.
Proof.
  unfold key_is. rewrite andb_true_iff, !String.eqb_eq. tauto.
Qed.

Lemma key_is_entry new_id e :
  key_is (entry_university_name e) (entry_country e) (inserted new_id e) = true.
Proof. apply key_is_true. split; reflexivity. Qed.

Lemma key_is_overwrite e r :
  key_is (entry_university_name e) (entry_country e) (overwrite e r) = true.
Proof. apply key_is_true. split; reflexivity. Qed.

Lemma unique_keys_tail r t : unique_keys (r :: t) -> unique_keys t.
Proof. unfold unique_keys. simpl. intros H. inversion H; assumption. Qed.

Lemma unique_keys_head r t n c :
  unique_keys (r :: t) -> key_is n c r = true -> filter (key_is n c) t = [].
Proof.
  unfold unique_keys. simpl. intros H Hk. inversion H as [|? ? Hnotin Hnd]; subst.
  apply key_is_true in Hk. destruct Hk as [<- <-].
  clear H Hnd. revert Hnotin.
  induction t as [|r' t IH]; intros Hnotin; [reflexivity|].
  simpl. destruct (key_is (university_name r) (country r) r') eqn:E.
  - exfalso. apply Hnotin. apply key_is_true in E. destruct E as [E1 E2].
    simpl. left. rewrite E1, E2. reflexivity.
  - apply IH. intros Hin. apply Hnotin. simpl. right. exact Hin.
Qed.

(** After an upsert the key of the entry selects exactly the row that
    the store reports back. *)
Lemma upsert_selects new_id e t :
  unique_keys t ->
  filter (key_is (entry_university_name e) (entry_country e)) (fst (upsert new_id e t))
  = [snd (upsert new_id e t)].
Proof.
  induction t as [|r t IH]; intros Hu.
  - simpl. rewrite key_is_entry. reflexivity.
  - simpl. destruct (key_is (entry_university_name e) (entry_country e) r) eqn:E.
    + simpl. rewrite key_is_overwrite.
      rewrite (unique_keys_head r t _ _ Hu E). reflexivity.
    + specialize (IH (unique_keys_tail _ _ Hu)).
      destruct (upsert new_id e t) as [t'' data]. simpl in *. rewrite E. exact IH.
Qed.

Lemma upsert_keys_in new_id e t k :
  In k (map (fun r => (university_name r, country r)) (fst (upsert new_id e t))) ->
  k = (entry_university_name e, entry_country e)
  \/ In k (map (fun r => (university_name r, country r)) t).
Proof.
  induction t as [|r t IH]; simpl.
  - intros [H|[]]. left. symmetry. exact H.
  - destruct (key_is (entry_university_name e) (entry_country e) r) eqn:E.
    + simpl. intros [H|H]; [left; symmetry; exact H | right; right; exact H].
    + destruct (upsert new_id e t) as [t'' data]. simpl in *.
      intros [H|H]; [right; left; exact H|].
      destruct (IH H) as [H'|H']; [left; exact H' | right; right; exact H'].
Qed.

(** The upsert keeps the UNIQUE constraint. *)
Lemma upsert_unique new_id e t :
  unique_keys t -> unique_keys (fst (upsert new_id e t)).
Proof.
  unfold unique_keys. induction t as [|r t IH]; intros Hu.
  - simpl. constructor; [intros [] | constructor].
  - simpl. destruct (key_is (entry_university_name e) (entry_country e) r) eqn:E.
    + simpl. apply key_is_true in E. destruct E as [E1 E2].
      simpl in Hu. rewrite E1, E2 in Hu. exact Hu.
    + simpl in Hu. inversion Hu as [|? ? Hnotin Hnd]; subst.
      specialize (IH Hnd).
      pose proof (upsert_keys_in new_id e t (university_name r, country r)) as Hin.
      destruct (upsert new_id e t) as [t'' data]. simpl in *.
      constructor; [|exact IH].
      intros H. destruct (Hin H) as [Hk|Hk]; [|exact (Hnotin Hk)].
      inversion Hk as [[H1 H2]].
      assert (key_is (entry_university_name e) (entry_country e) r = true)
        by (apply key_is_true; split; congruence).
      congruence.
Qed.

(** The columns of the row the store reports back: everything the entry
    carries. *)
Lemma upsert_row new_id e t :
  let data := snd (upsert new_id e t) in
  university_name data = entry_university_name e
  /\ country data = entry_country e
  /\ enriched_data data = entry_enriched_data e
  /\ confidence_score data = entry_confidence_score e
  /\ source data = entry_source e
  /\ created_at data = entry_created_at e
  /\ last_accessed_at data = entry_last_accessed_at e
  /\ access_count data = entry_access_count e
  /\ is_verified data = entry_is_verified e.
Proof.
  induction t as [|r t IH]; simpl.
  - repeat split.
  - destruct (key_is (entry_university_name e) (entry_country e) r).
    + simpl. repeat split.
    + destruct (upsert new_id e t) as [t'' data]. exact IH.
Qed.

Lemma ttl_tiers :
  CACHE_TTL.VERIFIED = 2592000000 /\ CACHE_TTL.MANUAL = 1209600000
  /\ CACHE_TTL.AI_ENRICHED = 604800000
  /\ CACHE_TTL.AI_ENRICHED < CACHE_TTL.MANUAL < CACHE_TTL.VERIFIED.
Proof. repeat split. Qed.

End CacheFacts.

Section CacheClaims.
Import EnrichmentCache Spec.
Local Open Scope Z_scope.

Lemma getCachedEnrichment_found upd now name country t data :
  Js.single (filter (key_is (JsStr.trim name) (JsStr.trim country)) t) = Some data ->
  fst (getCachedEnrichment upd now name country t)
  = if now - created_at data >? ttl_of data then None else Some (hit_of data).
Proof.
  intros H. unfold getCachedEnrichment. rewrite H.
  destruct (now - created_at data >? ttl_of data); reflexivity.
Qed.

(** C3 (as amended).  The key is normalised by trimming only.  After a
    store, a lookup within the TTL whose name and country equal the stored
    ones once trimmed returns the stored payload, with the confidence
    score computed at the write and an access count of 2. *)
Theorem lookup_after_store_is_trim_insensitive
    (upd : Z -> Z -> table -> table) (created accessed new_id now : Z)
    (name country name' country' : string)
    (data : list (string * value)) (source : string) (t : table) :
  unique_keys t ->
  JsStr.trim name' = JsStr.trim name ->
  JsStr.trim country' = JsStr.trim country ->
  now - created <= Spec.stored_ttl source ->
  fst (getCachedEnrichment upd now name' country'
         (snd (setCachedEnrichment created accessed new_id name country data source t)))
  = Some (with_meta data
            {| cached := true;
               meta_confidence_score :=
                 ConfidenceScorer.calculateConfidenceScore data source false;
               meta_source := source;
               meta_is_verified := Some false;
               meta_created_at := Some created;
               meta_access_count := Some 2 |}).
Proof.
  intros Hu Hn Hc Hage. unfold setCachedEnrichment.
  set (e := {| entry_university_name := JsStr.trim name;
               entry_country := JsStr.trim country;
               entry_enriched_data := data;
               entry_confidence_score :=
                 ConfidenceScorer.calculateConfidenceScore data source false;
               entry_source := source;
               entry_created_at := created;
               entry_last_accessed_at := accessed;
               entry_access_count := 1;
               entry_is_verified := false |}).
  pose proof (upsert_selects new_id e t Hu) as Hsel.
  pose proof (upsert_row new_id e t) as Hrow.
  destruct (upsert new_id e t) as [t' d]. simpl in *.
  destruct Hrow as (_ & _ & Hd & Hcs & Hs & Hcr & _ & Hac & Hv).
  rewrite (getCachedEnrichment_found upd now name' country' t' d).
  - unfold ttl_of. rewrite Hv, Hs, Hcr.
    unfold Spec.stored_ttl in Hage.
    assert (Hf : (now - created >? (if String.eqb source "MANUAL" then CACHE_TTL.MANUAL
                                     else CACHE_TTL.AI_ENRICHED)) = false)
      by (rewrite Z.gtb_ltb; apply Z.ltb_ge; exact Hage).
    rewrite Hf. unfold hit_of. rewrite Hd, Hcs, Hs, Hv, Hcr, Hac. reflexivity.
  - rewrite Hn, Hc. rewrite Hsel. reflexivity.
Qed.

Lemma lookup_after_store_is_trim_insensitive_witness :
  fst (getCachedEnrichment (fun _ _ t => t) 5 "  MIT " " USA"
         (snd (setCachedEnrichment 0 0 1 "MIT" "USA " [("city", VStr "Cambridge")] "GEMINI" [])))
  = Some (with_meta [("city", VStr "Cambridge")]
            {| cached := true;
               meta_confidence_score :=
                 ConfidenceScorer.calculateConfidenceScore [("city", VStr "Cambridge")] "GEMINI" false;
               meta_source := "GEMINI";
               meta_is_verified := Some false;
               meta_created_at := Some 0;
               meta_access_count := Some 2 |}).
Proof.
  apply (lookup_after_store_is_trim_insensitive (fun _ _ t => t) 0 0 1 5
           "MIT" "USA " "  MIT " " USA" [("city", VStr "Cambridge")] "GEMINI" []).
  - constructor.
  - reflexivity.
  - reflexivity.
  - vm_compute. discriminate.
Defined.

(** C3 (counterexample).  A record stored under "MIT" is not found under
    "mit": the two spellings differ in letter case only, and the lookup is
    a miss. *)
Lemma lookup_folds_case_fails : ~ Spec.lookup_folds_case.
Proof.
  intros H.
  apply (H (fun _ _ t => t) 0 0 1 0 "MIT" "USA" "mit" "USA" [] "AI" []).
  - constructor.
  - reflexivity.
  - reflexivity.
  - vm_compute. discriminate.
  - reflexivity.
Qed.

(** C4.  Two stores under the same (name, country) leave exactly one row
    for the key, and the store reports that row back.  Every column a
    store writes comes from the second call: the payload, the source, the
    confidence score recomputed from the second payload, both time stamps,
    the verification flag (false) and the access count (1).  The table
    stays free of duplicate keys. *)
Theorem store_twice_second_write_wins
    (created1 accessed1 id1 created2 accessed2 id2 : Z) (name country : string)
    (data1 data2 : list (string * value)) (source1 source2 : string) (t : table) :
  unique_keys t ->
  let t1 := snd (setCachedEnrichment created1 accessed1 id1 name country data1 source1 t) in
  let result := setCachedEnrichment created2 accessed2 id2 name country data2 source2 t1 in
  exists r : row,
    rows_with_key (JsStr.trim name) (JsStr.trim country) (snd result) = [r]
    /\ fst result = Some r
    /\ enriched_data r = data2
    /\ source r = source2
    /\ confidence_score r = ConfidenceScorer.calculateConfidenceScore data2 source2 false
    /\ is_verified r = false
    /\ access_count r = 1
    /\ created_at r = created2
    /\ last_accessed_at r = accessed2
    /\ unique_keys (snd result).
Proof.
  intros Hu t1 result. subst t1 result. unfold setCachedEnrichment.
  set (e1 := {| entry_university_name := JsStr.trim name;
                entry_country := JsStr.trim country;
                entry_enriched_data := data1;
                entry_confidence_score :=
                  ConfidenceScorer.calculateConfidenceScore data1 source1 false;
                entry_source := source1;
                entry_created_at := created1;
                entry_last_accessed_at := accessed1;
                entry_access_count := 1;
                entry_is_verified := false |}).
  set (e2 := {| entry_university_name := JsStr.trim name;
                entry_country := JsStr.trim country;
                entry_enriched_data := data2;
                entry_confidence_score :=
                  ConfidenceScorer.calculateConfidenceScore data2 source2 false;
                entry_source := source2;
                entry_created_at := created2;
                entry_last_accessed_at := accessed2;
                entry_access_count := 1;
                entry_is_verified := false |}).
  pose proof (upsert_unique id1 e1 t Hu) as Hu1.
  destruct (upsert id1 e1 t) as [t1 d1]. cbn [fst snd] in *.
  pose proof (upsert_selects id2 e2 t1 Hu1) as Hsel.
  pose proof (upsert_row id2 e2 t1) as Hrow.
  pose proof (upsert_unique id2 e2 t1 Hu1) as Hu2.
  destruct (upsert id2 e2 t1) as [t2 d2]. cbn [fst snd] in *.
  destruct Hrow as (_ & _ & Hd & Hcs & Hs & Hcr & Hla & Hac & Hv).
  exists d2. unfold rows_with_key. repeat split; assumption.
Qed.

Lemma store_twice_second_write_wins_witness :
  exists r : row,
    rows_with_key (JsStr.trim " MIT") (JsStr.trim "USA")
      (snd (setCachedEnrichment 20 21 8 " MIT" "USA" [("rank", VNum 2)] "LLAMA"
              (snd (setCachedEnrichment 10 11 7 " MIT" "USA" [("city", VStr "Cambridge")] "GEMINI" []))))
    = [r]
    /\ fst (setCachedEnrichment 20 21 8 " MIT" "USA" [("rank", VNum 2)] "LLAMA"
              (snd (setCachedEnrichment 10 11 7 " MIT" "USA" [("city", VStr "Cambridge")] "GEMINI" [])))
       = Some r
    /\ enriched_data r = [("rank", VNum 2)]
    /\ source r = "LLAMA"
    /\ confidence_score r
       = ConfidenceScorer.calculateConfidenceScore [("rank", VNum 2)] "LLAMA" false
    /\ is_verified r = false
    /\ access_count r = 1
    /\ created_at r = 20
    /\ last_accessed_at r = 21
    /\ unique_keys
         (snd (setCachedEnrichment 20 21 8 " MIT" "USA" [("rank", VNum 2)] "LLAMA"
                 (snd (setCachedEnrichment 10 11 7 " MIT" "USA" [("city", VStr "Cambridge")] "GEMINI" [])))).
Proof.
  apply (store_twice_second_write_wins 10 11 7 20 21 8 " MIT" "USA"
           [("city", VStr "Cambridge")] [("rank", VNum 2)] "GEMINI" "LLAMA" []).
  constructor.
Defined.

(** C5.  For the row a lookup finds, the lookup is a miss exactly when
    the age of the row exceeds its TTL; the TTL is 30 days for a verified
    row, else 14 days for source MANUAL, else 7 days; and a row within its
    TTL is returned with its payload, its stored confidence score and its
    access count plus one. *)
Theorem lookup_miss_iff_older_than_tier_ttl
    (upd : Z -> Z -> table -> table) (now : Z) (name country : string)
    (t : table) (data : row) :
  Js.single (filter (key_is (JsStr.trim name) (JsStr.trim country)) t) = Some data ->
  (fst (getCachedEnrichment upd now name country t) = None
   <-> now - created_at data > ttl_of data)
  /\ ttl_of data
     = (if is_verified data then 30 * 24 * 60 * 60 * 1000
        else if String.eqb (source data) "MANUAL" then 14 * 24 * 60 * 60 * 1000
        else 7 * 24 * 60 * 60 * 1000)
  /\ (7 * 24 * 60 * 60 * 1000 < 14 * 24 * 60 * 60 * 1000 < 30 * 24 * 60 * 60 * 1000)
  /\ (now - created_at data <= ttl_of data ->
      exists r,
        fst (getCachedEnrichment upd now name country t) = Some r
        /\ fields r = Js.remove "_cache_meta" (enriched_data data)
        /\ cached (_cache_meta r) = true
        /\ meta_confidence_score (_cache_meta r) = confidence_score data
        /\ meta_access_count (_cache_meta r) = Some (access_count data + 1)).
Proof.
  intros Hfound.
  rewrite (getCachedEnrichment_found upd now name country t data Hfound).
  split; [|split; [reflexivity | split; [lia|]]].
  - destruct (now - created_at data >? ttl_of data) eqn:E.
    + split; [intros _; apply Z.gtb_gt; exact E | reflexivity].
    + split; [discriminate|]. intros Hgt. apply Z.gtb_gt in Hgt. congruence.
  - intros Hle.
    assert (E : (now - created_at data >? ttl_of data) = false)
      by (rewrite Z.gtb_ltb; apply Z.ltb_ge; exact Hle).
    rewrite E. exists (hit_of data). repeat split.
Qed.

Lemma lookup_miss_iff_older_than_tier_ttl_witness :
  (fst (getCachedEnrichment (fun _ _ t => t) 1209600001 "MIT" "USA" [sample_row]) = None
   <-> 1209600001 - created_at sample_row > ttl_of sample_row)
  /\ ttl_of sample_row
     = (if is_verified sample_row then 30 * 24 * 60 * 60 * 1000
        else if String.eqb (source sample_row) "MANUAL" then 14 * 24 * 60 * 60 * 1000
        else 7 * 24 * 60 * 60 * 1000)
  /\ (7 * 24 * 60 * 60 * 1000 < 14 * 24 * 60 * 60 * 1000 < 30 * 24 * 60 * 60 * 1000)
  /\ (1209600001 - created_at sample_row <= ttl_of sample_row ->
      exists r,
        fst (getCachedEnrichment (fun _ _ t => t) 1209600001 "MIT" "USA" [sample_row]) = Some r
        /\ fields r = Js.remove "_cache_meta" (enriched_data sample_row)
        /\ cached (_cache_meta r) = true
        /\ meta_confidence_score (_cache_meta r) = confidence_score sample_row
        /\ meta_access_count (_cache_meta r) = Some (access_count sample_row + 1)).
Proof.
  apply (lookup_miss_iff_older_than_tier_ttl (fun _ _ t => t) 1209600001 "MIT" "USA"
           [sample_row] sample_row).
  reflexivity.
Defined.

(** C9.  The sweep keeps a row exactly when the row is verified or was
    created at or after the cutoff, 30 days (the longest TTL) before the
    sweep; what it keeps is unchanged and in its old order.  So it deletes
    exactly the unverified rows older than 30 days. *)
Theorem clearExpiredCache_deletes_only_unverified_expired (now : Z) (t : table) :
  (forall r : row,
      In r (clearExpiredCache now t)
      <-> In r t /\ (is_verified r = true \/ now - CACHE_TTL.VERIFIED <= created_at r))
  /\ (forall r : row,
         In r t /\ is_verified r = false /\ created_at r < now - CACHE_TTL.VERIFIED
         <-> In r t /\ ~ In r (clearExpiredCache now t))
  /\ clearExpiredCache now t
     = filter (fun r => is_verified r || (now - CACHE_TTL.VERIFIED <=? created_at r)) t
  /\ CACHE_TTL.VERIFIED = 30 * 24 * 60 * 60 * 1000
  /\ Z.max CACHE_TTL.VERIFIED (Z.max CACHE_TTL.MANUAL CACHE_TTL.AI_ENRICHED)
     = CACHE_TTL.VERIFIED.
Proof.
  assert (Hkeep : forall r,
             negb (expired_unverified now r) = true
             <-> (is_verified r = true \/ now - CACHE_TTL.VERIFIED <= created_at r)).
  { intros r. unfold expired_unverified.
    destruct (is_verified r); simpl.
    - split; [intros _; left; reflexivity | reflexivity].
    - rewrite negb_true_iff, Z.ltb_ge.
      split; [intros H; right; exact H | intros [H|H]; [discriminate | exact H]]. }
  split; [|split; [|split; [|split; reflexivity]]].
  - intros r. unfold clearExpiredCache. rewrite filter_In, Hkeep. tauto.
  - intros r. unfold clearExpiredCache. rewrite filter_In, Hkeep.
    split.
    + intros (Hin & Hv & Hold). split; [exact Hin|].
      intros (_ & [H|H]); [congruence | lia].
    + intros (Hin & Hnot). split; [exact Hin|].
      destruct (is_verified r) eqn:Ev.
      * exfalso. apply Hnot. split; [exact Hin | left; reflexivity].
      * split; [reflexivity|].
        destruct (Z.lt_ge_cases (created_at r) (now - CACHE_TTL.VERIFIED)) as [H|H];
          [exact H|].
        exfalso. apply Hnot. split; [exact Hin | right; exact H].
  - unfold clearExpiredCache. apply filter_ext. intros r.
    unfold expired_unverified. destruct (is_verified r); simpl; [reflexivity|].
    rewrite Z.leb_antisym. reflexivity.
Qed.

End CacheClaims.

(** ** The router *)

Section RouterFacts.
Import AiService Spec.
Context {World : Type}.
Variable env : environment World.
Local Open Scope js_scope.

Lemma same_store_refl (st : state World) : same_store st st.
Proof. repeat split. Qed.

Lemma same_store_trans (a b c : state World) :
  same_store a b -> same_store b c -> same_store a c.
Proof.
  intros (A1 & A2 & A3 & A4) (B1 & B2 & B3 & B4).
  repeat split; congruence.
Qed.

Lemma quiet_refl (st : state World) : quiet st st.
Proof.
  split; [apply same_store_refl|].
  exists []. split; [symmetry; apply app_nil_r | reflexivity].
Qed.

Lemma quiet_trans (a b c : state World) : quiet a b -> quiet b c -> quiet a c.
Proof.
  intros (S1 & e1 & H1 & P1) (S2 & e2 & H2 & P2).
  split; [exact (same_store_trans _ _ _ S1 S2)|].
  exists (e1 ++ e2)%list. split.
  - rewrite H2, H1, app_assoc. reflexivity.
  - unfold providers_tried in *. rewrite flat_map_app, P1, P2. reflexivity.
Qed.

Lemma quiet_set_world w (st : state World) : quiet st (set_world w st).
Proof.
  split; [repeat split|].
  exists []. split; [simpl; symmetry; apply app_nil_r | reflexivity].
Qed.

Lemma ask_run {A} (f : World -> A * World) (st : state World) :
  exists a w, ask f st = (Returned a, set_world w st).
Proof. unfold ask. destruct (f (world st)) as [a w]. eauto. Qed.

Lemma insert_at_nonempty {A} n (x : A) l : insert_at n x l <> [].
Proof. destruct n, l; simpl; discriminate. Qed.

Lemma rearrange_nonempty {A} draws (l : list A) : l <> [] -> rearrange draws l <> [].
Proof. destruct l; [congruence|]. intros _. simpl. apply insert_at_nonempty. Qed.

Lemma shuffled_run keys (st : state World) :
  exists l st', shuffled env keys st = (Returned l, st')
                /\ quiet st st' /\ (keys <> [] -> l <> []).
Proof.
  unfold shuffled, bind, ret.
  destruct (ask_run (Math_random_draws env (List.length keys)) st) as (d & w & E).
  rewrite E. exists (rearrange d keys), (set_world w st).
  split; [reflexivity|]. split; [apply quiet_set_world | apply rearrange_nonempty].
Qed.

Lemma quiet_emit_request (st : state World) e :
  providers_tried [e] = [] -> quiet st (snd (emit e st)).
Proof.
  intros H. split; [repeat split|]. exists [e]. split; [reflexivity | exact H].
Qed.

Lemma call_run (f : World -> reply * World) (st : state World) :
  exists w, (exists text, call f st = (Returned text, set_world w st))
            \/ (exists m, call f st = (Thrown (Error m), set_world w st)).
Proof.
  unfold call. destruct (f (world st)) as [[text|m] w]; exists w; [left|right]; eauto.
Qed.

Lemma gemini_attempt_clean messages systemPrompt modelName apiKey (st : state World) :
  clean st (gemini_attempt env messages systemPrompt modelName apiKey st).
Proof.
  unfold gemini_attempt, bind.
  set (fullPrompt := (systemPrompt ++ _)%string).
  set (st1 := snd (emit (GeminiRequest modelName apiKey fullPrompt) st)).
  assert (Q1 : quiet st st1) by (apply quiet_emit_request; reflexivity).
  change (emit (GeminiRequest modelName apiKey fullPrompt) st) with (Returned tt, st1).
  destruct (call_run (gemini_generateContent env apiKey modelName fullPrompt) st1)
    as (w & [(text & E) | (m & E)]); rewrite E.
  - destruct (String.eqb text ""); unfold throw, ret; split; simpl;
      try (eapply quiet_trans; [exact Q1 | apply quiet_set_world]).
    + intros e He. inversion He. eauto.
    + intros e He. discriminate.
  - split; simpl; [eapply quiet_trans; [exact Q1 | apply quiet_set_world]|].
    intros e He. inversion He. eauto.
Qed.

(** The key loop of callGemini always returns; when it ends without an
    answer it hands back an Error, provided it had one to start with or at
    least one key to try. *)
Lemma gemini_keys_run messages systemPrompt modelName keys :
  forall lastError (st : state World),
  exists r st',
    gemini_keys env messages systemPrompt modelName keys lastError st = (Returned r, st')
    /\ quiet st st'
    /\ (forall le, r = inr le -> is_error lastError \/ keys <> [] -> is_error le).
Proof.
  induction keys as [|apiKey rest IH]; intros lastError st.
  - exists (inr lastError), st. split; [reflexivity|]. split; [apply quiet_refl|].
    intros le Hle [H|H]; [inversion Hle; subst; exact H | congruence].
  - simpl. unfold try_catch, bind at 1.
    pose proof (gemini_attempt_clean messages systemPrompt modelName apiKey st) as [Q Herr].
    destruct (gemini_attempt env messages systemPrompt modelName apiKey st) as [[r|e] st1];
      simpl in *.
    + exists (inl r), st1. split; [reflexivity|]. split; [exact Q|].
      intros le Hle. discriminate.
    + destruct (Herr e eq_refl) as [m ->]. unfold bind, message_of, ret.
      destruct (IH (Some (Error m)) st1) as (r & st' & E & Q' & Hle).
      exists r, st'. split; [exact E|]. split; [eapply quiet_trans; eassumption|].
      intros le H _. apply (Hle le H). left. exists m. reflexivity.
Qed.

Lemma gemini_models_clean messages systemPrompt modelsToTry :
  GEMINI_API_KEYS env <> [] ->
  forall lastError (st : state World),
    is_error lastError \/ modelsToTry <> [] ->
    clean st (gemini_models env messages systemPrompt modelsToTry lastError st).
Proof.
  intros Hkeys. induction modelsToTry as [|modelName rest IH]; intros lastError st Hle.
  - destruct Hle as [(m & ->)|H]; [|congruence].
    simpl. unfold throw. split; simpl; [apply quiet_refl|].
    intros e He. inversion He. eauto.
  - simpl. unfold bind at 1.
    destruct (shuffled_run (GEMINI_API_KEYS env) st) as (l & st1 & E & Q1 & Hl).
    rewrite E. unfold bind at 1.
    destruct (gemini_keys_run messages systemPrompt modelName l lastError st1)
      as (r & st2 & E2 & Q2 & Hr).
    rewrite E2. destruct r as [response | lastError'].
    + unfold ret. split; simpl; [eapply quiet_trans; eassumption|].
      intros e He. discriminate.
    + specialize (IH lastError' st2).
      assert (Hle' : is_error lastError').
      { apply (Hr lastError' eq_refl). right. apply Hl. exact Hkeys. }
      destruct (IH (or_introl Hle')) as [Q3 Herr].
      split; [|exact Herr].
      eapply quiet_trans; [exact Q1|]. eapply quiet_trans; eassumption.
Qed.

Lemma callGemini_clean messages systemPrompt preferredModel (st : state World) :
  clean st (callGemini env messages systemPrompt preferredModel st).
Proof.
  unfold callGemini. destruct (GEMINI_API_KEYS env) as [|k ks] eqn:Ek.
  - unfold throw. split; simpl; [apply quiet_refl|]. intros e He. inversion He. eauto.
  - apply gemini_models_clean; [rewrite Ek; discriminate | right; discriminate].
Qed.

Lemma groq_attempt_clean messages systemPrompt apiKey (st : state World) :
  clean st (groq_attempt env messages systemPrompt apiKey st).
Proof.
  unfold groq_attempt, bind.
  set (st1 := snd (emit (GroqRequest apiKey systemPrompt messages) st)).
  assert (Q1 : quiet st st1) by (apply quiet_emit_request; reflexivity).
  change (emit (GroqRequest apiKey systemPrompt messages) st) with (Returned tt, st1).
  destruct (call_run (groq_chat_completions env apiKey systemPrompt messages) st1)
    as (w & [(text & E) | (m & E)]); rewrite E.
  - unfold ret. split; simpl; [eapply quiet_trans; [exact Q1 | apply quiet_set_world]|].
    intros e He. discriminate.
  - split; simpl; [eapply quiet_trans; [exact Q1 | apply quiet_set_world]|].
    intros e He. inversion He. eauto.
Qed.

Lemma groq_keys_clean messages systemPrompt keys :
  forall lastError (st : state World),
    is_error lastError \/ keys <> [] ->
    clean st (groq_keys env messages systemPrompt keys lastError st).
Proof.
  induction keys as [|apiKey rest IH]; intros lastError st Hle.
  - destruct Hle as [(m & ->)|H]; [|congruence].
    simpl. unfold throw. split; simpl; [apply quiet_refl|].
    intros e He. inversion He. eauto.
  - simpl. unfold try_catch.
    pose proof (groq_attempt_clean messages systemPrompt apiKey st) as [Q Herr].
    destruct (groq_attempt env messages systemPrompt apiKey st) as [[r|e] st1]; simpl in *.
    + split; simpl; [exact Q|]. intros e He. discriminate.
    + destruct (Herr e eq_refl) as [m ->]. unfold bind, message_of, ret.
      destruct (IH (Some (Error m)) st1) as [Q' Herr'].
      { left. exists m. reflexivity. }
      split; [eapply quiet_trans; eassumption | exact Herr'].
Qed.

Lemma callGroq_clean messages systemPrompt (st : state World) :
  clean st (callGroq env messages systemPrompt st).
Proof.
  unfold callGroq. destruct (GROQ_API_KEYS env) as [|k ks] eqn:Ek.
  - unfold throw. split; simpl; [apply quiet_refl|]. intros e He. inversion He. eauto.
  - unfold bind.
    destruct (shuffled_run (k :: ks) st) as (l & st1 & E & Q1 & Hl). rewrite E.
    destruct (groq_keys_clean messages systemPrompt l None st1) as [Q2 Herr].
    { right. apply Hl. discriminate. }
    split; [eapply quiet_trans; eassumption | exact Herr].
Qed.

(** One attempt of a provider enters that provider and no other, and
    throws nothing but Error objects. *)
Lemma try_provider_run p messages systemPrompt options (st : state World) :
  let run := try_provider env p messages systemPrompt options st in
  (exists evs, trace (snd run) = (trace st ++ evs)%list /\ providers_tried evs = [p])
  /\ (forall e, fst run = Thrown e -> exists m, e = Error m)
  /\ same_store st (snd run).
Proof.
  unfold try_provider.
  set (st1 := snd (emit (TryProvider p) st)).
  assert (T1 : trace st1 = (trace st ++ [TryProvider p])%list) by reflexivity.
  assert (S1 : same_store st st1) by (repeat split).
  destruct p; unfold tryGemini, tryGroq, bind;
    change (emit (TryProvider _) st) with (Returned tt, st1); cbv zeta.
  - destruct (callGemini_clean messages systemPrompt
                (preferredModel_of match options with Some o => o | None => default_options end) st1)
      as [(S2 & evs & Hev & Hp) Herr].
    split; [|split; [exact Herr | exact (same_store_trans _ _ _ S1 S2)]].
    exists (TryProvider GEMINI :: evs). split.
    + rewrite Hev, T1, <- app_assoc. reflexivity.
    + change (providers_tried (TryProvider GEMINI :: evs))
        with (GEMINI :: providers_tried evs).
      rewrite Hp. reflexivity.
  - destruct (callGroq_clean messages systemPrompt st1) as [(S2 & evs & Hev & Hp) Herr].
    split; [|split; [exact Herr | exact (same_store_trans _ _ _ S1 S2)]].
    exists (TryProvider GROQ :: evs). split.
    + rewrite Hev, T1, <- app_assoc. reflexivity.
    + change (providers_tried (TryProvider GROQ :: evs))
        with (GROQ :: providers_tried evs).
      rewrite Hp. reflexivity.
Qed.

(** [getLLMResponse] is the preferred provider, then on failure the other
    one, then the degraded answer. *)
Lemma getLLMResponse_unfold messages systemPrompt options :
  getLLMResponse env messages systemPrompt options
  = try_catch (try_provider env (preferred options) messages systemPrompt options)
      (fun e1 =>
         _ <- message_of e1 ;;
         try_catch (try_provider env (other (preferred options)) messages systemPrompt options)
           (fun e2 => ret unavailable)).
Proof.
  unfold getLLMResponse, preferred, try_provider.
  destruct (String.eqb (provider_of match options with Some o => o | None => default_options end)
              "GEMINI"); reflexivity.
Qed.

(** [getLLMResponse] always returns, after entering the preferred
    provider and at most once more the other one. *)
Lemma getLLMResponse_returns
    (messages : list message) (systemPrompt : string)
    (options : option llm_options) (st : state World) :
  exists r st' evs,
    getLLMResponse env messages systemPrompt options st = (Returned r, st')
    /\ trace st' = (trace st ++ evs)%list
    /\ (providers_tried evs = [preferred options]
        \/ providers_tried evs = [preferred options; other (preferred options)])
    /\ same_store st st'.
Proof.
  rewrite getLLMResponse_unfold. unfold try_catch, bind, message_of, ret.
  pose proof (try_provider_run (preferred options) messages systemPrompt options st)
    as [(evs1 & T1 & P1) [Herr1 S1]].
  destruct (try_provider env (preferred options) messages systemPrompt options st)
    as [[r1|e1] st1]; simpl in T1, Herr1, S1.
  - exists r1, st1, evs1. split; [reflexivity|].
    split; [exact T1|]. split; [left; exact P1 | exact S1].
  - destruct (Herr1 e1 eq_refl) as [m1 ->].
    pose proof (try_provider_run (other (preferred options)) messages systemPrompt options st1)
      as [(evs2 & T2 & P2) [_ S2]].
    assert (P12 : providers_tried (evs1 ++ evs2)
                  = [preferred options; other (preferred options)]).
    { unfold providers_tried in *. rewrite flat_map_app, P1, P2. reflexivity. }
    destruct (try_provider env (other (preferred options)) messages systemPrompt options st1)
      as [[r2|e2] st2]; simpl in T2, S2.
    + exists r2, st2, (evs1 ++ evs2)%list. split; [reflexivity|].
      split; [rewrite T2, T1, app_assoc; reflexivity|].
      split; [right; exact P12 | exact (same_store_trans _ _ _ S1 S2)].
    + exists unavailable, st2, (evs1 ++ evs2)%list. split; [reflexivity|].
      split; [rewrite T2, T1, app_assoc; reflexivity|].
      split; [right; exact P12 | exact (same_store_trans _ _ _ S1 S2)].
Qed.

(** C1.  From every state and for every messages, system prompt and
    options, [getLLMResponse] returns (it never throws), having entered the
    preferred provider and at most once more the other one, in this order.
    When the preferred provider fails and then the other one fails too, the
    value returned is the degraded answer, whose [text] is a non-empty
    sentence and whose [error] is true. *)
Theorem getLLMResponse_never_throws_and_degrades
    (messages : list message) (systemPrompt : string)
    (options : option llm_options) (st : state World) :
  (exists r st' evs,
      getLLMResponse env messages systemPrompt options st = (Returned r, st')
      /\ trace st' = (trace st ++ evs)%list
      /\ (providers_tried evs = [preferred options]
          \/ providers_tried evs = [preferred options; other (preferred options)]))
  /\ (forall e1 st1 e2 st2,
        try_provider env (preferred options) messages systemPrompt options st
        = (Thrown e1, st1) ->
        try_provider env (other (preferred options)) messages systemPrompt options st1
        = (Thrown e2, st2) ->
        getLLMResponse env messages systemPrompt options st = (Returned unavailable, st2)
        /\ exists evs,
            trace st2 = (trace st ++ evs)%list
            /\ providers_tried evs = [preferred options; other (preferred options)])
  /\ (exists text,
        unavailable = [("text", VStr text); ("error", VBool true)]
        /\ text <> ""
        /\ Js.truthy (Js.get_own unavailable "error") = true).
Proof.
  split.
  { destruct (getLLMResponse_returns messages systemPrompt options st)
      as (r & st' & evs & E & T & P & _).
    exists r, st', evs. split; [exact E|]. split; [exact T | exact P]. }
  split; [|eexists; split; [reflexivity|]; split; [discriminate | reflexivity]].
  intros e1 st1 e2 st2 H1 H2.
  rewrite getLLMResponse_unfold. unfold try_catch, bind. rewrite H1.
  pose proof (try_provider_run (preferred options) messages systemPrompt options st)
    as [(evs1 & T1 & P1) [Herr1 _]].
  rewrite H1 in T1, Herr1. simpl in T1, Herr1.
  destruct (Herr1 e1 eq_refl) as [m1 ->].
  unfold message_of, ret. rewrite H2.
  split; [reflexivity|].
  pose proof (try_provider_run (other (preferred options)) messages systemPrompt options st1)
    as [(evs2 & T2 & P2) _].
  rewrite H2 in T2. simpl in T2.
  exists (evs1 ++ evs2)%list. split.
  - rewrite T2, T1, app_assoc. reflexivity.
  - unfold providers_tried in *. rewrite flat_map_app, P1, P2. reflexivity.
Qed.

End RouterFacts.

(** With both endpoints down, a call that prefers Gemini answers with the
    degraded object after entering Gemini and then Groq. *)
Lemma getLLMResponse_never_throws_and_degrades_witness :
  exists st2,
    AiService.getLLMResponse Spec.endpoints_down
      [ {| role := "user"; content := "hello" |} ] "You are a counsellor."
      (Some (AiService.OptObject (Some "GEMINI") None)) Spec.empty_state
    = (Returned AiService.unavailable, st2)
    /\ Spec.providers_tried (trace st2) = [GEMINI; GROQ].
Proof.
  destruct (getLLMResponse_never_throws_and_degrades Spec.endpoints_down
              [ {| role := "user"; content := "hello" |} ] "You are a counsellor."
              (Some (AiService.OptObject (Some "GEMINI") None)) Spec.empty_state)
    as (_ & Hboth & _).
  edestruct Hboth as [E (evs & T & P)]; [vm_compute; reflexivity | vm_compute; reflexivity |].
  eexists. split; [exact E|].
  simpl in T. rewrite T. exact P.
Defined.

(** ** enrichUniversity *)

Section EnrichFacts.
Import AiService Spec EnrichmentCache.
Context {World : Type}.
Variable env : environment World.
Variable prompts : templates.
Local Open Scope js_scope.

Lemma getCachedEnrichment_run name country (st : state World) :
  exists r st',
    AiService.getCachedEnrichment env name country st = (Returned r, st')
    /\ trace st' = trace st.
Proof.
  unfold AiService.getCachedEnrichment.
  destruct (Js.single _) as [data|].
  - destruct (Date_now env (world st)) as [now w].
    destruct (fst (EnrichmentCache.getCachedEnrichment _ _ _ _ _)) as [hit|].
    + destruct (Date_now env w) as [accessed w'].
      eexists _, _. split; reflexivity.
    + eexists _, _. split; reflexivity.
  - exists None, st. split; reflexivity.
Qed.

Lemma setCachedEnrichment_run name country enrichedData source (st : state World) :
  exists d st',
    AiService.setCachedEnrichment env name country enrichedData source st = (Returned d, st')
    /\ trace st' = trace st.
Proof.
  unfold AiService.setCachedEnrichment, bind, ask.
  destruct (Date_now env (world st)) as [created w1]. simpl.
  destruct (Date_now env w1) as [accessed w2]. simpl.
  destruct (uuid_generate_v4 env w2) as [new_id w3]. simpl.
  destruct (EnrichmentCache.setCachedEnrichment _ _ _ _ _ _ _ _) as [data t'].
  eexists _, _. split; reflexivity.
Qed.

Lemma enrichedData_of_run name country response (st : state World) :
  exists o, enrichedData_of name country response st = (o, st).
Proof.
  unfold enrichedData_of, ret, throw.
  repeat match goal with
         | |- context [if ?b then _ else _] => destruct b
         | |- context [match ?x with _ => _ end] => destruct x
         end; eexists; reflexivity.
Qed.

(** A fresh enrichment always returns a value marked [cached: false],
    after consulting the router, which starts with Gemini. *)
Lemma enrich_fresh_run name country (st : state World) :
  exists r st' evs,
    enrich_fresh env prompts name country st = (Returned r, st')
    /\ cached (_cache_meta r) = false
    /\ trace st' = (trace st ++ evs)%list
    /\ (providers_tried evs = [GEMINI] \/ providers_tried evs = [GEMINI; GROQ]).
Proof.
  unfold enrich_fresh, try_catch, bind.
  destruct (getLLMResponse_returns env
              [ {| role := "user"; content := "Enrich data for " ++ name ++ " in " ++ country |} ]
              (enrichment_systemPrompt prompts name country)
              (Some (OptObject (Some "GEMINI") (Some "gemini-2.5-flash-lite"))) st)
    as (response & st1 & evs & E & T & P & _).
  rewrite E.
  destruct (enrichedData_of_run name country response st1) as (o & Eo). rewrite Eo.
  destruct o as [enrichedData | e].
  - destruct (setCachedEnrichment_run name country enrichedData (source_of response) st1)
      as (d & st2 & Es & Ts).
    rewrite Es.
    destruct (ask_run (Date_now env) st2) as (created & w & Ea). rewrite Ea.
    unfold ret. eexists _, _, evs. split; [reflexivity|]. split; [reflexivity|].
    split; [simpl; rewrite Ts; exact T | exact P].
  - unfold ret. eexists _, _, evs. split; [reflexivity|]. split; [reflexivity|].
    split; [exact T | exact P].
Qed.

(** C10 (as amended).  A value [enrichUniversity] returns with
    [_cache_meta.cached = true] has no truthy [error] in its payload; and
    when the cache lookup yields a record whose [error] is truthy, the
    record is set aside and a fresh enrichment runs: the router is consulted
    (Gemini first) and the value returned is marked [cached: false]. *)
Theorem enrichUniversity_serves_no_truthy_error_from_cache
    (name country : string) (st : state World) :
  (forall r st',
      enrichUniversity env prompts name country st = (Returned r, st') ->
      cached (_cache_meta r) = true ->
      Js.truthy (Js.get_own (fields r) "error") = false)
  /\ (forall c st1,
        AiService.getCachedEnrichment env name country st = (Returned (Some c), st1) ->
        Js.truthy (Js.get_own (fields c) "error") = true ->
        enrichUniversity env prompts name country st
        = enrich_fresh env prompts name country st1
        /\ exists r st' evs,
            enrichUniversity env prompts name country st = (Returned r, st')
            /\ cached (_cache_meta r) = false
            /\ trace st' = (trace st ++ evs)%list
            /\ hd_error (providers_tried evs) = Some GEMINI).
Proof.
  split.
  - intros r st' Hrun Hcached.
    unfold enrichUniversity, bind in Hrun.
    destruct (getCachedEnrichment_run name country st) as (c & st1 & E & _).
    rewrite E in Hrun.
    destruct c as [c|].
    + destruct (Js.truthy (Js.get_own (fields c) "error")) eqn:Eerr; simpl in Hrun.
      * destruct (enrich_fresh_run name country st1) as (r' & st2 & evs & E' & Hc & _).
        rewrite E' in Hrun. inversion Hrun; subst. congruence.
      * unfold ret in Hrun. inversion Hrun; subst. exact Eerr.
    + destruct (enrich_fresh_run name country st1) as (r' & st2 & evs & E' & Hc & _).
      rewrite E' in Hrun. inversion Hrun; subst. congruence.
  - intros c st1 Hlookup Herr.
    assert (Hunf : enrichUniversity env prompts name country st
                   = enrich_fresh env prompts name country st1).
    { unfold enrichUniversity, bind. rewrite Hlookup, Herr. reflexivity. }
    split; [exact Hunf|].
    destruct (getCachedEnrichment_run name country st) as (c' & st1' & E & T1).
    rewrite Hlookup in E. inversion E; subst.
    destruct (enrich_fresh_run name country st1') as (r & st2 & evs & E' & Hc & T & P).
    exists r, st2, evs. rewrite Hunf.
    split; [exact E'|]. split; [exact Hc|]. split; [rewrite T, T1; reflexivity|].
    destruct P as [-> | ->]; reflexivity.
Qed.

End EnrichFacts.

(** C10 (counterexample).  A fresh cache row whose payload reads
    [{ name: ..., error: false }] is served as a hit: the value returned is
    marked [cached: true] and its payload has an [error] field. *)
Lemma cached_values_have_no_error_field_fails :
  ~ Spec.cached_values_have_no_error_field.
Proof.
  intros H.
  pose proof (H unit Spec.endpoints_down Spec.sample_prompts
                "Example Institute" "Testland" Spec.state_with_false_error) as H'.
  specialize (H' (snd (AiService.enrichUniversity Spec.endpoints_down Spec.sample_prompts
                         "Example Institute" "Testland" Spec.state_with_false_error))
                 (EnrichmentCache.hit_of Spec.row_with_false_error)).
  assert (E : Js.has_own "error"
                (EnrichmentCache.fields (EnrichmentCache.hit_of Spec.row_with_false_error))
              = false)
    by (apply H'; reflexivity).
  discriminate E.
Qed.

(** ** Text clean-up: no step adds a character *)

Section TextFacts.
Import JsStr.

Variable c : ascii.

Lemma strip_prefix_mem p : forall s r,
  strip_prefix p s = Some r -> mem c r = true -> mem c s = true.
Proof.
  induction p as [|a p IH]; intros s r H Hm; simpl in H.
  - inversion H; subst. exact Hm.
  - destruct s as [|b s]; [discriminate|].
    destruct (Ascii.eqb a b); [|discriminate].
    simpl. rewrite (IH s r H Hm). apply orb_true_r.
Qed.

Lemma strip_optional_mem p s :
  mem c (strip_optional p s) = true -> mem c s = true.
Proof.
  unfold strip_optional. destruct (strip_prefix p s) as [r|] eqn:E; [|exact (fun H => H)].
  apply (strip_prefix_mem p s r E).
Qed.

Lemma remove_all_fuel_mem pat opt_nl : forall fuel s,
  mem c (remove_all_fuel fuel pat opt_nl s) = true -> mem c s = true.
Proof.
  induction fuel as [|fuel IH]; intros s H; simpl in H; [exact H|].
  destruct (strip_prefix pat s) as [rest|] eqn:E.
  - apply (strip_prefix_mem pat s rest E).
    apply IH in H. destruct opt_nl; [apply strip_optional_mem in H|]; exact H.
  - destruct s as [|a s]; [exact H|].
    simpl in *. apply orb_true_iff in H. destruct H as [H|H].
    + rewrite H. reflexivity.
    + rewrite (IH s H). apply orb_true_r.
Qed.

Lemma remove_all_mem pat opt_nl s :
  mem c (remove_all pat opt_nl s) = true -> mem c s = true.
Proof. apply remove_all_fuel_mem. Qed.

Lemma trimStart_mem : forall n s,
  (String.length s <= n)%nat -> mem c (trimStart s) = true -> mem c s = true.
Proof.
  induction n as [|n IH]; intros s Hlen H.
  - destruct s; [exact H | simpl in Hlen; lia].
  - destruct s as [|c1 s1]; [exact H|].
    simpl in Hlen. cbn [trimStart] in H.
    destruct (ws1 c1).
    { simpl. rewrite (IH s1 ltac:(lia) H). apply orb_true_r. }
    destruct s1 as [|c2 s2]; [exact H|]. simpl in Hlen.
    destruct (ws2 c1 c2).
    { simpl. rewrite (IH s2 ltac:(lia) H). rewrite !orb_true_r. reflexivity. }
    destruct s2 as [|c3 s3]; [exact H|]. simpl in Hlen.
    destruct (ws3 c1 c2 c3); [|exact H].
    simpl. rewrite (IH s3 ltac:(lia) H). rewrite !orb_true_r. reflexivity.
Qed.

Lemma trimStart_rev_mem : forall n s,
  (String.length s <= n)%nat -> mem c (trimStart_rev s) = true -> mem c s = true.
Proof.
  induction n as [|n IH]; intros s Hlen H.
  - destruct s; [exact H | simpl in Hlen; lia].
  - destruct s as [|c1 s1]; [exact H|].
    simpl in Hlen. cbn [trimStart_rev] in H.
    destruct (ws1 c1).
    { simpl. rewrite (IH s1 ltac:(lia) H). apply orb_true_r. }
    destruct s1 as [|c2 s2]; [exact H|]. simpl in Hlen.
    destruct (ws2 c2 c1).
    { simpl. rewrite (IH s2 ltac:(lia) H). rewrite !orb_true_r. reflexivity. }
    destruct s2 as [|c3 s3]; [exact H|]. simpl in Hlen.
    destruct (ws3 c3 c2 c1); [|exact H].
    simpl. rewrite (IH s3 ltac:(lia) H). rewrite !orb_true_r. reflexivity.
Qed.

Lemma rev_append_mem : forall s acc,
  mem c (rev_append s acc) = mem c s || mem c acc.
Proof.
  induction s as [|a s IH]; intros acc; simpl; [reflexivity|].
  rewrite IH. simpl. destruct (Ascii.eqb a c), (mem c s), (mem c acc); reflexivity.
Qed.

Lemma rev_mem s : mem c (rev s) = mem c s.
Proof. unfold rev. rewrite rev_append_mem. simpl. apply orb_false_r. Qed.

Lemma trim_mem s : mem c (trim s) = true -> mem c s = true.
Proof.
  unfold trim, trimEnd. rewrite rev_mem. intros H.
  apply (trimStart_rev_mem _ _ (Nat.le_refl _)) in H. rewrite rev_mem in H.
  exact (trimStart_mem _ _ (Nat.le_refl _) H).
Qed.

Lemma strip_fences_mem s :
  mem c (AiService.strip_fences s) = true -> mem c s = true.
Proof.
  unfold AiService.strip_fences. intros H.
  apply trim_mem, remove_all_mem, remove_all_mem in H. exact H.
Qed.

Lemma from_first_absent s : mem c s = false -> from_first c s = None.
Proof.
  induction s as [|d s IH]; simpl; [reflexivity|].
  destruct (Ascii.eqb d c); simpl; [discriminate | exact IH].
Qed.

Lemma match_bracketed_absent close s :
  mem c s = false -> match_bracketed c close s = None.
Proof. intros H. unfold match_bracketed. rewrite (from_first_absent s H). reflexivity. Qed.

End TextFacts.

(** ** The discovery analysis *)

Section DiscoveryFacts.
Import JsStr AiService DiscoveryAnalysis Spec Requests.
Context {World : Type}.
Variable env : environment World.
Variable prompts : templates.
Local Open Scope js_scope.

Lemma parse_text_without_brace s :
  mem "{" s = false -> parse_text s = None.
Proof.
  intros H. unfold parse_text.
  rewrite match_bracketed_absent; [reflexivity|].
  destruct (mem "{" (strip_fences s)) eqn:E; [|reflexivity].
  apply strip_fences_mem in E. congruence.
Qed.

Lemma parse_response_without_brace prose response :
  mem "{" prose = false ->
  prose <> "" ->
  Js.get_own response "text" = VStr prose ->
  Js.truthy (Js.or (Js.get_own response "profile_fit")
                   (Js.get_own response "budget_analysis")) = false ->
  parse_response (VObj response) = None.
Proof.
  intros Hb Hne Htext Hdata.
  unfold parse_response, Js.get_opt, Js.get. simpl. rewrite Hdata, Htext. simpl.
  destruct (String.eqb prose "") eqn:E; [apply String.eqb_eq in E; contradiction|].
  simpl. apply parse_text_without_brace. exact Hb.
Qed.



Lemma joins_opt_or v : joins_opt v = true -> joins (Js.or v (VArr [])) = true.
Proof. destruct v; simpl; intros H; try discriminate H; try reflexivity; exact H. Qed.

Lemma cacheAnalysis_run userId universityId a (st : state World) :
  cacheAnalysis env userId universityId a st
  = (Returned tt,
     set_analyses
       (upsert_analysis
          {| user_id := userId; university_id := universityId;
             analysis := a; analyzed_at := fst (Date_now env (world st)) |}
          (user_university_analyses st))
       (set_world (snd (Date_now env (world st))) st)).
Proof.
  unfold cacheAnalysis, bind, ask.
  destruct (Date_now env (world st)) as [now w]. reflexivity.
Qed.

(** Steps 6 and 7 on a response: a parsed analysis is completed, stored
    under the pair and returned; a response that does not parse gives the
    default analysis, or the TypeError of the preview, and nothing is
    stored. *)
Lemma finish_analysis_run userId universityId response (st : state World) :
  match parse_response (VObj response) with
  | Some parsed =>
      finish_analysis env userId universityId response st
      = (Returned (complete_with_defaults parsed),
         set_analyses
           (upsert_analysis
              {| user_id := userId; university_id := universityId;
                 analysis := complete_with_defaults parsed;
                 analyzed_at := fst (Date_now env (world st)) |}
              (user_university_analyses st))
           (set_world (snd (Date_now env (world st))) st))
  | None =>
      exists o,
        finish_analysis env userId universityId response st = (o, st)
        /\ (o = Returned getDefaultAnalysis \/ exists m, o = Thrown (Error m))
        /\ (preview_throws response = false -> o = Returned getDefaultAnalysis)
  end.
Proof.
  unfold finish_analysis.
  destruct (parse_response (VObj response)) as [parsed|].
  - unfold bind. rewrite cacheAnalysis_run. reflexivity.
  - destruct (preview_throws response).
    + eexists. split; [reflexivity|]. split; [right; eexists; reflexivity | discriminate].
    + eexists. split; [reflexivity|]. split; [left; reflexivity | reflexivity].
Qed.

(** Steps 3 to 7 for an existing university and a profile whose preferred
    countries can be joined: the router is asked, Groq first, and steps 6
    and 7 run on its response. *)
Lemma analyze_fresh_run userId universityId profile university (st : state World) :
  lookup universityId (universities st) = Some university ->
  joins_opt (Js.get_own profile "preferred_countries") = true ->
  exists response st1 evs,
    discovery_request env prompts profile university st = (Returned response, st1)
    /\ trace st1 = (trace st ++ evs)%list
    /\ hd_error (providers_tried evs) = Some GROQ
    /\ same_store st st1
    /\ analyze_fresh env prompts userId universityId profile st
       = finish_analysis env userId universityId response st1.
Proof.
  intros Hu Hj.
  destruct (getLLMResponse_returns env
              [ {| role := "user"; content := discovery_userPrompt prompts university |} ]
              (discovery_systemPrompt prompts profile university)
              (Some (OptString "GROQ")) st) as (response & st1 & evs & E & T & P & S).
  exists response, st1, evs. unfold discovery_request.
  split; [exact E|]. split; [exact T|].
  split; [destruct P as [-> | ->]; reflexivity|]. split; [exact S|].
  unfold analyze_fresh, bind, fetch_university. rewrite Hu.
  unfold buildDiscoveryPrompt. rewrite (joins_opt_or _ Hj).
  unfold ret. rewrite E. reflexivity.
Qed.

(** Steps 3 to 7 return or throw an Error object. *)
Lemma analyze_fresh_outcome userId universityId profile (st : state World) :
  exists o st',
    analyze_fresh env prompts userId universityId profile st = (o, st')
    /\ ((exists r, o = Returned r) \/ (exists m, o = Thrown (Error m))).
Proof.
  unfold analyze_fresh, bind, fetch_university.
  destruct (lookup universityId (universities st)) as [university|];
    [|eexists _, _; split; [reflexivity | right; eexists; reflexivity]].
  unfold buildDiscoveryPrompt.
  destruct (joins (Js.or (Js.get_own profile "preferred_countries") (VArr [])));
    [|eexists _, _; split; [reflexivity | right; eexists; reflexivity]].
  unfold ret.
  destruct (getLLMResponse_returns env
              [ {| role := "user"; content := discovery_userPrompt prompts university |} ]
              (discovery_systemPrompt prompts profile university)
              (Some (OptString "GROQ")) st) as (response & st1 & evs & E & _).
  rewrite E.
  pose proof (finish_analysis_run userId universityId response st1) as Hf.
  destruct (parse_response (VObj response)) as [parsed|].
  - rewrite Hf. eexists _, _. split; [reflexivity | left; eexists; reflexivity].
  - destruct Hf as (o & Ho & Hcases & _). rewrite Ho.
    exists o, st1. split; [reflexivity|].
    destruct Hcases as [-> | (m & ->)]; [left | right]; eexists; reflexivity.
Qed.

Lemma cache_usable_run cached shouldIgnoreCache (st : state World) :
  cache_usable env cached shouldIgnoreCache st
  = match cached with
    | Some c =>
        (Returned (negb (isStale (fst (Date_now env (world st))) (analyzed_at c))
                   && isValidAnalysis (analysis c) && negb shouldIgnoreCache),
         set_world (snd (Date_now env (world st))) st)
    | None => (Returned false, st)
    end.
Proof.
  unfold cache_usable. destruct cached as [c|]; [|reflexivity].
  unfold bind, ask. destruct (Date_now env (world st)) as [now w]. reflexivity.
Qed.

(** The body of the outer [try] returns or throws an Error object. *)
Lemma analyze_body_run userId universityId (st : state World) :
  exists o st',
    analyze_body env prompts userId universityId st = (o, st')
    /\ ((exists r, o = Returned r) \/ (exists m, o = Thrown (Error m))).
Proof.
  unfold analyze_body, bind, fetch_profile, log_profile, getCachedAnalysis.
  assert (Hthrow : forall (A : Type) m (s : state World),
             exists o st',
               (@Thrown A (Error m), s) = (o, st')
               /\ ((exists r, o = Returned r) \/ (exists m', o = Thrown (Error m'))))
    by (intros; eexists _, _; split; [reflexivity | right; eexists; reflexivity]).
  assert (Hret : forall (r : value) (s : state World),
             exists o st',
               (Returned r, s) = (o, st')
               /\ ((exists r', o = Returned r') \/ (exists m', o = Thrown (Error m'))))
    by (intros; eexists _, _; split; [reflexivity | left; eexists; reflexivity]).
  destruct (lookup userId (profiles st)) as [p|].
  - destruct (joins_opt (Js.get_own p "preferred_countries")); [|apply Hthrow].
    unfold ret at 1. cbv beta iota.
    destruct (isGenericCache _) as [isGeneric|]; [|apply Hthrow].
    unfold ret at 1. cbv beta iota.
    rewrite cache_usable_run.
    destruct (Js.single _) as [c|].
    + destruct (_ && _ && _); [apply Hret | apply analyze_fresh_outcome].
    + apply analyze_fresh_outcome.
  - unfold ret at 1. cbv beta iota.
    destruct (isGenericCache _) as [isGeneric|]; [|apply Hthrow].
    unfold ret at 1. cbv beta iota.
    rewrite cache_usable_run.
    destruct (Js.single _) as [c|].
    + destruct (_ && _ && _); apply Hret.
    + apply Hret.
Qed.

(** [analyzeUniversityForDiscovery] always returns. *)
Lemma analyzeUniversityForDiscovery_returns userId universityId (st : state World) :
  exists r st',
    analyzeUniversityForDiscovery env prompts userId universityId st = (Returned r, st').
Proof.
  unfold analyzeUniversityForDiscovery, try_catch.
  destruct (analyze_body_run userId universityId st) as (o & st' & E & [(r & ->) | (m & ->)]);
    rewrite E; [eauto|].
  unfold bind, message_of, ret. eauto.
Qed.

(** The call for a user with a profile whose preferred countries can be
    joined and a stored row that either does not exist or is passed over:
    steps 3 to 7 inside the outer [try], from the state [st0] reached after
    the cache test. *)
Lemma analyze_miss_run userId universityId p university (st st0 : state World) :
  lookup userId (profiles st) = Some p ->
  joins_opt (Js.get_own p "preferred_countries") = true ->
  lookup universityId (universities st) = Some university ->
  analyze_body env prompts userId universityId st
  = analyze_fresh env prompts userId universityId p st0 ->
  universities st0 = universities st ->
  trace st0 = trace st ->
  exists response st1 evs,
    discovery_request env prompts p university st0 = (Returned response, st1)
    /\ trace st1 = (trace st ++ evs)%list
    /\ hd_error (providers_tried evs) = Some GROQ
    /\ same_store st0 st1
    /\ match parse_response (VObj response) with
       | Some parsed =>
           analyzeUniversityForDiscovery env prompts userId universityId st
           = (Returned (complete_with_defaults parsed),
              set_analyses
                (upsert_analysis
                   {| user_id := userId; university_id := universityId;
                      analysis := complete_with_defaults parsed;
                      analyzed_at := fst (Date_now env (world st1)) |}
                   (user_university_analyses st1))
                (set_world (snd (Date_now env (world st1))) st1))
       | None =>
           analyzeUniversityForDiscovery env prompts userId universityId st
           = (Returned getDefaultAnalysis, st1)
       end.
Proof.
  intros Hp Hj Hu Hbody Hunis Htrace.
  assert (Hu0 : lookup universityId (universities st0) = Some university)
    by (rewrite Hunis; exact Hu).
  destruct (analyze_fresh_run userId universityId p university st0 Hu0 Hj)
    as (response & st1 & evs & Ereq & T & P & S & Efresh).
  exists response, st1, evs.
  split; [exact Ereq|]. split; [rewrite T, Htrace; reflexivity|].
  split; [exact P|]. split; [exact S|].
  pose proof (finish_analysis_run userId universityId response st1) as Hf.
  unfold analyzeUniversityForDiscovery, try_catch. rewrite Hbody, Efresh.
  destruct (parse_response (VObj response)) as [parsed|].
  - rewrite Hf. reflexivity.
  - destruct Hf as (o & Ho & Hcases & _). rewrite Ho.
    destruct Hcases as [-> | (m & ->)]; reflexivity.
Qed.

(** C7.  The parsing step on the fenced text with a trailing comma,
    [```json\n{"a":1,}\n```]: the fences are stripped, which leaves
    [{"a":1,}]; the first parse of the braces fails; the comma before the
    closing brace is removed, which leaves [{"a":1}]; the second parse gives
    the object [{a: 1}], whether the text arrives as a bare string or as the
    [text] of a response object that carries no analysis data.  Steps 6 and
    7 then complete that object with the defaults, store it and return it.  A non-empty text without an
    opening brace ends the parsing step in its [catch], for a bare string
    and for a response object that carries no analysis data alike; steps 6
    and 7 then return the default analysis, store nothing and throw
    nothing, and so does the whole call when the router comes back with
    such a response. *)
Theorem parse_response_repairs_and_never_throws :
  (strip_fences fenced_trailing_comma = "{" ++ dq ++ "a" ++ dq ++ ":1,}"
   /\ match_bracketed "{" "}" (strip_fences fenced_trailing_comma)
      = Some ("{" ++ dq ++ "a" ++ dq ++ ":1,}")
   /\ JSON.parse ("{" ++ dq ++ "a" ++ dq ++ ":1,}") = None
   /\ trim (drop_comma_before "]" (drop_comma_before "}" ("{" ++ dq ++ "a" ++ dq ++ ":1,}")))
      = "{" ++ dq ++ "a" ++ dq ++ ":1}"
   /\ JSON.parse ("{" ++ dq ++ "a" ++ dq ++ ":1}") = Some (VObj [("a", VNum 1)]))
  /\ parse_response (VStr fenced_trailing_comma) = Some (VObj [("a", VNum 1)])
  /\ (forall response userId universityId (st : state World),
        Js.get_own response "text" = VStr fenced_trailing_comma ->
        Js.truthy (Js.or (Js.get_own response "profile_fit")
                         (Js.get_own response "budget_analysis")) = false ->
        parse_response (VObj response) = Some (VObj [("a", VNum 1)])
        /\ finish_analysis env userId universityId response st
           = (Returned (VObj (Js.spread (own_props getDefaultAnalysis) [("a", VNum 1)])),
              set_analyses
                (upsert_analysis
                   {| user_id := userId; university_id := universityId;
                      analysis :=
                        VObj (Js.spread (own_props getDefaultAnalysis) [("a", VNum 1)]);
                      analyzed_at := fst (Date_now env (world st)) |}
                   (user_university_analyses st))
                (set_world (snd (Date_now env (world st))) st)))
  /\ (forall prose, mem "{" prose = false -> parse_response (VStr prose) = None)
  /\ (forall prose response userId universityId (st : state World),
        mem "{" prose = false ->
        prose <> "" ->
        Js.get_own response "text" = VStr prose ->
        Js.truthy (Js.or (Js.get_own response "profile_fit")
                         (Js.get_own response "budget_analysis")) = false ->
        parse_response (VObj response) = None
        /\ finish_analysis env userId universityId response st
           = (Returned getDefaultAnalysis, st))
  /\ (forall prose response userId universityId p university (st st1 : state World),
        mem "{" prose = false ->
        prose <> "" ->
        Js.get_own response "text" = VStr prose ->
        Js.truthy (Js.or (Js.get_own response "profile_fit")
                         (Js.get_own response "budget_analysis")) = false ->
        lookup userId (profiles st) = Some p ->
        joins_opt (Js.get_own p "preferred_countries") = true ->
        Js.single (filter (analysis_key_is userId universityId) (user_university_analyses st))
        = None ->
        lookup universityId (universities st) = Some university ->
        discovery_request env prompts p university st = (Returned response, st1) ->
        analyzeUniversityForDiscovery env prompts userId universityId st
        = (Returned getDefaultAnalysis, st1)
        /\ user_university_analyses st1 = user_university_analyses st).
Proof.
  split; [repeat split; vm_compute; reflexivity|].
  split; [vm_compute; reflexivity|].
  split.
  { intros response userId universityId st Htext Hdata.
    assert (Hparse : parse_response (VObj response) = Some (VObj [("a", VNum 1)])).
    { unfold parse_response, Js.get_opt, Js.get.
      cbn [Js.truthy is_object andb]. rewrite Hdata, Htext.
      vm_compute. reflexivity. }
    split; [exact Hparse|].
    pose proof (finish_analysis_run userId universityId response st) as Hf.
    rewrite Hparse in Hf. exact Hf. }
  split.
  { intros prose H. unfold parse_response. simpl.
    destruct (negb (String.eqb prose "")); simpl; apply parse_text_without_brace; exact H. }
  split.
  { intros prose response userId universityId st Hb Hne Htext Hdata.
    pose proof (parse_response_without_brace prose response Hb Hne Htext Hdata) as Hnone.
    split; [exact Hnone|].
    unfold finish_analysis, preview_throws. rewrite Hnone, Htext. reflexivity. }
  intros prose response userId universityId p university st st1
         Hb Hne Htext Hdata Hp Hj Hc Hu Hreq.
  pose proof (parse_response_without_brace prose response Hb Hne Htext Hdata) as Hnone.
  assert (Hbody : analyze_body env prompts userId universityId st
                  = analyze_fresh env prompts userId universityId p st).
  { unfold analyze_body, bind, fetch_profile, log_profile, getCachedAnalysis.
    rewrite Hp, Hj. unfold ret at 1. cbv beta iota. rewrite Hc. reflexivity. }
  destruct (analyze_miss_run userId universityId p university st st Hp Hj Hu Hbody
              eq_refl eq_refl) as (response' & st1' & evs & Ereq & _ & _ & S & Hrun).
  rewrite Hreq in Ereq. inversion Ereq; subst response' st1'.
  rewrite Hnone in Hrun. split; [exact Hrun|].
  destruct S as (_ & _ & _ & Han). exact Han.
Qed.


End DiscoveryFacts.

(** The fenced text as the Groq client hands it on (its own parse of
    the braces fails, so the text travels unchanged): steps 6 and 7 store
    and return [{a: 1}] completed with the defaults.  And Groq answering in
    prose: the call returns the default analysis and stores nothing. *)
Lemma parse_response_repairs_and_never_throws_witness :
  (DiscoveryAnalysis.parse_response
     (VObj (AiService.groq_result Spec.fenced_trailing_comma))
   = Some (VObj [("a", VNum 1)])
   /\ DiscoveryAnalysis.finish_analysis Spec.endpoints_down "user-1" "uni-1"
        (AiService.groq_result Spec.fenced_trailing_comma) Spec.one_university_state
      = (Returned
           (VObj (Js.spread (AiService.own_props DiscoveryAnalysis.getDefaultAnalysis)
                    [("a", VNum 1)])),
         set_analyses
           [ {| user_id := "user-1"; university_id := "uni-1";
                analysis :=
                  VObj (Js.spread (AiService.own_props DiscoveryAnalysis.getDefaultAnalysis)
                          [("a", VNum 1)]);
                analyzed_at := 1000%Z |} ]
           Spec.one_university_state))
  /\ (DiscoveryAnalysis.analyzeUniversityForDiscovery
        (Spec.groq_answers Requests.prose_answer) Spec.sample_prompts
        "user-1" "uni-1" Spec.one_university_state
      = (Returned DiscoveryAnalysis.getDefaultAnalysis,
         snd (Requests.discovery_request (Spec.groq_answers Requests.prose_answer)
                Spec.sample_prompts [("budget_max", VNum 30000)]
                [("name", VStr "Example Institute"); ("country", VStr "Testland")]
                Spec.one_university_state))
      /\ user_university_analyses
           (snd (Requests.discovery_request (Spec.groq_answers Requests.prose_answer)
                   Spec.sample_prompts [("budget_max", VNum 30000)]
                   [("name", VStr "Example Institute"); ("country", VStr "Testland")]
                   Spec.one_university_state))
         = user_university_analyses Spec.one_university_state).
Proof.
  split.
  - destruct (parse_response_repairs_and_never_throws Spec.endpoints_down Spec.sample_prompts)
      as (_ & _ & H & _).
    exact (H (AiService.groq_result Spec.fenced_trailing_comma) "user-1" "uni-1"
             Spec.one_university_state eq_refl eq_refl).
  - destruct (parse_response_repairs_and_never_throws
                (Spec.groq_answers Requests.prose_answer) Spec.sample_prompts)
      as (_ & _ & _ & _ & _ & H).
    apply (H Requests.prose_answer (AiService.groq_result Requests.prose_answer)
             "user-1" "uni-1" [("budget_max", VNum 30000)]
             [("name", VStr "Example Institute"); ("country", VStr "Testland")]
             Spec.one_university_state).
    + reflexivity.
    + discriminate.
    + reflexivity.
    + reflexivity.
    + reflexivity.
    + reflexivity.
    + reflexivity.
    + reflexivity.
    + vm_compute. reflexivity.
Defined.



(** ** Objects: assignment and spread *)

Section ObjectFacts.

Lemma assoc_set_own_same k (v : value) l : Js.assoc k (Js.set_own k v l) = Some v.
Proof.
  induction l as [|[k' v'] l IH]; simpl.
  - rewrite String.eqb_refl. reflexivity.
  - destruct (String.eqb k k') eqn:E; simpl.
    + rewrite String.eqb_refl. reflexivity.
    + rewrite E. exact IH.
Qed.

Lemma assoc_set_own_other k k' (v : value) l :
  k <> k' -> Js.assoc k (Js.set_own k' v l) = Js.assoc k l.
Proof.
  intros Hne. induction l as [|[k'' v''] l IH]; simpl.
  - apply String.eqb_neq in Hne. rewrite Hne. reflexivity.
  - destruct (String.eqb k' k'') eqn:E; simpl.
    + apply String.eqb_eq in E. subst k''.
      apply String.eqb_neq in Hne. rewrite Hne. reflexivity.
    + destruct (String.eqb k k''); [reflexivity | exact IH].
Qed.

Lemma assoc_insert_index_same i k (v : value) l :
  Js.assoc k l = None -> Js.assoc k (Js.insert_index i k v l) = Some v.
Proof.
  induction l as [|[k' v'] l IH]; simpl; intros H.
  - rewrite String.eqb_refl. reflexivity.
  - destruct (String.eqb k k') eqn:E; [discriminate|].
    destruct (Js.array_index k') as [j|]; [destruct (j <? i)%N|]; simpl;
      rewrite ?E, ?String.eqb_refl; auto.
Qed.

Lemma assoc_insert_index_other i k k' (v : value) l :
  k <> k' -> Js.assoc k (Js.insert_index i k' v l) = Js.assoc k l.
Proof.
  intros Hne. apply String.eqb_neq in Hne.
  induction l as [|[k'' v''] l IH]; simpl.
  - rewrite Hne. reflexivity.
  - destruct (Js.array_index k'') as [j|]; [destruct (j <? i)%N|]; simpl;
      rewrite ?Hne; try reflexivity.
    rewrite IH. reflexivity.
Qed.

(** After [o[k] = v], [o] reads [v] at [k], unless [k] is [__proto__], and
    reads as before at every other key. *)
Lemma assoc_assign_same k (v : value) l :
  k <> "__proto__" -> Js.assoc k (Js.assign k v l) = Some v.
Proof.
  intros Hne. apply String.eqb_neq in Hne. unfold Js.assign, Js.has_own. rewrite Hne.
  destruct (Js.assoc k l) eqn:E; [apply assoc_set_own_same|].
  destruct (Js.array_index k);
    [apply assoc_insert_index_same; exact E | apply assoc_set_own_same].
Qed.

Lemma assoc_assign_other k k' (v : value) l :
  k <> k' -> Js.assoc k (Js.assign k' v l) = Js.assoc k l.
Proof.
  intros Hne. unfold Js.assign.
  destruct (String.eqb k' "__proto__"); [reflexivity|].
  destruct (Js.has_own k' l); [apply assoc_set_own_other; exact Hne|].
  destruct (Js.array_index k');
    [apply assoc_insert_index_other | apply assoc_set_own_other]; exact Hne.
Qed.

(** [{...a, ...b}] reads as [b] where [b] has the key, as [a] elsewhere. *)
Lemma assoc_spread k b : forall a,
  NoDup (map fst b) ->
  Js.assoc k (Js.spread a b)
  = match Js.assoc k b with Some v => Some v | None => Js.assoc k a end.
Proof.
  unfold Js.spread. induction b as [|[k1 v1] b IH]; intros a Hnd; simpl; [reflexivity|].
  inversion Hnd as [|? ? Hnotin Hnd']; subst.
  rewrite (IH _ Hnd'). destruct (String.eqb k k1) eqn:E.
  - apply String.eqb_eq in E. subst k1.
    assert (Hnone : Js.assoc k b = None).
    { clear -Hnotin. induction b as [|[k2 v2] b IH]; simpl; [reflexivity|].
      destruct (String.eqb k k2) eqn:E2.
      - apply String.eqb_eq in E2. subst k2. exfalso. apply Hnotin. left. reflexivity.
      - apply IH. intros H. apply Hnotin. right. exact H. }
    rewrite Hnone. apply assoc_set_own_same.
  - destruct (Js.assoc k b); [reflexivity|].
    apply assoc_set_own_other. apply String.eqb_neq. exact E.
Qed.

Lemma get_own_spread k b a v :
  NoDup (map fst b) -> Js.assoc k b = Some v -> Js.get_own (Js.spread a b) k = v.
Proof.
  intros Hnd Hk. unfold Js.get_own. rewrite (assoc_spread k b a Hnd), Hk. reflexivity.
Qed.

Lemma get_own_spread_old k b a :
  NoDup (map fst b) -> Js.assoc k b = None ->
  Js.get_own (Js.spread a b) k = Js.get_own a k.
Proof.
  intros Hnd Hk. unfold Js.get_own. rewrite (assoc_spread k b a Hnd), Hk. reflexivity.
Qed.

End ObjectFacts.

(** ** The batch step of searchUniversities *)

Section ArrayFacts.
Import UniversityEnrichment Spec.

Lemma array_get_set_same i v a : array_get i (array_set i v a) = v.
Proof.
  unfold array_get. revert a. induction i as [|i IH]; intros [|x a]; simpl; auto.
Qed.

Lemma array_get_set_other i j v a : i <> j -> array_get j (array_set i v a) = array_get j a.
Proof.
  unfold array_get. revert j a. induction i as [|i IH]; intros [|j] [|x a] H; simpl;
    try congruence; try reflexivity.
  - destruct j; reflexivity.
  - rewrite IH by congruence. destruct j; reflexivity.
  - apply IH. congruence.
Qed.


Lemma run_writes_app ws1 ws2 a :
  run_writes (ws1 ++ ws2) a = run_writes ws2 (run_writes ws1 a).
Proof. unfold run_writes. apply fold_left_app. Qed.

Lemma run_writes_untouched ws : forall a j,
  ~ In j (map fst ws) -> array_get j (run_writes ws a) = array_get j a.
Proof.
  induction ws as [|[j0 f0] ws IH]; intros a j H; [reflexivity|].
  simpl in *. change (array_get j (run_writes ws (array_set j0 (f0 (array_get j0 a)) a))
                      = array_get j a).
  rewrite IH by tauto. apply array_get_set_other. tauto.
Qed.

Lemma run_writes_get ws : forall a j f,
  NoDup (map fst ws) -> In (j, f) ws ->
  array_get j (run_writes ws a) = f (array_get j a).
Proof.
  induction ws as [|[j0 f0] ws IH]; intros a j f Hnd Hin; [destruct Hin|].
  simpl in Hnd. inversion Hnd as [|? ? Hnotin Hnd']; subst.
  change (array_get j (run_writes ws (array_set j0 (f0 (array_get j0 a)) a))
          = f (array_get j a)).
  destruct Hin as [Heq|Hin].
  - inversion Heq; subst. rewrite run_writes_untouched by exact Hnotin.
    apply array_get_set_same.
  - rewrite (IH _ j f Hnd' Hin).
    rewrite array_get_set_other; [reflexivity|].
    intros ->. apply Hnotin. change j with (fst (j, f)). apply in_map. exact Hin.
Qed.


Lemma plan_indexes m us : forall i, map fst (plan m i us) = map index us.
Proof. induction us as [|u us IH]; intros i; simpl; [reflexivity | rewrite IH; reflexivity]. Qed.

Lemma plan_app m us1 us2 : forall i,
  plan m i (us1 ++ us2) = (plan m i us1 ++ plan m (i + List.length us1) us2)%list.
Proof.
  induction us1 as [|u us1 IH]; intros i; simpl.
  - rewrite Nat.add_0_r. reflexivity.
  - rewrite IH. rewrite Nat.add_succ_r. reflexivity.
Qed.

Lemma plan_nth m us : forall i k u,
  nth_error us k = Some u -> In (index u, planned_record m (i + k) u) (plan m i us).
Proof.
  induction us as [|u0 us IH]; intros i k u H; [destruct k; discriminate|].
  destruct k as [|k]; simpl in *.
  - inversion H; subst. rewrite Nat.add_0_r. left. reflexivity.
  - right. rewrite Nat.add_succ_r. apply (IH (S i) k u H).
Qed.

(** The loop over the entities sent to the model is the plan for the
    positions below the cap. *)
Lemma apply_enrichment_plan m us : forall i a,
  (i + List.length us <= cap)%nat ->
  apply_enrichment m us i a = run_writes (plan m i us) a.
Proof.
  induction us as [|u us IH]; intros i a H; [reflexivity|].
  simpl in H. simpl apply_enrichment. rewrite IH by lia.
  unfold run_writes at 2. simpl. fold (run_writes (plan m (S i) us)).
  f_equal. f_equal. unfold planned_record.
  assert (Hi : (i <? cap)%nat = true) by (apply Nat.ltb_lt; lia).
  rewrite Hi. destruct (map_get i m) as [e|]; [|reflexivity].
  destruct (Js.truthy _); reflexivity.
Qed.

(** The defaults written past the cap are the plan for those positions. *)
Lemma set_default_plan m us : forall i a,
  (cap <= i)%nat ->
  fold_left (fun a u => set_default u a) us a = run_writes (plan m i us) a.
Proof.
  induction us as [|u us IH]; intros i a H; [reflexivity|].
  simpl fold_left. rewrite (IH (S i)) by lia.
  unfold run_writes at 2. simpl. fold (run_writes (plan m (S i) us)).
  f_equal. unfold set_default, planned_record.
  assert (Hi : (i <? cap)%nat = false) by (apply Nat.ltb_ge; lia).
  rewrite Hi. reflexivity.
Qed.

(** Without any model data every position gets its default. *)
Lemma set_default_plan_empty us : forall i a,
  fold_left (fun a u => set_default u a) us a = run_writes (plan [] i us) a.
Proof.
  induction us as [|u us IH]; intros i a; [reflexivity|].
  simpl fold_left. rewrite (IH (S i)).
  unfold run_writes at 2. simpl. fold (run_writes (plan [] (S i) us)).
  f_equal. unfold set_default, planned_record. simpl.
  destruct (i <? cap)%nat; reflexivity.
Qed.

Lemma plan_split m l :
  plan m 0 l = (plan m 0 (firstn cap l) ++ plan m cap (skipn cap l))%list.
Proof.
  rewrite <- (firstn_skipn cap l) at 1. rewrite plan_app, Nat.add_0_l.
  destruct (Nat.le_gt_cases cap (List.length l)) as [H|H].
  - rewrite firstn_length_le by exact H. reflexivity.
  - rewrite skipn_all2 by lia. reflexivity.
Qed.

End ArrayFacts.

Section BatchEnrichFacts.
Import JsStr AiService UniversityEnrichment Spec.
Context {World : Type}.
Variable env : environment World.
Variable prompts : templates.
Variable parseFloat : string -> float.
Local Open Scope js_scope.

Lemma map_get_set_absent i k e m :
  PrimFloat.eqb k (JsNum.of_nat i) = false ->
  map_get i m = None -> map_get i (map_set k e m) = None.
Proof.
  intros Hk. induction m as [|[k' e'] m IH]; simpl; intros H.
  - rewrite Hk. reflexivity.
  - destruct (PrimFloat.eqb k' (JsNum.of_nat i)) eqn:E'; [discriminate|].
    destruct (PrimFloat.eqb k k'); simpl.
    + rewrite Hk. exact H.
    + rewrite E'. exact (IH H).
Qed.

(** An entry of the map at position [i] comes from an element of the
    array whose [index] is a non-zero number naming that position. *)
Lemma to_map_entry_origin items : forall m0 m i,
  to_map parseFloat items m0 = Some m ->
  map_get i m <> None ->
  map_get i m0 <> None
  \/ exists item x,
       In item items /\ Js.get item "index" = Some (VNum x)
       /\ JsNum.truthy x = true
       /\ PrimFloat.eqb (x - 1)%float (JsNum.of_nat i) = true.
Proof.
  induction items as [|item items IH]; intros m0 m i H Hget; simpl in H.
  - inversion H; subst. left. exact Hget.
  - destruct (Js.get item "index") as [idx|] eqn:Eidx; [|discriminate].
    assert (Hskip : to_map parseFloat items m0 = Some m ->
                    map_get i m0 <> None
                    \/ exists item' x,
                         In item' (item :: items) /\ Js.get item' "index" = Some (VNum x)
                         /\ JsNum.truthy x = true
                         /\ PrimFloat.eqb (x - 1)%float (JsNum.of_nat i) = true).
    { intros H'. destruct (IH m0 m i H' Hget) as [Hl|(it & x & Hin & Hrest)];
        [left; exact Hl | right; exists it, x; split; [right; exact Hin | exact Hrest]]. }
    destruct idx as [| |b|x|str|l|props|f]; try (apply Hskip; exact H).
    destruct (JsNum.truthy x) eqn:Ex; [|apply Hskip; exact H].
    destruct (IH _ m i H Hget) as [Hl|(it & y & Hin & Hrest)].
    + destruct (PrimFloat.eqb (x - 1)%float (JsNum.of_nat i)) eqn:Ek.
      * right. exists item, x. split; [left; reflexivity|]. repeat split; assumption.
      * left. intros Hnone. apply Hl. apply map_get_set_absent; assumption.
    + right. exists it, y. split; [right; exact Hin | exact Hrest].
Qed.

(** The single model call of the batch enrichment: it always returns a
    map, and every entry of the map stems from an element of the JSON array
    found in the text of the response of the router. *)
Lemma batchEnrich_run universities (st : state World) :
  exists m st',
    batchEnrichUniversitiesWithSingleCall env prompts parseFloat universities st
    = (Returned m, st')
    /\ forall i,
        map_get i m <> None ->
        exists response s arrayMatch items item x,
          getLLMResponse env
            [ {| role := "user"; content := batch_enrichment_prompt prompts universities |} ]
            "You are a university database expert. Return only valid JSON array."
            None st = (Returned response, st')
          /\ Js.get_own response "text" = VStr s
          /\ match_bracketed "[" "]" (strip_fences s) = Some arrayMatch
          /\ JSON.parse arrayMatch = Some (VArr items)
          /\ In item items
          /\ Js.get item "index" = Some (VNum x)
          /\ JsNum.truthy x = true
          /\ PrimFloat.eqb (x - 1)%float (JsNum.of_nat i) = true.
Proof.
  unfold batchEnrichUniversitiesWithSingleCall, try_catch.
  destruct universities as [|u0 us].
  { exists [], st. split; [reflexivity|]. intros i H. exfalso. apply H. reflexivity. }
  set (universities := u0 :: us). unfold bind.
  destruct (getLLMResponse_returns env
              [ {| role := "user"; content := batch_enrichment_prompt prompts universities |} ]
              "You are a university database expert. Return only valid JSON array."
              None st) as (response & st1 & evs & E & _).
  rewrite E.
  assert (Hnil : exists (m : enrichmentMap) (st' : state World),
             (Returned ([] : enrichmentMap), st1) = (Returned m, st')
             /\ forall i, map_get i m <> None ->
                  exists resp s arrayMatch items item x,
                    (Returned response, st1) = (Returned resp, st')
                    /\ Js.get_own resp "text" = VStr s
                    /\ match_bracketed "[" "]" (strip_fences s) = Some arrayMatch
                    /\ JSON.parse arrayMatch = Some (VArr items)
                    /\ In item items
                    /\ Js.get item "index" = Some (VNum x)
                    /\ JsNum.truthy x = true
                    /\ PrimFloat.eqb (x - 1)%float (JsNum.of_nat i) = true).
  { exists [], st1. split; [reflexivity|]. intros i H. exfalso. apply H. reflexivity. }
  destruct (Js.truthy (Js.get_own response "text")) eqn:Etruthy; [|exact Hnil].
  destruct (Js.get_own response "text") as [| |b|n|s|l|props|f] eqn:Etext; try exact Hnil.
  destruct (match_bracketed "[" "]" (strip_fences s)) as [arrayMatch|] eqn:Ematch;
    [|exact Hnil].
  destruct (JSON.parse arrayMatch) as [v|] eqn:Eparse; [|exact Hnil].
  destruct v as [| |b|n|s'|items|props|f]; try exact Hnil.
  destruct (to_map parseFloat items []) as [m|] eqn:Emap.
  - exists m, st1. unfold ret. split; [reflexivity|].
    intros i Hget.
    destruct (to_map_entry_origin items [] m i Emap Hget) as [H0|(item & x & Hin & Hi & Ht & Hk)].
    + exfalso. apply H0. reflexivity.
    + exists response, s, arrayMatch, items, item, x. repeat split; assumption.
  - unfold throw, message_of, bind, ret. exact Hnil.
Qed.

Lemma enrich_nonUS_nil toUpsert (st : state World) :
  enrich_nonUS env prompts parseFloat [] toUpsert st = (Returned toUpsert, st).
Proof. reflexivity. Qed.

(** The non-US branch always returns, and what it returns is the plan
    carried out on [toUpsert] for the map obtained from the one model call
    on the first [cap] entities. *)
Lemma enrich_nonUS_run l toUpsert (st : state World) :
  exists m st',
    batchEnrichUniversitiesWithSingleCall env prompts parseFloat
      (map (fun u => (name u, country u)) (firstn cap l)) st = (Returned m, st')
    /\ enrich_nonUS env prompts parseFloat l toUpsert st
       = (Returned (run_writes (plan m 0 l) toUpsert), match l with [] => st | _ => st' end).
Proof.
  destruct (batchEnrich_run (map (fun u => (name u, country u)) (firstn cap l)) st)
    as (m & st' & E & _).
  exists m, st'. split; [exact E|].
  destruct l as [|u0 l0]; [reflexivity|].
  unfold enrich_nonUS. cbv zeta. unfold bind, try_catch. rewrite E. unfold ret.
  f_equal.
  rewrite (plan_split m (u0 :: l0)), run_writes_app.
  rewrite <- (set_default_plan m (skipn cap (u0 :: l0)) cap) by apply Nat.le_refl.
  rewrite apply_enrichment_plan; [reflexivity|].
  rewrite length_firstn. lia.
Qed.

End BatchEnrichFacts.

(** ** The batch analysis *)

Section AnalysisTableFacts.
Import DiscoveryAnalysis Spec.














End AnalysisTableFacts.

Section BatchAnalysisFacts.
Import JsStr AiService DiscoveryAnalysis Spec.
Context {World : Type}.
Variable env : environment World.
Variable prompts : templates.
Local Open Scope js_scope.



End BatchAnalysisFacts.

(** ** The batch upsert of searchUniversities *)

Section UpsertFacts.
Import AiService UniversityEnrichment UniversitySearch Spec.










Section Run.
Context {World : Type}.
Variable env : environment World.
Variable uuid_text : Z -> string.


End Run.








End UpsertFacts.

Section BatchClaims.
Import JsStr AiService DiscoveryAnalysis UniversityEnrichment UniversitySearch Spec.
Context {World : Type}.
Variable env : environment World.
Variable prompts : templates.
Variable parseFloat : string -> float.
Variable uuid_text : Z -> string.
Local Open Scope js_scope.



End BatchClaims.



(* ================================================================== *)
(** * Further properties of the services                               *)
(* ================================================================== *)

(** ** The enrichment cache: isolation of keys, size, and the sweep *)

Section CacheIsolation.
Import EnrichmentCache Spec.
Local Open Scope Z_scope.

Lemma key_is_false_of_other n c r :
  (university_name r, country r) <> (n, c) -> key_is n c r = false.
Proof.
  intros H. destruct (key_is n c r) eqn:E; [|reflexivity].
  apply key_is_true in E. destruct E as [E1 E2]. exfalso. apply H. congruence.
Qed.

Lemma upsert_other_keys new_id e t n c :
  (n, c) <> (entry_university_name e, entry_country e) ->
  filter (key_is n c) (fst (upsert new_id e t)) = filter (key_is n c) t.
Proof.
  intros Hne. induction t as [|r t IH]; simpl.
  - rewrite key_is_false_of_other; [reflexivity|]. simpl. congruence.
  - destruct (key_is (entry_university_name e) (entry_country e) r) eqn:E.
    + simpl. apply key_is_true in E. destruct E as [E1 E2].
      rewrite (key_is_false_of_other n c (overwrite e r)) by (simpl; congruence).
      rewrite (key_is_false_of_other n c r) by congruence.
      reflexivity.
    + destruct (upsert new_id e t) as [t'' data]. simpl in *.
      rewrite IH. reflexivity.
Qed.

Lemma upsert_length new_id e t :
  List.length (fst (upsert new_id e t))
  = if existsb (key_is (entry_university_name e) (entry_country e)) t
    then List.length t else S (List.length t).
Proof.
  induction t as [|r t IH]; simpl; [reflexivity|].
  destruct (key_is (entry_university_name e) (entry_country e) r) eqn:E; simpl.
  - reflexivity.
  - destruct (upsert new_id e t) as [t'' data]. simpl in *. rewrite IH.
    destruct (existsb (key_is (entry_university_name e) (entry_country e)) t); reflexivity.
Qed.

Lemma setCachedEnrichment_table created accessed new_id name country data source t :
  snd (setCachedEnrichment created accessed new_id name country data source t)
  = fst (upsert new_id
           {| entry_university_name := JsStr.trim name;
              entry_country := JsStr.trim country;
              entry_enriched_data := data;
              entry_confidence_score :=
                ConfidenceScorer.calculateConfidenceScore data source false;
              entry_source := source;
              entry_created_at := created;
              entry_last_accessed_at := accessed;
              entry_access_count := 1;
              entry_is_verified := false |} t).
Proof.
  unfold setCachedEnrichment.
  match goal with |- context [upsert ?i ?e ?t] => destruct (upsert i e t) as [t' d] end.
  reflexivity.
Qed.

Lemma getCachedEnrichment_by_rows upd now name country t1 t2 :
  filter (key_is (JsStr.trim name) (JsStr.trim country)) t1
  = filter (key_is (JsStr.trim name) (JsStr.trim country)) t2 ->
  fst (getCachedEnrichment upd now name country t1)
  = fst (getCachedEnrichment upd now name country t2).
Proof.
  intros H. unfold getCachedEnrichment. rewrite H.
  destruct (Js.single _) as [d|]; [|reflexivity].
  destruct (now - created_at d >? ttl_of d); reflexivity.
Qed.

(** X1.  A store under one key leaves every other key alone: the rows
    found under a name and country that differ, once trimmed, from the
    stored ones are the same before and after, and so is what a lookup of
    that other key returns. *)
Theorem store_leaves_other_keys_alone
    (upd : Z -> Z -> table -> table) (created accessed new_id now : Z)
    (name country name' country' : string)
    (data : list (string * value)) (source : string) (t : table) :
  (JsStr.trim name', JsStr.trim country') <> (JsStr.trim name, JsStr.trim country) ->
  rows_with_key (JsStr.trim name') (JsStr.trim country')
    (snd (setCachedEnrichment created accessed new_id name country data source t))
  = rows_with_key (JsStr.trim name') (JsStr.trim country') t
  /\ fst (getCachedEnrichment upd now name' country'
            (snd (setCachedEnrichment created accessed new_id name country data source t)))
     = fst (getCachedEnrichment upd now name' country' t).
Proof.
  intros Hne.
  assert (Hrows : filter (key_is (JsStr.trim name') (JsStr.trim country'))
                    (snd (setCachedEnrichment created accessed new_id name country data source t))
                  = filter (key_is (JsStr.trim name') (JsStr.trim country')) t).
  { rewrite setCachedEnrichment_table. apply upsert_other_keys. exact Hne. }
  split.
  - exact Hrows.
  - apply getCachedEnrichment_by_rows. exact Hrows.
Qed.

Lemma store_leaves_other_keys_alone_witness :
  rows_with_key (JsStr.trim "Oxford ") (JsStr.trim "UK")
    (snd (setCachedEnrichment 10 11 2 " MIT" "USA" [("rank", VNum 2)] "GEMINI" [sample_row]))
  = rows_with_key (JsStr.trim "Oxford ") (JsStr.trim "UK") [sample_row]
  /\ fst (getCachedEnrichment (fun _ _ t => t) 20 "Oxford " "UK"
            (snd (setCachedEnrichment 10 11 2 " MIT" "USA" [("rank", VNum 2)] "GEMINI" [sample_row])))
     = fst (getCachedEnrichment (fun _ _ t => t) 20 "Oxford " "UK" [sample_row]).
Proof.
  apply (store_leaves_other_keys_alone (fun _ _ t => t) 10 11 2 20
           " MIT" "USA" "Oxford " "UK" [("rank", VNum 2)] "GEMINI" [sample_row]).
  vm_compute. discriminate.
Defined.

(** X2.  A store never duplicates a key and adds at most one row: the
    table keeps its size when a row with the trimmed name and country
    exists, grows by one otherwise, and a table that satisfies the UNIQUE
    constraint still satisfies it afterwards. *)
Theorem store_adds_at_most_one_row
    (created accessed new_id : Z) (name country : string)
    (data : list (string * value)) (source : string) (t : table) :
  List.length (snd (setCachedEnrichment created accessed new_id name country data source t))
  = (if existsb (key_is (JsStr.trim name) (JsStr.trim country)) t
     then List.length t else S (List.length t))
  /\ (unique_keys t ->
      unique_keys (snd (setCachedEnrichment created accessed new_id name country data source t))).
Proof.
  rewrite setCachedEnrichment_table. split.
  - apply upsert_length.
  - apply upsert_unique.
Qed.

End CacheIsolation.

Section CacheSweep.
Import EnrichmentCache Spec.
Local Open Scope Z_scope.

Lemma unique_keys_rows n c t :
  unique_keys t -> filter (key_is n c) t = [] \/ exists d, filter (key_is n c) t = [d].
Proof.
  induction t as [|r t IH]; intros Hu; simpl.
  - left. reflexivity.
  - destruct (key_is n c r) eqn:E.
    + right. exists r. rewrite (unique_keys_head r t n c Hu E). reflexivity.
    + apply IH. exact (unique_keys_tail _ _ Hu).
Qed.

Lemma filter_swap {A : Type} (p q : A -> bool) (l : list A) :
  filter p (filter q l) = filter q (filter p l).
Proof.
  induction l as [|x l IH]; simpl; [reflexivity|].
  destruct (q x) eqn:Eq, (p x) eqn:Ep; simpl; rewrite ?Eq, ?Ep, IH; reflexivity.
Qed.

Lemma filter_absorbs {A : Type} (p q : A -> bool) (l : list A) :
  (forall x, p x = true -> q x = true) -> filter p (filter q l) = filter p l.
Proof.
  intros H. induction l as [|x l IH]; simpl; [reflexivity|].
  destruct (q x) eqn:Eq; simpl.
  - rewrite IH. reflexivity.
  - destruct (p x) eqn:Ep; [|exact IH].
    rewrite (H x Ep) in Eq. discriminate.
Qed.

(** An unverified row older than the largest TTL is older than its own. *)
Lemma expired_unverified_is_stale now r :
  expired_unverified now r = true -> (now - created_at r >? ttl_of r) = true.
Proof.
  unfold expired_unverified, ttl_of. rewrite andb_true_iff, Z.ltb_lt.
  intros [Hv Hlt]. apply Bool.eqb_prop in Hv. rewrite Hv.
  apply Z.gtb_lt.
  unfold CACHE_TTL.VERIFIED in Hlt.
  destruct (String.eqb (source r) "MANUAL");
    unfold CACHE_TTL.MANUAL, CACHE_TTL.AI_ENRICHED; lia.
Qed.

(** X3.  The sweep never turns a hit into a miss: on a table that
    satisfies the UNIQUE constraint, a lookup made at the clock reading of
    the sweep returns the same after the sweep as before it.  (The rows the
    sweep deletes are older than every TTL.) *)
Theorem clearExpiredCache_keeps_every_servable_row
    (upd : Z -> Z -> table -> table) (now : Z) (name country : string) (t : table) :
  unique_keys t ->
  fst (getCachedEnrichment upd now name country (clearExpiredCache now t))
  = fst (getCachedEnrichment upd now name country t).
Proof.
  intros Hu. unfold getCachedEnrichment, clearExpiredCache.
  rewrite filter_swap.
  destruct (unique_keys_rows (JsStr.trim name) (JsStr.trim country) t Hu) as [E | [d E]];
    rewrite E; simpl; [reflexivity|].
  destruct (expired_unverified now d) eqn:Ex; simpl.
  - rewrite (expired_unverified_is_stale now d Ex). reflexivity.
  - destruct (now - created_at d >? ttl_of d); reflexivity.
Qed.

Lemma clearExpiredCache_keeps_every_servable_row_witness :
  fst (getCachedEnrichment (fun _ _ t => t) 1000 "MIT" "USA" (clearExpiredCache 1000 [sample_row]))
  = fst (getCachedEnrichment (fun _ _ t => t) 1000 "MIT" "USA" [sample_row]).
Proof.
  apply (clearExpiredCache_keeps_every_servable_row (fun _ _ t => t) 1000 "MIT" "USA" [sample_row]).
  unfold unique_keys. simpl. constructor; [intros [] | constructor].
Defined.

Lemma expired_unverified_mono now now' r :
  now <= now' -> expired_unverified now r = true -> expired_unverified now' r = true.
Proof.
  unfold expired_unverified. rewrite !andb_true_iff, !Z.ltb_lt.
  intros Hle [Hv Hlt]. split; [exact Hv | lia].
Qed.

Lemma unique_keys_filter (p : row -> bool) t : unique_keys t -> unique_keys (filter p t).
Proof.
  unfold unique_keys. induction t as [|r t IH]; simpl; intros Hu; [constructor|].
  inversion Hu as [|? ? Hnotin Hnd]; subst.
  destruct (p r); simpl; [constructor|]; auto.
  intros Hin. apply Hnotin.
  apply in_map_iff in Hin. destruct Hin as (x & Hx & Hin).
  apply filter_In in Hin. destruct Hin as [Hin _].
  apply in_map_iff. exists x. split; assumption.
Qed.

(** X4.  Sweeps compose: a sweep at a later clock reading subsumes an
    earlier one, in either order, so sweeping twice at one reading is
    sweeping once; and the sweep keeps the UNIQUE constraint. *)
Theorem clearExpiredCache_later_sweep_subsumes (now now' : Z) (t : table) :
  now <= now' ->
  clearExpiredCache now' (clearExpiredCache now t) = clearExpiredCache now' t
  /\ clearExpiredCache now (clearExpiredCache now' t) = clearExpiredCache now' t
  /\ (unique_keys t -> unique_keys (clearExpiredCache now' t)).
Proof.
  intros Hle.
  assert (Himp : forall r,
             negb (expired_unverified now' r) = true -> negb (expired_unverified now r) = true).
  { intros r. destruct (expired_unverified now r) eqn:E; [|reflexivity].
    rewrite (expired_unverified_mono now now' r Hle E). discriminate. }
  assert (H1 : clearExpiredCache now' (clearExpiredCache now t) = clearExpiredCache now' t).
  { unfold clearExpiredCache. apply filter_absorbs. exact Himp. }
  split; [exact H1|]. split.
  - rewrite <- H1 at 2. unfold clearExpiredCache. apply filter_swap.
  - apply unique_keys_filter.
Qed.

Lemma clearExpiredCache_later_sweep_subsumes_witness :
  clearExpiredCache 2592000001 (clearExpiredCache 5 [sample_row])
  = clearExpiredCache 2592000001 [sample_row]
  /\ clearExpiredCache 5 (clearExpiredCache 2592000001 [sample_row])
     = clearExpiredCache 2592000001 [sample_row]
  /\ (unique_keys [sample_row] -> unique_keys (clearExpiredCache 2592000001 [sample_row])).
Proof.
  apply (clearExpiredCache_later_sweep_subsumes 5 2592000001 [sample_row]).
  lia.
Defined.

End CacheSweep.

(** ** The confidence score: order and bounds *)

Section ConfidenceOrder.
Import ConfidenceScorer Spec Notions.
Local Open Scope float_scope.

Lemma presentFields_count enrichedData :
  In (presentFields enrichedData) (seq 0 8).
Proof.
  apply in_seq. pose proof (presentFields_le enrichedData). lia.
Qed.

Lemma source_operand_listed source :
  Js.inherited source = VUndefined -> In (source_operand source) source_operands.
Proof. apply source_operand_cases. Qed.

Lemma score_table_In enrichedData source isVerified :
  Js.inherited source = VUndefined ->
  In (presentFields enrichedData, source_operand source, isVerified,
      score_kernel (presentFields enrichedData) (source_operand source) isVerified)
     (score_table (seq 0 8) source_operands).
Proof.
  intros Hinh. unfold score_table.
  apply in_flat_map. exists (presentFields enrichedData).
  split; [apply presentFields_count|].
  apply in_flat_map. exists (source_operand source).
  split; [apply source_operand_listed; exact Hinh|].
  apply in_map_iff. exists isVerified. split; [reflexivity|].
  destruct isVerified; simpl; tauto.
Qed.

Lemma score_monotone_checked : score_monotone_on (seq 0 8) source_operands = true.
Proof. vm_compute. reflexivity. Qed.

Lemma score_bounds_checked : score_bounds_on (seq 0 8) source_operands = true.
Proof. vm_compute. reflexivity. Qed.

(** X5.  The score is monotone: for source tags that name nothing
    inherited from Object.prototype, a payload with at least as many of the
    seven checklist fields present, a source the table rates at least as
    high, and a verification flag at least as strong never get a lower
    score. *)
Theorem calculateConfidenceScore_monotone
    (d1 d2 : list (string * value)) (s1 s2 : string) (v1 v2 : bool) :
  Js.inherited s1 = VUndefined ->
  Js.inherited s2 = VUndefined ->
  (presentFields d1 <= presentFields d2)%nat ->
  (source_operand s1 <=? source_operand s2) = true ->
  implb v1 v2 = true ->
  (calculateConfidenceScore d1 s1 v1 <=? calculateConfidenceScore d2 s2 v2) = true.
Proof.
  intros H1 H2 Hp Hs Hv.
  rewrite !calculateConfidenceScore_kernel.
  pose proof score_monotone_checked as Hall. unfold score_monotone_on in Hall.
  rewrite forallb_forall in Hall.
  specialize (Hall _ (score_table_In d1 s1 v1 H1)).
  rewrite forallb_forall in Hall.
  specialize (Hall _ (score_table_In d2 s2 v2 H2)).
  simpl in Hall.
  apply Nat.leb_le in Hp. rewrite Hp, Hs, Hv in Hall. exact Hall.
Qed.

Lemma calculateConfidenceScore_monotone_witness :
  (calculateConfidenceScore [("name", VStr "MIT")] "LLAMA" false
   <=? calculateConfidenceScore [("name", VStr "MIT"); ("rank", VNum 2)] "MANUAL" true) = true.
Proof.
  apply (calculateConfidenceScore_monotone
           [("name", VStr "MIT")] [("name", VStr "MIT"); ("rank", VNum 2)]
           "LLAMA" "MANUAL" false true).
  - reflexivity.
  - reflexivity.
  - vm_compute. lia.
  - vm_compute. reflexivity.
  - reflexivity.
Defined.

(** X6.  Bounds by verification flag, for source tags that name nothing
    inherited from Object.prototype: an unverified payload, which is all
    that [setCachedEnrichment] ever scores, lies in [0.25, 0.8]; a verified
    one lies in [0.45, 1]. *)
Theorem calculateConfidenceScore_bounds_by_verification
    (enrichedData : list (string * value)) (source : string) :
  Js.inherited source = VUndefined ->
  (0.25 <=? calculateConfidenceScore enrichedData source false) = true
  /\ (calculateConfidenceScore enrichedData source false <=? 0.8) = true
  /\ (0.45 <=? calculateConfidenceScore enrichedData source true) = true
  /\ (calculateConfidenceScore enrichedData source true <=? 1) = true.
Proof.
  intros Hinh. rewrite !calculateConfidenceScore_kernel.
  pose proof score_bounds_checked as Hall. unfold score_bounds_on in Hall.
  rewrite forallb_forall in Hall. specialize (Hall _ (presentFields_count enrichedData)).
  rewrite forallb_forall in Hall. specialize (Hall _ (source_operand_listed source Hinh)).
  rewrite !andb_true_iff in Hall. tauto.
Qed.

Lemma calculateConfidenceScore_bounds_by_verification_witness :
  (0.25 <=? calculateConfidenceScore [("rank", VNum 2)] "GEMINI" false) = true
  /\ (calculateConfidenceScore [("rank", VNum 2)] "GEMINI" false <=? 0.8) = true
  /\ (0.45 <=? calculateConfidenceScore [("rank", VNum 2)] "GEMINI" true) = true
  /\ (calculateConfidenceScore [("rank", VNum 2)] "GEMINI" true <=? 1) = true.
Proof.
  apply (calculateConfidenceScore_bounds_by_verification [("rank", VNum 2)] "GEMINI").
  reflexivity.
Defined.

End ConfidenceOrder.

(** ** The provider clients: which requests they send *)


Section ShuffleFacts.
Import AiService.

Lemma insert_at_perm {A : Type} (x : A) : forall n l, Permutation (insert_at n x l) (x :: l).
Proof.
  induction n as [|n IH]; intros [|y l]; simpl; try apply Permutation_refl.
  eapply Permutation_trans; [apply perm_skip; apply IH | apply perm_swap].
Qed.

(** The shuffle rearranges the keys: none is lost, none is added. *)
Lemma rearrange_perm {A : Type} (l : list A) : forall draws, Permutation (rearrange draws l) l.
Proof.
  induction l as [|x l IH]; intros draws; simpl; [apply Permutation_refl|].
  eapply Permutation_trans; [apply insert_at_perm | apply perm_skip; apply IH].
Qed.

End ShuffleFacts.

Section ClientRequests.
Import JsStr AiService Spec Notions.
Context {World : Type}.
Variable env : environment World.
Local Open Scope js_scope.

Lemma trace_after_request (e : event) w (st : state World) :
  trace (set_world w (snd (emit e st))) = (trace st ++ [e])%list.
Proof. reflexivity. Qed.

Lemma groq_result_tagged text :
  Js.get_own (groq_result text) "_aiSource" = VStr "LLAMA".
Proof.
  unfold groq_result.
  destruct (match_bracketed "{" "}" (strip_fences text)) as [objectMatch|]; [|reflexivity].
  destruct (JSON.parse objectMatch) as [json|]; [|reflexivity].
  apply get_own_spread; [constructor; [intros [] | constructor] | reflexivity].
Qed.

Lemma gemini_result_tagged text modelName :
  Js.get_own (gemini_result text modelName) "_aiSource" = VStr "GEMINI"
  /\ Js.get_own (gemini_result text modelName) "_model" = VStr modelName.
Proof.
  unfold gemini_result.
  destruct (match_bracketed "{" "}" (strip_fences text)) as [objectMatch|];
    [|split; reflexivity].
  destruct (JSON.parse objectMatch) as [json|]; [|split; reflexivity].
  assert (Hnd : NoDup (map fst [("_aiSource", VStr "GEMINI"); ("_model", VStr modelName)])).
  { simpl. constructor; [intros [H|[]]; discriminate|].
    constructor; [intros [] | constructor]. }
  split; apply get_own_spread; try exact Hnd; reflexivity.
Qed.

(** One attempt with a Groq key: the request leaves, then either the
    answer is turned into a result or the failure is thrown as an Error. *)
Lemma groq_attempt_shape messages systemPrompt apiKey (st : state World) :
  exists w,
    (exists text,
        groq_attempt env messages systemPrompt apiKey st
        = (Returned (groq_result text),
           set_world w (snd (emit (GroqRequest apiKey systemPrompt messages) st))))
    \/ (exists m,
           groq_attempt env messages systemPrompt apiKey st
           = (Thrown (Error m),
              set_world w (snd (emit (GroqRequest apiKey systemPrompt messages) st)))).
Proof.
  unfold groq_attempt, bind.
  set (st1 := snd (emit (GroqRequest apiKey systemPrompt messages) st)).
  change (emit (GroqRequest apiKey systemPrompt messages) st) with (Returned tt, st1).
  destruct (call_run (groq_chat_completions env apiKey systemPrompt messages) st1)
    as (w & [(text & E) | (m & E)]); rewrite E; exists w;
    [left; exists text | right; exists m]; reflexivity.
Qed.

Lemma groq_keys_requests messages systemPrompt keys :
  forall lastError (st : state World),
  exists k,
    (k <= List.length keys)%nat
    /\ trace (snd (groq_keys env messages systemPrompt keys lastError st))
       = (trace st ++ groq_requests systemPrompt messages (firstn k keys))%list
    /\ (forall e, fst (groq_keys env messages systemPrompt keys lastError st) = Thrown e ->
                  k = List.length keys)
    /\ (forall r, fst (groq_keys env messages systemPrompt keys lastError st) = Returned r ->
                  (0 < k)%nat /\ Js.get_own r "_aiSource" = VStr "LLAMA").
Proof.
  induction keys as [|apiKey rest IH]; intros lastError st.
  - exists 0%nat. simpl. split; [lia|]. split.
    + destruct lastError; simpl; symmetry; apply app_nil_r.
    + split; [reflexivity|]. intros r H. destruct lastError; discriminate H.
  - simpl. unfold try_catch.
    destruct (groq_attempt_shape messages systemPrompt apiKey st)
      as (w & [(text & E) | (m & E)]); rewrite E.
    + exists 1%nat. simpl. split; [lia|]. split; [reflexivity|]. split.
      * intros e H. discriminate H.
      * intros r H. inversion H. split; [lia | apply groq_result_tagged].
    + unfold bind, message_of, ret.
      set (st1 := set_world w (snd (emit (GroqRequest apiKey systemPrompt messages) st))).
      destruct (IH (Some (Error m)) st1) as (k & Hk & Ht & Hthrown & Hret).
      exists (S k). split; [simpl; lia|]. split.
      * rewrite Ht. unfold st1. rewrite trace_after_request.
        simpl. rewrite <- app_assoc. reflexivity.
      * split.
        -- intros e H. simpl. f_equal. exact (Hthrown e H).
        -- intros r H. destruct (Hret r H) as [_ Htag]. split; [lia | exact Htag].
Qed.

(** X7.  [callGroq] tries each configured key at most once, in the order
    the shuffle gives: the requests it sends are those of a prefix of a
    rearrangement of GROQ_API_KEYS, each carrying the system prompt and the
    messages it was given; it throws only after every key has been tried;
    and an answer it returns carries the tag LLAMA. *)
Theorem callGroq_tries_each_key_at_most_once
    (messages : list message) (systemPrompt : string) (st : state World) :
  exists (order : list string) (k : nat),
    Permutation order (GROQ_API_KEYS env)
    /\ (k <= List.length (GROQ_API_KEYS env))%nat
    /\ trace (snd (callGroq env messages systemPrompt st))
       = (trace st ++ groq_requests systemPrompt messages (firstn k order))%list
    /\ (forall e, fst (callGroq env messages systemPrompt st) = Thrown e ->
                  k = List.length (GROQ_API_KEYS env))
    /\ (forall r, fst (callGroq env messages systemPrompt st) = Returned r ->
                  (0 < k)%nat /\ Js.get_own r "_aiSource" = VStr "LLAMA").
Proof.
  unfold callGroq. destruct (GROQ_API_KEYS env) as [|key keys] eqn:Ek.
  - exists [], 0%nat. simpl. split; [constructor|]. split; [lia|].
    split; [symmetry; apply app_nil_r|]. split; [reflexivity|].
    intros r H. discriminate H.
  - cbv beta iota. unfold shuffled. unfold bind, ret.
    destruct (ask_run (Math_random_draws env (List.length (key :: keys))) st) as (d & w & E).
    rewrite E.
    destruct (groq_keys_requests messages systemPrompt (rearrange d (key :: keys)) None
                (set_world w st)) as (k & Hk & Ht & Hthrown & Hret).
    assert (Hlen : List.length (rearrange d (key :: keys)) = List.length (key :: keys))
      by (apply Permutation_length, rearrange_perm).
    exists (rearrange d (key :: keys)), k.
    split; [apply rearrange_perm|]. split; [rewrite <- Hlen; exact Hk|].
    split; [exact Ht|]. split; [|exact Hret].
    intros e H. rewrite <- Hlen. exact (Hthrown e H).
Qed.


Lemma gemini_attempt_shape messages systemPrompt modelName apiKey (st : state World) :
  exists w,
    (exists text,
        gemini_attempt env messages systemPrompt modelName apiKey st
        = (Returned (gemini_result text modelName),
           set_world w
             (snd (emit (GeminiRequest modelName apiKey
                           (gemini_fullPrompt systemPrompt messages)) st))))
    \/ (exists m,
           gemini_attempt env messages systemPrompt modelName apiKey st
           = (Thrown (Error m),
              set_world w
                (snd (emit (GeminiRequest modelName apiKey
                              (gemini_fullPrompt systemPrompt messages)) st)))).
Proof.
  unfold gemini_attempt, bind.
  change (systemPrompt ++ newline ++ newline ++ "User: "
          ++ String.concat newline (map content messages))%string
    with (gemini_fullPrompt systemPrompt messages).
  set (fullPrompt := gemini_fullPrompt systemPrompt messages).
  set (st1 := snd (emit (GeminiRequest modelName apiKey fullPrompt) st)).
  change (emit (GeminiRequest modelName apiKey fullPrompt) st) with (Returned tt, st1).
  destruct (call_run (gemini_generateContent env apiKey modelName fullPrompt) st1)
    as (w & [(text & E) | (m & E)]); rewrite E; exists w.
  - destruct (String.eqb text "");
      [right; exists "Empty response from Gemini" | left; exists text]; reflexivity.
  - right. exists m. reflexivity.
Qed.

Lemma gemini_keys_requests messages systemPrompt modelName keys :
  forall lastError (st : state World),
  exists k r st',
    gemini_keys env messages systemPrompt modelName keys lastError st = (Returned r, st')
    /\ (k <= List.length keys)%nat
    /\ trace st'
       = (trace st ++ gemini_requests modelName (gemini_fullPrompt systemPrompt messages)
                        (firstn k keys))%list
    /\ (forall le, r = inr le -> k = List.length keys)
    /\ (forall response, r = inl response ->
          (0 < k)%nat
          /\ Js.get_own response "_aiSource" = VStr "GEMINI"
          /\ Js.get_own response "_model" = VStr modelName).
Proof.
  induction keys as [|apiKey rest IH]; intros lastError st.
  - exists 0%nat, (inr lastError), st. simpl. split; [reflexivity|]. split; [lia|].
    split; [symmetry; apply app_nil_r|]. split; [reflexivity|].
    intros response H. discriminate H.
  - simpl. unfold try_catch, bind at 1.
    destruct (gemini_attempt_shape messages systemPrompt modelName apiKey st)
      as (w & [(text & E) | (m & E)]); rewrite E.
    + exists 1%nat, (inl (gemini_result text modelName)). eexists.
      split; [reflexivity|]. split; [simpl; lia|]. split; [reflexivity|]. split.
      * intros le H. discriminate H.
      * intros response H. inversion H. split; [lia | apply gemini_result_tagged].
    + unfold bind, message_of, ret.
      set (st1 := set_world w _).
      destruct (IH (Some (Error m)) st1) as (k & r & st' & Hrun & Hk & Ht & Hinr & Hinl).
      exists (S k), r, st'. split; [exact Hrun|]. split; [simpl; lia|]. split.
      * rewrite Ht. unfold st1. rewrite trace_after_request.
        simpl. rewrite <- app_assoc. reflexivity.
      * split.
        -- intros le H. simpl. f_equal. exact (Hinr le H).
        -- intros response H. destruct (Hinl response H) as (_ & Htag & Hmodel).
           split; [lia|]. split; assumption.
Qed.

Lemma fallbackModel_differs m : m <> fallbackModel m.
Proof.
  unfold fallbackModel. destruct (String.eqb m "gemini-2.5-flash") eqn:E.
  - apply String.eqb_eq in E. subst m. discriminate.
  - apply String.eqb_neq in E. exact E.
Qed.

(** X8.  [callGemini] goes through the shuffled keys with the preferred
    model, then through the keys, shuffled again, with the fallback model,
    which is always another model: the requests it sends are a prefix of
    the first round followed by a prefix of the second, every request
    carrying the system prompt followed by the user messages; the second
    round starts only after every key failed in the first; it throws only
    after both rounds are exhausted; and an answer it returns is tagged
    GEMINI and names the model of the round that produced it. *)
Theorem callGemini_tries_both_models_over_all_keys
    (messages : list message) (systemPrompt : string) (preferredModel : option string)
    (st : state World) :
  let m1 := preferredModel_or_default preferredModel in
  let m2 := fallbackModel m1 in
  let fullPrompt := gemini_fullPrompt systemPrompt messages in
  let run := callGemini env messages systemPrompt preferredModel st in
  m1 <> m2
  /\ exists (order1 order2 : list string) (k1 k2 : nat),
       Permutation order1 (GEMINI_API_KEYS env)
       /\ Permutation order2 (GEMINI_API_KEYS env)
       /\ (k1 <= List.length (GEMINI_API_KEYS env))%nat
       /\ (k2 <= List.length (GEMINI_API_KEYS env))%nat
       /\ trace (snd run)
          = (trace st ++ gemini_requests m1 fullPrompt (firstn k1 order1)
                      ++ gemini_requests m2 fullPrompt (firstn k2 order2))%list
       /\ ((0 < k2)%nat -> k1 = List.length (GEMINI_API_KEYS env))
       /\ (forall e, fst run = Thrown e ->
                     k1 = List.length (GEMINI_API_KEYS env)
                     /\ k2 = List.length (GEMINI_API_KEYS env))
       /\ (forall r, fst run = Returned r ->
                     (0 < k1)%nat
                     /\ Js.get_own r "_aiSource" = VStr "GEMINI"
                     /\ Js.get_own r "_model" = VStr (if (k2 =? 0)%nat then m1 else m2)).
Proof.
  intros m1 m2 fullPrompt run. split; [apply fallbackModel_differs|].
  subst run.
  destruct (callGemini env messages systemPrompt preferredModel st) as [o st'] eqn:Hrun.
  cbn [fst snd].
  unfold callGemini in Hrun.
  fold (preferredModel_or_default preferredModel) in Hrun. fold m1 in Hrun.
  fold (fallbackModel m1) in Hrun. fold m2 in Hrun.
  destruct (GEMINI_API_KEYS env) as [|key keys] eqn:Ek.
  - inversion Hrun; subst o st'.
    exists [], [], 0%nat, 0%nat. simpl.
    split; [constructor|]. split; [constructor|]. split; [lia|]. split; [lia|].
    split; [symmetry; apply app_nil_r|]. split; [lia|].
    split; [intros e _; split; reflexivity|]. intros r H. discriminate H.
  - cbv beta iota in Hrun. cbn [gemini_models] in Hrun. rewrite Ek in Hrun.
    remember (key :: keys) as allKeys eqn:Hall. clear Ek Hall key keys.
    unfold shuffled in Hrun. unfold bind at 1 2 in Hrun. unfold ret at 1 in Hrun.
    destruct (ask_run (Math_random_draws env (List.length allKeys)) st) as (d1 & w1 & E1).
    rewrite E1 in Hrun. unfold bind at 1 in Hrun.
    set (order1 := rearrange d1 allKeys) in *.
    assert (P1 : Permutation order1 allKeys) by apply rearrange_perm.
    pose proof (Permutation_length P1) as L1.
    destruct (gemini_keys_requests messages systemPrompt m1 order1 None (set_world w1 st))
      as (k1 & r1 & st1 & Hrun1 & Hk1 & Ht1 & Hinr1 & Hinl1).
    rewrite Hrun1 in Hrun. destruct r1 as [response | lastError].
    + destruct (Hinl1 response eq_refl) as (Hpos & Htag & Hmodel).
      unfold ret in Hrun. inversion Hrun; subst o st'.
      exists order1, order1, k1, 0%nat. simpl.
      split; [exact P1|]. split; [exact P1|]. split; [rewrite <- L1; exact Hk1|].
      split; [lia|]. split; [rewrite Ht1, app_nil_r; reflexivity|].
      split; [lia|]. split; [intros e H; discriminate H|].
      intros r H. inversion H; subst r. split; [exact Hpos|]. split; assumption.
    + specialize (Hinr1 lastError eq_refl).
      unfold bind at 1 2 in Hrun. unfold ret at 1 in Hrun.
      destruct (ask_run (Math_random_draws env (List.length allKeys)) st1)
        as (d2 & w2 & E2).
      rewrite E2 in Hrun. unfold bind at 1 in Hrun.
      set (order2 := rearrange d2 allKeys) in *.
      assert (P2 : Permutation order2 allKeys) by apply rearrange_perm.
      pose proof (Permutation_length P2) as L2.
      destruct (gemini_keys_requests messages systemPrompt m2 order2 lastError (set_world w2 st1))
        as (k2 & r2 & st2 & Hrun2 & Hk2 & Ht2 & Hinr2 & Hinl2).
      rewrite Hrun2 in Hrun.
      assert (Htrace : trace st2
                       = (trace st ++ gemini_requests m1 fullPrompt (firstn k1 order1)
                                   ++ gemini_requests m2 fullPrompt (firstn k2 order2))%list).
      { rewrite Ht2. simpl. rewrite Ht1. simpl. rewrite <- app_assoc. reflexivity. }
      exists order1, order2, k1, k2.
      split; [exact P1|]. split; [exact P2|]. split; [rewrite <- L1; exact Hk1|].
      split; [rewrite <- L2; exact Hk2|].
      destruct r2 as [response | lastError'].
      * destruct (Hinl2 response eq_refl) as (Hpos & Htag & Hmodel).
        unfold ret in Hrun. inversion Hrun; subst o st'.
        split; [exact Htrace|].
        split; [intros _; rewrite <- L1; exact Hinr1|].
        split; [intros e H; discriminate H|].
        intros r H. inversion H; subst r.
        split; [rewrite Hinr1, L1; destruct allKeys; simpl in *; lia|]. split; [exact Htag|].
        destruct k2; [lia | exact Hmodel].
      * specialize (Hinr2 lastError' eq_refl).
        assert (Hthrow : exists e, o = Thrown e /\ st' = st2).
        { destruct lastError'; inversion Hrun; eexists; split; reflexivity. }
        destruct Hthrow as (e0 & -> & ->).
        split; [exact Htrace|].
        split; [intros _; rewrite <- L1; exact Hinr1|].
        split; [intros e _; split; [rewrite <- L1; exact Hinr1 | rewrite <- L2; exact Hinr2]|].
        intros r H. discriminate H.
Qed.


Lemma get_own_set_own_same k v l : Js.get_own (Js.set_own k v l) k = v.
Proof. unfold Js.get_own. rewrite assoc_set_own_same. reflexivity. Qed.

(** X9.  What [callGroq] hands back always has a text, unless the model
    gave none: for a non-empty answer of the model, the [text] of the result
    is truthy, be it the text of the JSON object found in the answer, the
    sentence put in its place, or the raw answer. *)
Theorem groq_result_has_text (text : string) :
  text <> "" -> Js.truthy (Js.get_own (groq_result text) "text") = true.
Proof.
  intros Hne. unfold groq_result.
  assert (Hraw : Js.truthy (VStr text) = true).
  { simpl. apply String.eqb_neq in Hne. rewrite Hne. reflexivity. }
  destruct (match_bracketed "{" "}" (strip_fences text)) as [objectMatch|]; [|exact Hraw].
  destruct (JSON.parse objectMatch) as [json|]; [|exact Hraw].
  rewrite get_own_spread_old;
    [| constructor; [intros [] | constructor] | reflexivity].
  destruct (Js.truthy (Js.get_own (own_props json) "text")) eqn:Et; simpl.
  - exact Et.
  - destruct (Js.truthy (Js.get_own (own_props json) "actions"));
      rewrite get_own_set_own_same; reflexivity.
Qed.

Lemma groq_result_has_text_witness :
  Js.truthy (Js.get_own (groq_result "{}") "text") = true.
Proof. apply (groq_result_has_text "{}"). discriminate. Defined.

Lemma callGroq_tagged messages systemPrompt (st st' : state World) r :
  callGroq env messages systemPrompt st = (Returned r, st') ->
  Js.get_own r "_aiSource" = VStr "LLAMA".
Proof.
  unfold callGroq. destruct (GROQ_API_KEYS env) as [|key keys]; [discriminate|].
  unfold shuffled. unfold bind, ret.
  destruct (ask_run (Math_random_draws env (List.length (key :: keys))) st) as (d & w & E).
  rewrite E. intros Hrun.
  destruct (groq_keys_requests messages systemPrompt (rearrange d (key :: keys)) None
              (set_world w st)) as (k & _ & _ & _ & Hret).
  apply (Hret r). rewrite Hrun. reflexivity.
Qed.

Lemma gemini_models_tagged messages systemPrompt modelsToTry :
  forall lastError (st st' : state World) r,
    gemini_models env messages systemPrompt modelsToTry lastError st = (Returned r, st') ->
    Js.get_own r "_aiSource" = VStr "GEMINI".
Proof.
  induction modelsToTry as [|modelName rest IH]; intros lastError st st' r.
  - simpl. destruct lastError; discriminate.
  - simpl. unfold bind at 1.
    destruct (shuffled_run env (GEMINI_API_KEYS env) st) as (l & st1 & E & _ & _).
    rewrite E. unfold bind at 1.
    destruct (gemini_keys_requests messages systemPrompt modelName l lastError st1)
      as (k & r1 & st2 & Hrun & _ & _ & _ & Hinl).
    rewrite Hrun. destruct r1 as [response | lastError'].
    + unfold ret. intros H. inversion H; subst.
      apply (Hinl r eq_refl).
    + apply IH.
Qed.

Lemma callGemini_tagged messages systemPrompt preferredModel (st st' : state World) r :
  callGemini env messages systemPrompt preferredModel st = (Returned r, st') ->
  Js.get_own r "_aiSource" = VStr "GEMINI".
Proof.
  unfold callGemini. destruct (GEMINI_API_KEYS env) as [|key keys] eqn:Ek; [discriminate|].
  apply gemini_models_tagged.
Qed.

Lemma try_provider_tagged p messages systemPrompt options (st st' : state World) r :
  try_provider env p messages systemPrompt options st = (Returned r, st') ->
  Js.get_own r "_aiSource" = VStr (aiSource_of p).
Proof.
  unfold try_provider. destruct p; unfold tryGemini, tryGroq, bind;
    change (emit (TryProvider ?q) st) with (Returned tt, snd (emit (TryProvider q) st));
    cbv beta iota.
  - apply callGemini_tagged.
  - apply callGroq_tagged.
Qed.

(** X10.  Every answer of [getLLMResponse] other than the degraded one
    carries the tag of the provider that produced it: the run returns
    either an answer of the preferred provider, tagged with it, after
    entering that provider only; or an answer of the other provider, tagged
    with that one, after entering both; or the degraded answer, which has no
    tag, after entering both.  The tags are GEMINI and LLAMA. *)
Theorem getLLMResponse_answers_carry_their_provider
    (messages : list message) (systemPrompt : string)
    (options : option llm_options) (st : state World) :
  exists r st' evs,
    getLLMResponse env messages systemPrompt options st = (Returned r, st')
    /\ trace st' = (trace st ++ evs)%list
    /\ ( (Js.get_own r "_aiSource" = VStr (aiSource_of (preferred options))
          /\ providers_tried evs = [preferred options])
        \/ (Js.get_own r "_aiSource" = VStr (aiSource_of (other (preferred options)))
            /\ providers_tried evs = [preferred options; other (preferred options)])
        \/ (r = unavailable
            /\ Js.get_own r "_aiSource" = VUndefined
            /\ providers_tried evs = [preferred options; other (preferred options)]) ).
Proof.
  rewrite getLLMResponse_unfold. unfold try_catch, bind, message_of, ret.
  pose proof (try_provider_run env (preferred options) messages systemPrompt options st)
    as [(evs1 & T1 & P1) [Herr1 _]].
  pose proof (try_provider_tagged (preferred options) messages systemPrompt options st) as Tag1.
  destruct (try_provider env (preferred options) messages systemPrompt options st)
    as [[r1|e1] st1]; simpl in T1, Herr1.
  - exists r1, st1, evs1. split; [reflexivity|]. split; [exact T1|].
    left. split; [exact (Tag1 st1 r1 eq_refl) | exact P1].
  - destruct (Herr1 e1 eq_refl) as [m1 ->].
    pose proof (try_provider_run env (other (preferred options)) messages systemPrompt options st1)
      as [(evs2 & T2 & P2) _].
    pose proof (try_provider_tagged (other (preferred options)) messages systemPrompt options st1)
      as Tag2.
    assert (P12 : providers_tried (evs1 ++ evs2)
                  = [preferred options; other (preferred options)]).
    { unfold providers_tried in *. rewrite flat_map_app, P1, P2. reflexivity. }
    destruct (try_provider env (other (preferred options)) messages systemPrompt options st1)
      as [[r2|e2] st2]; simpl in T2.
    + exists r2, st2, (evs1 ++ evs2)%list. split; [reflexivity|].
      split; [rewrite T2, T1, app_assoc; reflexivity|].
      right. left. split; [exact (Tag2 st2 r2 eq_refl) | exact P12].
    + exists unavailable, st2, (evs1 ++ evs2)%list. split; [reflexivity|].
      split; [rewrite T2, T1, app_assoc; reflexivity|].
      right. right. split; [reflexivity|]. split; [reflexivity | exact P12].
Qed.

(** X11.  Without any configured key nothing is sent: when GEMINI_API_KEYS
    and GROQ_API_KEYS are both empty, [getLLMResponse] enters the two
    providers, each of which refuses at once, and returns the degraded
    answer; the trace gains the two entries and no request, and neither the
    clock nor the random source is consulted. *)
Theorem getLLMResponse_without_keys_sends_nothing
    (messages : list message) (systemPrompt : string)
    (options : option llm_options) (st : state World) :
  GEMINI_API_KEYS env = [] ->
  GROQ_API_KEYS env = [] ->
  getLLMResponse env messages systemPrompt options st
  = (Returned unavailable,
     snd (emit (TryProvider (other (preferred options)))
            (snd (emit (TryProvider (preferred options)) st)))).
Proof.
  intros Hg Hq. rewrite getLLMResponse_unfold.
  unfold try_catch, try_provider.
  destruct (preferred options); simpl other; cbv beta iota;
    unfold tryGemini, tryGroq, callGemini, callGroq; rewrite Hg, Hq; reflexivity.
Qed.

End ClientRequests.

Lemma getLLMResponse_without_keys_sends_nothing_witness :
  AiService.getLLMResponse Notions.no_keys
    [ {| role := "user"; content := "hello" |} ] "You are a counsellor." None Spec.empty_state
  = (Returned AiService.unavailable,
     snd (emit (TryProvider (Spec.other (Spec.preferred None)))
            (snd (emit (TryProvider (Spec.preferred None)) Spec.empty_state)))).
Proof.
  apply (getLLMResponse_without_keys_sends_nothing Notions.no_keys
           [ {| role := "user"; content := "hello" |} ] "You are a counsellor." None
           Spec.empty_state).
  - reflexivity.
  - reflexivity.
Defined.

(** ** enrichUniversity: what a failed enrichment leaves behind *)

Section EnrichCoverage.
Import JsStr AiService Spec EnrichmentCache Notions Requests.
Context {World : Type}.
Variable env : environment World.
Variable prompts : templates.
Local Open Scope js_scope.

Lemma upsert_fresh_key new_id e t :
  filter (key_is (entry_university_name e) (entry_country e)) t = [] ->
  upsert new_id e t = ((t ++ [inserted new_id e])%list, inserted new_id e).
Proof.
  induction t as [|r t IH]; simpl; intros H; [reflexivity|].
  destruct (key_is (entry_university_name e) (entry_country e) r); [discriminate|].
  rewrite (IH H). reflexivity.
Qed.

Lemma enrichedData_of_unavailable name country :
  enrichedData_of (World := World) name country unavailable = ret (parse_failure name country).
Proof. vm_compute. reflexivity. Qed.

(** The source tag read off an answer of the router is GEMINI, LLAMA or,
    for the degraded answer, AI. *)
Lemma getLLMResponse_source messages systemPrompt options (st st' : state World) r :
  getLLMResponse env messages systemPrompt options st = (Returned r, st') ->
  In (source_of r) router_sources.
Proof.
  rewrite getLLMResponse_unfold. unfold try_catch, bind, message_of, ret.
  pose proof (try_provider_run env (preferred options) messages systemPrompt options st)
    as [_ [Herr1 _]].
  pose proof (try_provider_tagged env (preferred options) messages systemPrompt options st) as Tag1.
  assert (Htag : forall p x, Js.get_own x "_aiSource" = VStr (aiSource_of p) ->
                             In (source_of x) router_sources).
  { intros p x H. unfold source_of. rewrite H. destruct p; simpl; tauto. }
  destruct (try_provider env (preferred options) messages systemPrompt options st)
    as [[r1|e1] st1]; simpl in Herr1.
  - intros H. inversion H; subst. exact (Htag _ _ (Tag1 _ _ eq_refl)).
  - destruct (Herr1 e1 eq_refl) as [m1 ->].
    pose proof (try_provider_tagged env (other (preferred options)) messages systemPrompt
                  options st1) as Tag2.
    destruct (try_provider env (other (preferred options)) messages systemPrompt options st1)
      as [[r2|e2] st2].
    + intros H. inversion H; subst. exact (Htag _ _ (Tag2 _ _ eq_refl)).
    + intros H. inversion H; subst. simpl. tauto.
Qed.

Lemma router_sources_not_inherited s :
  In s router_sources -> Js.inherited s = VUndefined.
Proof. simpl. intros [<-|[<-|[<-|[]]]]; reflexivity. Qed.

(** X12.  A failed enrichment is written to the cache.  When no row is
    stored under the trimmed name and country and the router comes back
    with the degraded answer, [enrichUniversity] returns the record
    [{name, country, error: 'Failed to parse AI response'}], marked
    [cached: false] with source AI, and the cache afterwards holds exactly
    one row under the key, whose payload is that record. *)
Theorem enrichUniversity_caches_the_failure_record
    (name country : string) (st st1 : state World) :
  rows_with_key (trim name) (trim country) (enrichment_cache st) = [] ->
  enrichment_request env prompts name country st = (Returned unavailable, st1) ->
  exists (r : enrichment) (st' : state World) (stored : row),
    enrichUniversity env prompts name country st = (Returned r, st')
    /\ fields r = parse_failure name country
    /\ cached (_cache_meta r) = false
    /\ meta_source (_cache_meta r) = "AI"
    /\ meta_confidence_score (_cache_meta r)
       = ConfidenceScorer.calculateConfidenceScore (parse_failure name country) "AI" false
    /\ rows_with_key (trim name) (trim country) (enrichment_cache st') = [stored]
    /\ enriched_data stored = parse_failure name country
    /\ source stored = "AI"
    /\ is_verified stored = false
    /\ Js.truthy (Js.get_own (enriched_data stored) "error") = true.
Proof.
  intros Hmiss Hllm. unfold rows_with_key in Hmiss.
  destruct (getLLMResponse_returns env
              [ {| role := "user"; content := "Enrich data for " ++ name ++ " in " ++ country |} ]
              (enrichment_systemPrompt prompts name country)
              (Some (OptObject (Some "GEMINI") (Some "gemini-2.5-flash-lite"))) st)
    as (r0 & st0 & evs & E0 & _ & _ & Hstore).
  unfold enrichment_request in Hllm. rewrite Hllm in E0. inversion E0; subst r0 st0.
  destruct Hstore as (Hcache & _).
  unfold enrichUniversity, bind at 1.
  unfold AiService.getCachedEnrichment at 1. rewrite Hmiss. cbn [Js.single].
  unfold enrich_fresh, try_catch, bind at 1. rewrite Hllm.
  unfold bind at 1. rewrite enrichedData_of_unavailable. unfold ret at 1.
  change (source_of unavailable) with "AI".
  unfold bind at 1.
  unfold AiService.setCachedEnrichment, bind, ask.
  destruct (Date_now env (world st1)) as [created w1]. cbn [world set_world].
  destruct (Date_now env w1) as [accessed w2]. cbn [world set_world].
  destruct (uuid_generate_v4 env w2) as [new_id w3]. cbn [world set_world enrichment_cache].
  unfold EnrichmentCache.setCachedEnrichment.
  rewrite upsert_fresh_key by (cbn [entry_university_name entry_country]; rewrite Hcache; exact Hmiss).
  cbn [world set_world set_enrichment_cache].
  destruct (Date_now env w3) as [created' w4].
  unfold ret. eexists _, _, _. split; [reflexivity|].
  split; [reflexivity|]. split; [reflexivity|]. split; [reflexivity|]. split; [reflexivity|].
  split.
  - cbn [enrichment_cache set_enrichment_cache set_world]. unfold rows_with_key.
    rewrite filter_app, Hcache, Hmiss. cbn [filter app].
    unfold key_is, inserted.
    cbn [university_name EnrichmentCache.country entry_university_name entry_country].
    rewrite !String.eqb_refl. reflexivity.
  - repeat split.
Qed.


Lemma unverified_score_bounds enrichedData source :
  In source router_sources ->
  (0.25 <=? ConfidenceScorer.calculateConfidenceScore enrichedData source false)%float = true
  /\ (ConfidenceScorer.calculateConfidenceScore enrichedData source false <=? 0.8)%float = true.
Proof.
  intros Hin. rewrite calculateConfidenceScore_kernel.
  pose proof score_bounds_checked as Hall. unfold score_bounds_on in Hall.
  rewrite forallb_forall in Hall. specialize (Hall _ (presentFields_count enrichedData)).
  rewrite forallb_forall in Hall.
  specialize (Hall _ (source_operand_listed source (router_sources_not_inherited source Hin))).
  rewrite !andb_true_iff in Hall. tauto.
Qed.

Lemma getCachedEnrichment_hit_is_cached name country (st st1 : state World) c :
  AiService.getCachedEnrichment env name country st = (Returned (Some c), st1) ->
  cached (_cache_meta c) = true.
Proof.
  unfold AiService.getCachedEnrichment.
  destruct (Js.single _) as [data|] eqn:Es; [|discriminate].
  destruct (Date_now env (world st)) as [now w].
  unfold EnrichmentCache.getCachedEnrichment. rewrite Es.
  destruct (now - created_at data >? ttl_of data)%Z; cbn [fst]; [discriminate|].
  destruct (Date_now env w) as [accessed w'].
  intros H; inversion H; reflexivity.
Qed.

Lemma enrich_fresh_scores name country (st : state World) :
  exists r st',
    enrich_fresh env prompts name country st = (Returned r, st')
    /\ cached (_cache_meta r) = false
    /\ ( (meta_source (_cache_meta r) = "ERROR"
          /\ meta_confidence_score (_cache_meta r) = 0%float)
        \/ (In (meta_source (_cache_meta r)) router_sources
            /\ (0.25 <=? meta_confidence_score (_cache_meta r))%float = true
            /\ (meta_confidence_score (_cache_meta r) <=? 0.8)%float = true) ).
Proof.
  unfold enrich_fresh, try_catch, bind.
  destruct (getLLMResponse_returns env
              [ {| role := "user"; content := "Enrich data for " ++ name ++ " in " ++ country |} ]
              (enrichment_systemPrompt prompts name country)
              (Some (OptObject (Some "GEMINI") (Some "gemini-2.5-flash-lite"))) st)
    as (response & st1 & evs & E & _).
  rewrite E.
  pose proof (getLLMResponse_source _ _ _ _ _ _ E) as Hsrc.
  destruct (enrichedData_of_run name country response st1) as (o & Eo). rewrite Eo.
  destruct o as [enrichedData | e].
  - destruct (setCachedEnrichment_run env name country enrichedData (source_of response) st1)
      as (d & st2 & Es & Ts).
    rewrite Es.
    destruct (ask_run (Date_now env) st2) as (created & w & Ea). rewrite Ea.
    unfold ret. eexists _, _. split; [reflexivity|]. split; [reflexivity|].
    right. split; [exact Hsrc|]. apply unverified_score_bounds. exact Hsrc.
  - unfold ret. eexists _, _. split; [reflexivity|]. split; [reflexivity|].
    left. split; reflexivity.
Qed.

(** X13.  The confidence [enrichUniversity] attaches to a fresh result is
    always a number in range.  The call always returns; what it returns is
    either served from the cache, or the failure record with source ERROR
    and confidence 0, or a fresh record whose source is GEMINI, LLAMA or AI
    and whose confidence lies in [0.25, 0.8]: the source tag comes from the
    provider clients, so the score never meets a tag the table does not
    know. *)
Theorem enrichUniversity_fresh_scores_are_in_range
    (name country : string) (st : state World) :
  exists (r : enrichment) (st' : state World),
    enrichUniversity env prompts name country st = (Returned r, st')
    /\ ( cached (_cache_meta r) = true
        \/ (cached (_cache_meta r) = false
            /\ meta_source (_cache_meta r) = "ERROR"
            /\ meta_confidence_score (_cache_meta r) = 0%float)
        \/ (cached (_cache_meta r) = false
            /\ In (meta_source (_cache_meta r)) router_sources
            /\ (0.25 <=? meta_confidence_score (_cache_meta r))%float = true
            /\ (meta_confidence_score (_cache_meta r) <=? 0.8)%float = true) ).
Proof.
  unfold enrichUniversity, bind.
  destruct (getCachedEnrichment_run env name country st) as (c & st1 & E & _).
  rewrite E.
  assert (Hfresh : exists r st',
             enrich_fresh env prompts name country st1 = (Returned r, st')
             /\ ( cached (_cache_meta r) = true
                 \/ (cached (_cache_meta r) = false
                     /\ meta_source (_cache_meta r) = "ERROR"
                     /\ meta_confidence_score (_cache_meta r) = 0%float)
                 \/ (cached (_cache_meta r) = false
                     /\ In (meta_source (_cache_meta r)) router_sources
                     /\ (0.25 <=? meta_confidence_score (_cache_meta r))%float = true
                     /\ (meta_confidence_score (_cache_meta r) <=? 0.8)%float = true) )).
  { destruct (enrich_fresh_scores name country st1) as (r & st' & Er & Hc & H).
    exists r, st'. split; [exact Er|]. right.
    destruct H as [[H1 H2] | [H1 H2]]; [left | right]; tauto. }
  destruct c as [c|]; [|exact Hfresh].
  destruct (Js.truthy (Js.get_own (fields c) "error")); simpl; [exact Hfresh|].
  exists c, st1. split; [reflexivity|]. left.
  exact (getCachedEnrichment_hit_is_cached name country st st1 c E).
Qed.

End EnrichCoverage.

Lemma enrichUniversity_caches_the_failure_record_witness :
  exists (r : EnrichmentCache.enrichment) (st' : state unit) (stored : EnrichmentCache.row),
    AiService.enrichUniversity Spec.endpoints_down Spec.sample_prompts "MIT" " USA"
      Spec.empty_state = (Returned r, st')
    /\ EnrichmentCache.fields r = AiService.parse_failure "MIT" " USA"
    /\ EnrichmentCache.cached (EnrichmentCache._cache_meta r) = false
    /\ EnrichmentCache.meta_source (EnrichmentCache._cache_meta r) = "AI"
    /\ EnrichmentCache.meta_confidence_score (EnrichmentCache._cache_meta r)
       = ConfidenceScorer.calculateConfidenceScore (AiService.parse_failure "MIT" " USA") "AI" false
    /\ EnrichmentCache.rows_with_key (JsStr.trim "MIT") (JsStr.trim " USA")
         (enrichment_cache st') = [stored]
    /\ EnrichmentCache.enriched_data stored = AiService.parse_failure "MIT" " USA"
    /\ EnrichmentCache.source stored = "AI"
    /\ EnrichmentCache.is_verified stored = false
    /\ Js.truthy (Js.get_own (EnrichmentCache.enriched_data stored) "error") = true.
Proof.
  apply (enrichUniversity_caches_the_failure_record Spec.endpoints_down Spec.sample_prompts
           "MIT" " USA" Spec.empty_state
           (snd (Requests.enrichment_request Spec.endpoints_down Spec.sample_prompts
                   "MIT" " USA" Spec.empty_state))).
  - reflexivity.
  - vm_compute. reflexivity.
Defined.

(** ** Discovery analysis: users without a profile, and degraded answers *)

Section DiscoveryCoverage.
Import JsStr AiService DiscoveryAnalysis Spec Requests Notions.
Context {World : Type}.
Variable env : environment World.
Variable prompts : templates.
Local Open Scope js_scope.

Lemma assign_keeps id k (v d : value) acc :
  Js.assoc id acc = Some d -> v = d -> Js.assoc id (Js.assign k v acc) = Some d.
Proof.
  intros H ->. destruct (String.eqb id k) eqn:E.
  - apply String.eqb_eq in E. subst k.
    destruct (String.eqb id "__proto__") eqn:Ep.
    + unfold Js.assign. rewrite Ep. exact H.
    + apply assoc_assign_same. apply String.eqb_neq. exact Ep.
  - rewrite assoc_assign_other; [exact H | apply String.eqb_neq; exact E].
Qed.

Lemma createDefaultAnalyses_keeps ids : forall acc id,
  Js.assoc id acc = Some getDefaultAnalysis ->
  Js.assoc id (fold_left (fun defaultMap i => Js.assign i getDefaultAnalysis defaultMap) ids acc)
  = Some getDefaultAnalysis.
Proof.
  induction ids as [|i ids IH]; intros acc id H; simpl; [exact H|].
  apply IH. apply assign_keeps; [exact H | reflexivity].
Qed.

Lemma createDefaultAnalyses_requested ids : forall acc id,
  In id ids -> id <> "__proto__" ->
  Js.assoc id (fold_left (fun defaultMap i => Js.assign i getDefaultAnalysis defaultMap) ids acc)
  = Some getDefaultAnalysis.
Proof.
  induction ids as [|i ids IH]; intros acc id Hin Hne; simpl; [contradiction|].
  destruct Hin as [-> | Hin]; [|apply IH; assumption].
  apply createDefaultAnalyses_keeps. apply assoc_assign_same. exact Hne.
Qed.

Lemma createDefaultAnalyses_others ids : forall acc id,
  ~ (In id ids /\ id <> "__proto__") ->
  Js.assoc id (fold_left (fun defaultMap i => Js.assign i getDefaultAnalysis defaultMap) ids acc)
  = Js.assoc id acc.
Proof.
  induction ids as [|i ids IH]; intros acc id H; simpl; [reflexivity|].
  rewrite IH by (intros [Hin Hne]; apply H; split; [right; exact Hin | exact Hne]).
  destruct (String.eqb i "__proto__") eqn:Ei.
  - unfold Js.assign. rewrite Ei. reflexivity.
  - apply assoc_assign_other. intros ->. apply H. split; [left; reflexivity|].
    apply String.eqb_neq. exact Ei.
Qed.

(** X14.  For a user without a profile nothing is sent to the model and
    nothing is written.  [analyzeUniversityForDiscovery] returns the stored
    analysis exactly when the one row of the pair passes the placeholder
    test without a TypeError (its first fit reason is absent, a string or an
    array), is not older than 7 days and is complete; in every other case it
    returns the default analysis.  [batchAnalyzeUniversities] returns at
    once the object [createDefaultAnalyses] builds, whose own properties are
    the default analysis under every requested id other than [__proto__],
    and nothing else.  In both cases the trace and the tables are left as
    they were. *)
Theorem discovery_without_profile_is_silent
    (userId universityId : string) (universityIds : list string) (st : state World) :
  lookup userId (profiles st) = None ->
  (exists st',
      analyzeUniversityForDiscovery env prompts userId universityId st
      = (Returned
           (answer_without_profile (fst (Date_now env (world st)))
              (Js.single (filter (analysis_key_is userId universityId)
                            (user_university_analyses st)))),
         st')
      /\ trace st' = trace st
      /\ same_store st st')
  /\ batchAnalyzeUniversities env prompts userId universityIds st
     = (Returned (createDefaultAnalyses universityIds), st)
  /\ (forall id,
        In id universityIds -> id <> "__proto__" ->
        Js.assoc id (createDefaultAnalyses universityIds) = Some getDefaultAnalysis)
  /\ (forall id,
        Js.assoc id (createDefaultAnalyses universityIds) <> None ->
        In id universityIds /\ id <> "__proto__").
Proof.
  intros Hp. split; [|split; [|split]].
  - unfold analyzeUniversityForDiscovery, try_catch, analyze_body, bind,
      fetch_profile, log_profile, getCachedAnalysis.
    rewrite Hp. unfold ret at 1. cbv beta iota.
    destruct (Js.single (filter (analysis_key_is userId universityId)
                           (user_university_analyses st))) as [c|] eqn:Ec.
    + unfold answer_without_profile, servable. cbn [isGenericCache].
      destruct (includes_opt (first_reason (analysis c)) sentinel) as [isGeneric|].
      * unfold ret at 1. cbv beta iota.
        rewrite (cache_usable_run env (Some c) false st).
        rewrite andb_true_r.
        destruct (negb (isStale (fst (Date_now env (world st))) (analyzed_at c))
                  && isValidAnalysis (analysis c));
          eexists; (split; [reflexivity|]); (split; [reflexivity | repeat split]).
      * unfold throw, message_of, bind, ret. eexists. split; [reflexivity|].
        split; [reflexivity | repeat split].
    + cbn [isGenericCache answer_without_profile]. unfold ret at 1. cbv beta iota.
      rewrite (cache_usable_run env None false st).
      eexists. split; [reflexivity|]. split; [reflexivity | repeat split].
  - unfold batchAnalyzeUniversities, try_catch, bind, fetch_profile.
    rewrite Hp. reflexivity.
  - intros id Hin Hne. apply createDefaultAnalyses_requested; assumption.
  - intros id Hsome.
    destruct (in_dec string_dec id universityIds) as [Hin|Hnin].
    + split; [exact Hin|]. intros ->. apply Hsome.
      unfold createDefaultAnalyses. rewrite createDefaultAnalyses_others; [reflexivity|].
      intros [_ H]. apply H. reflexivity.
    + exfalso. apply Hsome.
      unfold createDefaultAnalyses. rewrite createDefaultAnalyses_others; [reflexivity|].
      intros [H _]. exact (Hnin H).
Qed.

Lemma parse_response_unavailable : parse_response (VObj unavailable) = None.
Proof. vm_compute. reflexivity. Qed.

Lemma analysisArray_of_unavailable :
  analysisArray_of (World := World) unavailable = ret (inl tt).
Proof. vm_compute. reflexivity. Qed.

(** X15.  The degraded answer of the router is never stored as an
    analysis.  For a user with a profile whose preferred countries can be
    joined (an array of values that convert to strings, or none) and no
    stored row for the pair, when the university exists and the router comes
    back with the degraded answer, [analyzeUniversityForDiscovery] returns
    the default analysis and leaves the analysis table as it was. *)
Theorem discovery_never_stores_the_degraded_answer
    (userId universityId : string) (st st1 : state World)
    (profile university : list (string * value)) :
  lookup userId (profiles st) = Some profile ->
  joins_opt (Js.get_own profile "preferred_countries") = true ->
  Js.single (filter (analysis_key_is userId universityId) (user_university_analyses st))
  = None ->
  lookup universityId (universities st) = Some university ->
  discovery_request env prompts profile university st = (Returned unavailable, st1) ->
  analyzeUniversityForDiscovery env prompts userId universityId st
  = (Returned getDefaultAnalysis, st1)
  /\ user_university_analyses st1 = user_university_analyses st.
Proof.
  intros Hp Hj Hc Hu Hllm.
  assert (Hbody : analyze_body env prompts userId universityId st
                  = analyze_fresh env prompts userId universityId profile st).
  { unfold analyze_body, bind, fetch_profile, log_profile, getCachedAnalysis.
    rewrite Hp, Hj. unfold ret at 1. cbv beta iota. rewrite Hc. reflexivity. }
  destruct (analyze_miss_run env prompts userId universityId profile university st st
              Hp Hj Hu Hbody eq_refl eq_refl) as (response & st1' & evs & Ereq & _ & _ & S & Hrun).
  rewrite Hllm in Ereq. inversion Ereq; subst response st1'.
  rewrite parse_response_unavailable in Hrun. split; [exact Hrun|].
  destruct S as (_ & _ & _ & Han). exact Han.
Qed.

(** X16.  The same for the batch: for a user with a profile whose
    preferred countries can be joined (an array, or a falsy value, which
    counts as none) and at least one requested university in the table, when the router comes back with the degraded
    answer, [batchAnalyzeUniversities] returns the default analyses of the
    requested ids and stores nothing. *)
Theorem batch_analysis_never_stores_the_degraded_answer
    (userId : string) (universityIds : list string) (st st1 : state World)
    (profile : list (string * value)) :
  lookup userId (profiles st) = Some profile ->
  joins (Js.or (Js.get_own profile "preferred_countries") (VArr [])) = true ->
  fetched_universities universityIds st <> [] ->
  batch_analysis_request env prompts profile (fetched_universities universityIds st) st
  = (Returned unavailable, st1) ->
  batchAnalyzeUniversities env prompts userId universityIds st
  = (Returned (createDefaultAnalyses universityIds), st1)
  /\ user_university_analyses st1 = user_university_analyses st.
Proof.
  intros Hp Hpc Hne Hllm. unfold batch_analysis_request in Hllm. split.
  - unfold batchAnalyzeUniversities, try_catch, bind, fetch_profile, fetch_universities.
    rewrite Hp. fold (fetched_universities universityIds st).
    destruct (fetched_universities universityIds st) as [|u unis] eqn:Ef; [congruence|].
    unfold buildBatchPrompt. rewrite Hpc. unfold ret at 1. cbv beta iota.
    rewrite Hllm, analysisArray_of_unavailable. reflexivity.
  - destruct (getLLMResponse_returns env
                [ {| role := "user";
                     content := batch_analysis_userPrompt prompts
                                  (List.length (fetched_universities universityIds st)) |} ]
                (batch_analysis_systemPrompt prompts profile
                   (map snd (fetched_universities universityIds st)))
                (Some (OptString "GROQ")) st) as (r0 & st0 & evs & E0 & _ & _ & Hstore).
    rewrite Hllm in E0. inversion E0; subst. apply Hstore.
Qed.

(** X26.  A profile whose preferred countries cannot be joined silently
    gets defaults.  When [preferred_countries] is neither null, undefined
    nor an array of values that convert to strings,
    [analyzeUniversityForDiscovery] returns the default analysis without
    reading the stored analysis or the clock, asking the model or writing
    anything, even if a complete and recent analysis is stored for the pair.
    When [preferred_countries || []] cannot be joined (a truthy value that
    is no such array), [batchAnalyzeUniversities] returns the default
    analyses of the requested ids, again without asking the model or writing
    anything. *)
Theorem malformed_preferred_countries_give_defaults
    (userId universityId : string) (universityIds : list string) (st : state World)
    (profile : list (string * value)) :
  lookup userId (profiles st) = Some profile ->
  (joins_opt (Js.get_own profile "preferred_countries") = false ->
   analyzeUniversityForDiscovery env prompts userId universityId st
   = (Returned getDefaultAnalysis, st))
  /\ (joins (Js.or (Js.get_own profile "preferred_countries") (VArr [])) = false ->
      fetched_universities universityIds st <> [] ->
      batchAnalyzeUniversities env prompts userId universityIds st
      = (Returned (createDefaultAnalyses universityIds), st)).
Proof.
  intros Hp. split.
  - intros Hj.
    unfold analyzeUniversityForDiscovery, try_catch, analyze_body, bind,
      fetch_profile, log_profile.
    rewrite Hp, Hj. reflexivity.
  - intros Hj Hne.
    unfold batchAnalyzeUniversities, try_catch, bind, fetch_profile, fetch_universities.
    rewrite Hp. fold (fetched_universities universityIds st).
    destruct (fetched_universities universityIds st) as [|u unis] eqn:Ef; [congruence|].
    unfold buildBatchPrompt. rewrite Hj. reflexivity.
Qed.

End DiscoveryCoverage.

Lemma discovery_without_profile_is_silent_witness :
  (exists st',
      DiscoveryAnalysis.analyzeUniversityForDiscovery Spec.endpoints_down Spec.sample_prompts
        "user-1" "uni-1" (Spec.state_with_placeholder false)
      = (Returned
           (Notions.answer_without_profile
              (fst (Date_now Spec.endpoints_down (world (Spec.state_with_placeholder false))))
              (Js.single (filter (DiscoveryAnalysis.analysis_key_is "user-1" "uni-1")
                            (user_university_analyses (Spec.state_with_placeholder false))))),
         st')
      /\ trace st' = trace (Spec.state_with_placeholder false)
      /\ Spec.same_store (Spec.state_with_placeholder false) st')
  /\ DiscoveryAnalysis.batchAnalyzeUniversities Spec.endpoints_down Spec.sample_prompts
       "user-1" ["uni-1"; "__proto__"] (Spec.state_with_placeholder false)
     = (Returned (DiscoveryAnalysis.createDefaultAnalyses ["uni-1"; "__proto__"]),
        Spec.state_with_placeholder false)
  /\ (forall id,
        In id ["uni-1"; "__proto__"] -> id <> "__proto__" ->
        Js.assoc id (DiscoveryAnalysis.createDefaultAnalyses ["uni-1"; "__proto__"])
        = Some DiscoveryAnalysis.getDefaultAnalysis)
  /\ (forall id,
        Js.assoc id (DiscoveryAnalysis.createDefaultAnalyses ["uni-1"; "__proto__"]) <> None ->
        In id ["uni-1"; "__proto__"] /\ id <> "__proto__").
Proof.
  apply (discovery_without_profile_is_silent Spec.endpoints_down Spec.sample_prompts
           "user-1" "uni-1" ["uni-1"; "__proto__"] (Spec.state_with_placeholder false)).
  reflexivity.
Defined.

Lemma discovery_never_stores_the_degraded_answer_witness :
  DiscoveryAnalysis.analyzeUniversityForDiscovery Spec.endpoints_down Spec.sample_prompts
    "user-1" "uni-1" Spec.one_university_state
  = (Returned DiscoveryAnalysis.getDefaultAnalysis,
     snd (Requests.discovery_request Spec.endpoints_down Spec.sample_prompts
            [("budget_max", VNum 30000)]
            [("name", VStr "Example Institute"); ("country", VStr "Testland")]
            Spec.one_university_state))
  /\ user_university_analyses
       (snd (Requests.discovery_request Spec.endpoints_down Spec.sample_prompts
               [("budget_max", VNum 30000)]
               [("name", VStr "Example Institute"); ("country", VStr "Testland")]
               Spec.one_university_state))
     = user_university_analyses Spec.one_university_state.
Proof.
  apply (discovery_never_stores_the_degraded_answer Spec.endpoints_down Spec.sample_prompts
           "user-1" "uni-1" Spec.one_university_state _
           [("budget_max", VNum 30000)]
           [("name", VStr "Example Institute"); ("country", VStr "Testland")]).
  - reflexivity.
  - reflexivity.
  - reflexivity.
  - reflexivity.
  - vm_compute. reflexivity.
Defined.

Lemma batch_analysis_never_stores_the_degraded_answer_witness :
  DiscoveryAnalysis.batchAnalyzeUniversities Spec.endpoints_down Spec.sample_prompts
    "user-1" ["uni-1"] Spec.one_university_state
  = (Returned (DiscoveryAnalysis.createDefaultAnalyses ["uni-1"]),
     snd (Spec.batch_analysis_request Spec.endpoints_down Spec.sample_prompts
            [("budget_max", VNum 30000)]
            (Spec.fetched_universities ["uni-1"] Spec.one_university_state)
            Spec.one_university_state))
  /\ user_university_analyses
       (snd (Spec.batch_analysis_request Spec.endpoints_down Spec.sample_prompts
               [("budget_max", VNum 30000)]
               (Spec.fetched_universities ["uni-1"] Spec.one_university_state)
               Spec.one_university_state))
     = user_university_analyses Spec.one_university_state.
Proof.
  apply (batch_analysis_never_stores_the_degraded_answer Spec.endpoints_down Spec.sample_prompts
           "user-1" ["uni-1"] Spec.one_university_state _ [("budget_max", VNum 30000)]).
  - reflexivity.
  - reflexivity.
  - vm_compute. discriminate.
  - vm_compute. reflexivity.
Defined.

(** A profile that holds the text "Germany" as its preferred countries:
    the complete analysis stored five seconds earlier is not served, and
    the batch comes back with defaults; Groq, which would answer, is not
    asked. *)
Lemma malformed_preferred_countries_give_defaults_witness :
  DiscoveryAnalysis.analyzeUniversityForDiscovery
    (Spec.groq_answers Requests.complete_analysis_text) Spec.sample_prompts
    "user-1" "uni-1" Requests.state_with_text_countries
  = (Returned DiscoveryAnalysis.getDefaultAnalysis, Requests.state_with_text_countries)
  /\ DiscoveryAnalysis.batchAnalyzeUniversities
       (Spec.groq_answers Requests.complete_analysis_text) Spec.sample_prompts
       "user-1" ["uni-1"] Requests.state_with_text_countries
     = (Returned (DiscoveryAnalysis.createDefaultAnalyses ["uni-1"]),
        Requests.state_with_text_countries).
Proof.
  destruct (malformed_preferred_countries_give_defaults
              (Spec.groq_answers Requests.complete_analysis_text) Spec.sample_prompts
              "user-1" "uni-1" ["uni-1"] Requests.state_with_text_countries
              [("preferred_countries", VStr "Germany")] eq_refl) as [H1 H2].
  split.
  - apply H1. reflexivity.
  - apply H2; [reflexivity | vm_compute; discriminate].
Defined.

(** ** universityService and universityEnrichment: defaults and the map
       built from the model's array *)

Section TuitionDefaults.
Import UniversityEnrichment Reconciliation.

Lemma assoc_In {A : Type} k (l : list (string * A)) v :
  Js.assoc k l = Some v -> In (k, v) l.
Proof.
  induction l as [|[k' v'] l IH]; simpl; [discriminate|].
  destruct (String.eqb k k') eqn:E.
  - intros H. inversion H; subst. apply String.eqb_eq in E. subst. left. reflexivity.
  - intros H. right. exact (IH H).
Qed.

Lemma tuition_defaults_usable :
  forallb (fun kv => usable_tuition (Js.or (snd kv) (VNum 15000))) tuition_defaults = true.
Proof. vm_compute. reflexivity. Qed.

Lemma inherited_truthy_or_undefined k :
  Js.inherited k = VUndefined \/ Js.truthy (Js.inherited k) = true.
Proof.
  unfold Js.inherited. destruct (String.eqb k "__proto__"); [right; reflexivity|].
  destruct (existsb (String.eqb k) Js.Object_prototype_methods); [right | left]; reflexivity.
Qed.

Lemma getDefaultTuitionByCountry_truthy country :
  Js.truthy (getDefaultTuitionByCountry country) = true.
Proof.
  unfold getDefaultTuitionByCountry, Js.get_own.
  destruct (Js.assoc country tuition_defaults) as [v|] eqn:E.
  - pose proof tuition_defaults_usable as H. rewrite forallb_forall in H.
    specialize (H _ (assoc_In _ _ _ E)). simpl in H.
    unfold usable_tuition in H. apply andb_true_iff in H. apply H.
  - destruct (inherited_truthy_or_undefined country) as [H|H].
    + rewrite H. reflexivity.
    + unfold Js.or. rewrite H. exact H.
Qed.

(** X17.  A default tuition is never zero.  [getDefaultTuitionByCountry]
    always returns a truthy value; for a country that names nothing
    inherited from Object.prototype it is a number between 1500 and 28000;
    and the countries the table lists as free (Sweden, Norway, Denmark,
    Finland, all entered as 0) get the fallback 15000, as every country
    outside the table does. *)
Theorem getDefaultTuitionByCountry_is_never_zero (country : string) :
  Js.truthy (getDefaultTuitionByCountry country) = true
  /\ (Js.inherited country = VUndefined ->
      exists n, getDefaultTuitionByCountry country = VNum n
                /\ (1500 <=? n)%float = true /\ (n <=? 28000)%float = true)
  /\ (In country free_countries \/ Js.get_own tuition_defaults country = VUndefined ->
      getDefaultTuitionByCountry country = VNum 15000)
  /\ free_countries = ["Sweden"; "Norway"; "Denmark"; "Finland"].
Proof.
  split; [apply getDefaultTuitionByCountry_truthy|]. split; [|split; [|reflexivity]].
  - intros Hinh. unfold getDefaultTuitionByCountry, Js.get_own.
    destruct (Js.assoc country tuition_defaults) as [v|] eqn:E.
    + pose proof tuition_defaults_usable as H. rewrite forallb_forall in H.
      specialize (H _ (assoc_In _ _ _ E)). simpl in H.
      unfold usable_tuition in H. apply andb_true_iff in H. destruct H as [_ H].
      destruct (Js.or v (VNum 15000)) as [| | | n | | | |]; try discriminate.
      apply andb_true_iff in H. exists n. split; [reflexivity | exact H].
    + rewrite Hinh. exists 15000%float. repeat split.
  - intros [Hfree | Hnone].
    + unfold free_countries in Hfree. simpl in Hfree.
      destruct Hfree as [<-|[<-|[<-|[<-|[]]]]]; reflexivity.
    + unfold getDefaultTuitionByCountry. rewrite Hnone. reflexivity.
Qed.

End TuitionDefaults.

Section NumberKeys.
Import Reconciliation.
Import SpecFloat.

Lemma SFeqb_sf_equal f1 f2 : SFeqb f1 f2 = true <-> sf_equal f1 f2.
Proof.
  unfold SFeqb, SFcompare, sf_equal.
  destruct f1 as [s1| s1| |s1 m1 e1], f2 as [s2| s2| |s2 m2 e2];
    try (split; [discriminate | contradiction]);
    try (destruct s1; simpl; split; intros H; (discriminate H || contradiction));
    try (destruct s2; simpl; split; intros H; (discriminate H || contradiction)).
  - split; [trivial | reflexivity].
  - destruct s1, s2; simpl; split; intros H; try discriminate; reflexivity.
  - destruct s1, s2; try (split; [discriminate | intros (H & _); discriminate]).
    + destruct (Z.compare e1 e2) eqn:Ee; try (split; [discriminate|]).
      * apply Z.compare_eq_iff in Ee. subst e2.
        change (Pos.compare_cont Eq m1 m2) with (Pos.compare m1 m2).
        destruct (Pos.compare m1 m2) eqn:Em; simpl.
        -- apply Pos.compare_eq_iff in Em. subst. split; auto.
        -- split; [discriminate|]. intros (_ & H & _). subst.
           rewrite Pos.compare_refl in Em. discriminate.
        -- split; [discriminate|]. intros (_ & H & _). subst.
           rewrite Pos.compare_refl in Em. discriminate.
      * intros (_ & _ & H). subst. rewrite Z.compare_refl in Ee. discriminate.
      * intros (_ & _ & H). subst. rewrite Z.compare_refl in Ee. discriminate.
    + destruct (Z.compare e1 e2) eqn:Ee; try (split; [discriminate|]).
      * apply Z.compare_eq_iff in Ee. subst e2.
        change (Pos.compare_cont Eq m1 m2) with (Pos.compare m1 m2).
        destruct (Pos.compare m1 m2) eqn:Em; simpl.
        -- apply Pos.compare_eq_iff in Em. subst. split; auto.
        -- split; [discriminate|]. intros (_ & H & _). subst.
           rewrite Pos.compare_refl in Em. discriminate.
        -- split; [discriminate|]. intros (_ & H & _). subst.
           rewrite Pos.compare_refl in Em. discriminate.
      * intros (_ & _ & H). subst. rewrite Z.compare_refl in Ee. discriminate.
      * intros (_ & _ & H). subst. rewrite Z.compare_refl in Ee. discriminate.
Qed.

Lemma sf_equal_sym f1 f2 : sf_equal f1 f2 -> sf_equal f2 f1.
Proof.
  unfold sf_equal. destruct f1, f2; try contradiction; auto.
  intros (-> & -> & ->). auto.
Qed.

Lemma sf_equal_trans f1 f2 f3 : sf_equal f1 f2 -> sf_equal f2 f3 -> sf_equal f1 f3.
Proof.
  unfold sf_equal. destruct f1, f2, f3; try contradiction; auto.
  - congruence.
  - intros (-> & -> & ->) (-> & -> & ->). auto.
Qed.

(** Equality of numbers, as [===] and as property keys see it, is
    symmetric and transitive. *)
Lemma float_eqb_sym x y : PrimFloat.eqb x y = true -> PrimFloat.eqb y x = true.
Proof.
  rewrite !FloatAxioms.eqb_spec, !SFeqb_sf_equal. apply sf_equal_sym.
Qed.

Lemma float_eqb_trans x y z :
  PrimFloat.eqb x y = true -> PrimFloat.eqb y z = true -> PrimFloat.eqb x z = true.
Proof.
  rewrite !FloatAxioms.eqb_spec, !SFeqb_sf_equal. apply sf_equal_trans.
Qed.

End NumberKeys.

Section MapFromArray.
Import UniversityEnrichment Reconciliation.
Variable parseFloat : string -> float.

Lemma map_get_set_same i k e m :
  PrimFloat.eqb k (JsNum.of_nat i) = true -> map_get i (map_set k e m) = Some e.
Proof.
  intros Hk. induction m as [|[k' e'] m IH]; simpl.
  - rewrite Hk. reflexivity.
  - destruct (PrimFloat.eqb k k') eqn:E; simpl.
    + rewrite Hk. reflexivity.
    + destruct (PrimFloat.eqb k' (JsNum.of_nat i)) eqn:E'; [|exact IH].
      rewrite (float_eqb_trans k (JsNum.of_nat i) k' Hk (float_eqb_sym _ _ E')) in E.
      discriminate.
Qed.

Lemma map_get_set_other i k e m :
  PrimFloat.eqb k (JsNum.of_nat i) = false -> map_get i (map_set k e m) = map_get i m.
Proof.
  intros Hk. induction m as [|[k' e'] m IH]; simpl.
  - rewrite Hk. reflexivity.
  - destruct (PrimFloat.eqb k k') eqn:E; simpl.
    + rewrite Hk.
      destruct (PrimFloat.eqb k' (JsNum.of_nat i)) eqn:E'; [|reflexivity].
      rewrite (float_eqb_trans k k' (JsNum.of_nat i) E E') in Hk. discriminate.
    + destruct (PrimFloat.eqb k' (JsNum.of_nat i)); [reflexivity | exact IH].
Qed.

Lemma find_last {A : Type} (p : A -> bool) l x :
  find p (l ++ [x]) = match find p l with
                      | Some y => Some y
                      | None => if p x then Some x else None
                      end.
Proof.
  induction l as [|y l IH]; simpl; [reflexivity|].
  destruct (p y); [reflexivity | exact IH].
Qed.

Lemma to_map_reads_last i items : forall m0 m,
  to_map parseFloat items m0 = Some m ->
  map_get i m = match last_addressing i items with
                | Some item => Some (estimate_of parseFloat item)
                | None => map_get i m0
                end.
Proof.
  unfold last_addressing.
  induction items as [|item rest IH]; intros m0 m; simpl.
  - intros H. inversion H. reflexivity.
  - rewrite find_last. unfold addresses at 2.
    destruct (Js.get item "index") as [[| | |x| | | |]|]; try discriminate;
      try (intros H; rewrite (IH _ _ H); destruct (find (addresses i) (rev rest)); reflexivity).
    destruct (JsNum.truthy x); simpl.
    + intros H. rewrite (IH _ _ H).
      destruct (find (addresses i) (rev rest)); [reflexivity|].
      fold (estimate_of parseFloat item).
      destruct (PrimFloat.eqb (x - 1) (JsNum.of_nat i)) eqn:E.
      * apply map_get_set_same. exact E.
      * apply map_get_set_other. exact E.
    + intros H. rewrite (IH _ _ H).
      destruct (find (addresses i) (rev rest)); reflexivity.
Qed.

(** X18.  The map built from the model's array is indexed by position
    and the last word counts.  When [batchEnrichUniversitiesWithSingleCall]
    gets through the array (no element is null or undefined), the entry of
    position [i] is built from the last element whose [index] is a non-zero
    number equal to [i + 1]; a position no element names has no entry.
    Elements with a zero, missing or non-numeric [index] are ignored. *)
Theorem to_map_reads_the_last_item_of_each_index
    (items : list value) (m : enrichmentMap) (i : nat) :
  to_map parseFloat items [] = Some m ->
  map_get i m = option_map (estimate_of parseFloat) (last_addressing i items).
Proof.
  intros H. rewrite (to_map_reads_last i items [] m H).
  destruct (last_addressing i items); reflexivity.
Qed.

End MapFromArray.

Lemma to_map_reads_the_last_item_of_each_index_witness :
  UniversityEnrichment.map_get 0
    [ (0%float, {| UniversityEnrichment.tuition_estimate := VNum 300;
                   UniversityEnrichment.acceptance_rate := VNull;
                   UniversityEnrichment.ranking := VNull |});
      (1%float, {| UniversityEnrichment.tuition_estimate := VNum 200;
                   UniversityEnrichment.acceptance_rate := VNull;
                   UniversityEnrichment.ranking := VNull |}) ]
  = option_map (Reconciliation.estimate_of (fun _ => nan))
      (Reconciliation.last_addressing 0
         [ Reconciliation.indexed_item 1 100; Reconciliation.indexed_item 2 200;
           Reconciliation.indexed_item 1 300; VObj [("index", VStr "1")];
           Reconciliation.indexed_item 0 400 ]).
Proof.
  apply (to_map_reads_the_last_item_of_each_index (fun _ => nan)
           [ Reconciliation.indexed_item 1 100; Reconciliation.indexed_item 2 200;
             Reconciliation.indexed_item 1 300; VObj [("index", VStr "1")];
             Reconciliation.indexed_item 0 400 ]).
  vm_compute. reflexivity.
Defined.

Section WrittenRecords.
Import JsStr AiService UniversityEnrichment Spec Reconciliation.
Context {World : Type}.
Variable env : environment World.
Variable prompts : templates.
Variable parseFloat : string -> float.
Local Open Scope js_scope.

Lemma or_truthy a b : Js.truthy b = true -> Js.truthy (Js.or a b) = true.
Proof. intros H. unfold Js.or. destruct (Js.truthy a) eqn:E; [exact E | exact H]. Qed.

Lemma default_record_complete country old : complete_record old (default_record country old).
Proof.
  unfold default_record. eexists. split; [reflexivity|].
  assert (Hnd : NoDup (map fst [ ("tuition_estimate", getDefaultTuitionByCountry country);
                                 ("acceptance_rate", VNum 50);
                                 ("data_source", VStr "OTHER") ])).
  { simpl. repeat constructor; simpl; intuition discriminate. }
  split; [apply get_own_spread; [exact Hnd | reflexivity]|].
  split; [rewrite (get_own_spread "tuition_estimate" _ _
                     (getDefaultTuitionByCountry country) Hnd eq_refl);
          apply getDefaultTuitionByCountry_truthy|].
  split; [rewrite (get_own_spread "acceptance_rate" _ _ (VNum 50) Hnd eq_refl); reflexivity|].
  intros k Hk. apply get_own_spread_old; [exact Hnd|].
  unfold enriched_fields in Hk. simpl in Hk. simpl.
  destruct (String.eqb k "tuition_estimate") eqn:E1;
    [apply String.eqb_eq in E1; subst k; exfalso; apply Hk; repeat (first [left; reflexivity | right])|].
  destruct (String.eqb k "acceptance_rate") eqn:E2;
    [apply String.eqb_eq in E2; subst k; exfalso; apply Hk; repeat (first [left; reflexivity | right])|].
  destruct (String.eqb k "data_source") eqn:E3;
    [apply String.eqb_eq in E3; subst k; exfalso; apply Hk; repeat (first [left; reflexivity | right])|].
  reflexivity.
Qed.

Lemma enriched_record_complete country e old :
  complete_record old (enriched_record country e old).
Proof.
  unfold enriched_record. eexists. split; [reflexivity|].
  set (b := [ ("tuition_estimate",
                Js.or (tuition_estimate e) (getDefaultTuitionByCountry country));
              ("acceptance_rate", Js.or (acceptance_rate e) (VNum 50));
              ("rank", Js.or (ranking e) VNull);
              ("data_source", VStr "OTHER") ]).
  assert (Hnd : NoDup (map fst b)).
  { simpl. repeat constructor; simpl; intuition discriminate. }
  split; [apply get_own_spread; [exact Hnd | reflexivity]|].
  split; [rewrite (get_own_spread "tuition_estimate" b _
                     (Js.or (tuition_estimate e) (getDefaultTuitionByCountry country))
                     Hnd eq_refl);
          apply or_truthy, getDefaultTuitionByCountry_truthy|].
  split; [rewrite (get_own_spread "acceptance_rate" b _
                     (Js.or (acceptance_rate e) (VNum 50)) Hnd eq_refl);
          apply or_truthy; reflexivity|].
  intros k Hk. apply get_own_spread_old; [exact Hnd|].
  unfold enriched_fields in Hk. simpl in Hk. simpl.
  destruct (String.eqb k "tuition_estimate") eqn:E1;
    [apply String.eqb_eq in E1; subst k; exfalso; apply Hk; repeat (first [left; reflexivity | right])|].
  destruct (String.eqb k "acceptance_rate") eqn:E2;
    [apply String.eqb_eq in E2; subst k; exfalso; apply Hk; repeat (first [left; reflexivity | right])|].
  destruct (String.eqb k "rank") eqn:E4;
    [apply String.eqb_eq in E4; subst k; exfalso; apply Hk; repeat (first [left; reflexivity | right])|].
  destruct (String.eqb k "data_source") eqn:E3;
    [apply String.eqb_eq in E3; subst k; exfalso; apply Hk; repeat (first [left; reflexivity | right])|].
  reflexivity.
Qed.

Lemma planned_record_complete m i u old : complete_record old (planned_record m i u old).
Proof.
  unfold planned_record.
  destruct (i <? cap)%nat; [|apply default_record_complete].
  destruct (map_get i m) as [e|]; [|apply default_record_complete].
  destruct (Js.truthy _); [apply enriched_record_complete | apply default_record_complete].
Qed.

(** X19.  Every record the non-US step of searchUniversities touches
    goes to the store complete.  For pending entities with distinct slots,
    the step always returns, and the record of each entity then carries the
    data source OTHER, a truthy tuition estimate and a truthy acceptance
    rate, whatever the model answered (or failed to answer); the fields the
    step does not write are those the record had before. *)
Theorem enrich_nonUS_writes_complete_records
    (l : list pending) (toUpsert : list value) (st : state World) :
  NoDup (map index l) ->
  exists final st',
    enrich_nonUS env prompts parseFloat l toUpsert st = (Returned final, st')
    /\ forall u, In u l ->
         complete_record (array_get (index u) toUpsert) (array_get (index u) final).
Proof.
  intros Hnd.
  destruct (enrich_nonUS_run env prompts parseFloat l toUpsert st) as (m & st1 & _ & Hrun).
  eexists _, _. split; [exact Hrun|].
  intros u Hu.
  destruct (In_nth_error l u Hu) as [k Hk].
  pose proof (plan_nth m l 0 k u Hk) as Hin.
  rewrite (run_writes_get (plan m 0 l) toUpsert (index u) (planned_record m (0 + k) u)).
  - apply planned_record_complete.
  - rewrite plan_indexes. exact Hnd.
  - exact Hin.
Qed.

End WrittenRecords.

Lemma enrich_nonUS_writes_complete_records_witness :
  exists final st',
    UniversityEnrichment.enrich_nonUS Spec.endpoints_down Spec.sample_prompts (fun _ => nan)
      [Spec.one_pending] Spec.one_record Spec.empty_state = (Returned final, st')
    /\ forall u, In u [Spec.one_pending] ->
         Reconciliation.complete_record
           (UniversityEnrichment.array_get (UniversityEnrichment.index u) Spec.one_record)
           (UniversityEnrichment.array_get (UniversityEnrichment.index u) final).
Proof.
  apply (enrich_nonUS_writes_complete_records Spec.endpoints_down Spec.sample_prompts
           (fun _ => nan) [Spec.one_pending] Spec.one_record Spec.empty_state).
  simpl. constructor; [intros [] | constructor].
Defined.

(** ** universityService: normalizeCountryName *)

Section CountryNameFacts.
Import JsStr CountryNames.

Lemma In_assoc_nodup {A : Type} k (v : A) l :
  NoDup (map fst l) -> In (k, v) l -> Js.assoc k l = Some v.
Proof.
  induction l as [|[k' v'] l IH]; simpl; intros Hnd Hin; [contradiction|].
  inversion Hnd as [|? ? Hnotin Hnd']; subst.
  destruct Hin as [H|H].
  - inversion H; subst. rewrite String.eqb_refl. reflexivity.
  - destruct (String.eqb k k') eqn:E.
    + apply String.eqb_eq in E. subst k'. exfalso. apply Hnotin.
      apply in_map_iff. exists (k, v). split; [reflexivity | exact H].
    + apply IH; assumption.
Qed.

Lemma COUNTRY_ALIASES_keys_distinct : NoDup (map fst COUNTRY_ALIASES).
Proof.
  assert (H : forall l : list string,
             (fix nodup l := match l with
                             | [] => true
                             | x :: l' => negb (existsb (String.eqb x) l') && nodup l'
                             end) l = true -> NoDup l).
  { induction l as [|x l IH]; intros Hc; [constructor|].
    apply andb_true_iff in Hc. destruct Hc as [Hx Hl]. constructor; [|exact (IH Hl)].
    intros Hin. apply negb_true_iff in Hx.
    assert (existsb (String.eqb x) l = true)
      by (apply existsb_exists; exists x; split; [exact Hin | apply String.eqb_refl]).
    congruence. }
  apply H. vm_compute. reflexivity.
Qed.

Lemma entries_nonempty_checked : entries_nonempty = true.
Proof. vm_compute. reflexivity. Qed.

Lemma canonical_names_fixed_checked : canonical_names_fixed = true.
Proof. vm_compute. reflexivity. Qed.

(** X20.  A known spelling resolves to its canonical name whatever its
    letter case and surrounding white space: for an ASCII string whose
    lower-case, trimmed form is an alias of the table, [normalizeCountryName]
    returns the canonical name listed with that alias. *)
Theorem normalizeCountryName_resolves_aliases (country alias canonical : string) :
  is_ascii country = true ->
  In (alias, VStr canonical) COUNTRY_ALIASES ->
  normalized_form country = alias ->
  normalizeCountryName country = VStr canonical.
Proof.
  intros _ Hin Hnorm.
  pose proof entries_nonempty_checked as Hne. unfold entries_nonempty in Hne.
  rewrite forallb_forall in Hne. specialize (Hne _ Hin). simpl in Hne.
  apply andb_true_iff in Hne. destruct Hne as [Ha Hc].
  unfold normalizeCountryName.
  destruct (String.eqb country "") eqn:Ee.
  - apply String.eqb_eq in Ee. subst country.
    unfold normalized_form in Hnorm. vm_compute in Hnorm. subst alias. discriminate.
  - fold (normalized_form country). rewrite Hnorm.
    unfold Js.get_own.
    rewrite (In_assoc_nodup alias (VStr canonical) COUNTRY_ALIASES
               COUNTRY_ALIASES_keys_distinct Hin).
    simpl. rewrite Hc. reflexivity.
Qed.

Lemma normalizeCountryName_resolves_aliases_witness :
  normalizeCountryName "  Great BRITAIN " = VStr "United Kingdom".
Proof.
  apply (normalizeCountryName_resolves_aliases "  Great BRITAIN " "great britain" "United Kingdom").
  - reflexivity.
  - vm_compute. tauto.
  - vm_compute. reflexivity.
Defined.


Lemma toLowerCase_char_idem c : toLowerCase_char (toLowerCase_char c) = toLowerCase_char c.
Proof. destruct c as [[] [] [] [] [] [] [] []]; vm_compute; reflexivity. Qed.

Lemma toLowerCase_upper_char c : toLowerCase_char (toUpperCase_char c) = toLowerCase_char c.
Proof. destruct c as [[] [] [] [] [] [] [] []]; vm_compute; reflexivity. Qed.

Lemma toUpperCase_char_idem c : toUpperCase_char (toUpperCase_char c) = toUpperCase_char c.
Proof. destruct c as [[] [] [] [] [] [] [] []]; vm_compute; reflexivity. Qed.

Lemma toLowerCase_idem s : toLowerCase (toLowerCase s) = toLowerCase s.
Proof.
  induction s as [|c s IH]; simpl; [reflexivity|].
  rewrite toLowerCase_char_idem, IH. reflexivity.
Qed.

Lemma find_some_in {A : Type} (p : A -> bool) l x : find p l = Some x -> In x l.
Proof.
  induction l as [|y l IH]; simpl; [discriminate|].
  destruct (p y); [intros H; inversion H; left; reflexivity | intros H; right; exact (IH H)].
Qed.

Lemma canonical_is_fixed alias canonical :
  In (alias, VStr canonical) COUNTRY_ALIASES ->
  normalizeCountryName canonical = VStr canonical.
Proof.
  intros Hin. pose proof canonical_names_fixed_checked as H.
  unfold canonical_names_fixed in H. rewrite forallb_forall in H.
  specialize (H _ Hin). simpl in H.
  destruct (normalizeCountryName canonical); try discriminate.
  apply String.eqb_eq in H. subst. reflexivity.
Qed.

(** X21.  Normalising is idempotent on ASCII names: whenever
    [normalizeCountryName] returns a string for an ASCII string, that string
    is returned unchanged when it is normalised again.  (A canonical name of
    the table is a fixed point, and so is a name spelt with a capital first
    letter that matches no alias.) *)
Theorem normalizeCountryName_is_idempotent (country r : string) :
  is_ascii country = true ->
  normalizeCountryName country = VStr r ->
  normalizeCountryName r = VStr r.
Proof.
  intros _ Hrun. unfold normalizeCountryName in Hrun.
  destruct country as [|c rest]; [discriminate|].
  change (String.eqb (String c rest) "") with false in Hrun. cbv iota in Hrun.
  set (n := trim (toLowerCase (String c rest))) in *.
  destruct (Js.truthy (Js.get_own COUNTRY_ALIASES n)) eqn:Edirect.
  - unfold Js.get_own in Hrun.
    destruct (Js.assoc n COUNTRY_ALIASES) as [v|] eqn:Ea.
    + subst v. exact (canonical_is_fixed n r (assoc_In _ _ _ Ea)).
    + unfold Js.inherited in Hrun.
      destruct (String.eqb n "__proto__"); [discriminate|].
      destruct (existsb (String.eqb n) Js.Object_prototype_methods); discriminate.
  - destruct (find (close_match n) COUNTRY_ALIASES) as [[alias canonical]|] eqn:Ef.
    + subst canonical. exact (canonical_is_fixed alias r (find_some_in _ _ _ Ef)).
    + inversion Hrun as [Hr]. clear Hrun. subst r.
      unfold normalizeCountryName. cbn [String.eqb].
      assert (Hn : trim (toLowerCase (String (toUpperCase_char c) (toLowerCase rest))) = n).
      { unfold n. cbn [toLowerCase].
        rewrite toLowerCase_upper_char, toLowerCase_idem. reflexivity. }
      rewrite Hn, Edirect, Ef.
      cbn [charAt0 slice1 toUpperCase append].
      rewrite toUpperCase_char_idem, toLowerCase_idem. reflexivity.
Qed.

Lemma normalizeCountryName_is_idempotent_witness :
  normalizeCountryName "Portugal" = VStr "Portugal".
Proof.
  apply (normalizeCountryName_is_idempotent "pORTUGAL" "Portugal").
  - reflexivity.
  - vm_compute. reflexivity.
Defined.

(** X22.  Substring matching captures whole families of names.  For an
    ASCII string whose lower-case, trimmed form is not itself an alias (nor
    anything an object literal inherits), the answer is "United States" as
    soon as that form is empty (a blank string) or contains "us" (Russia,
    Austria, Belarus, Cyprus, Mauritius): the first three entries the loop
    visits are the aliases of the United States, and the third one, "us",
    is contained in the name. *)
Theorem normalizeCountryName_takes_us_for_the_United_States (country : string) :
  is_ascii country = true ->
  country <> "" ->
  Js.truthy (Js.get_own COUNTRY_ALIASES (normalized_form country)) = false ->
  normalized_form country = "" \/ includes "us" (normalized_form country) = true ->
  normalizeCountryName country = VStr "United States".
Proof.
  intros _ Hne Hdirect Hus. unfold normalizeCountryName.
  apply String.eqb_neq in Hne. rewrite Hne.
  fold (normalized_form country). rewrite Hdirect.
  set (n := normalized_form country) in *.
  assert (H3 : close_match n ("us", VStr "United States") = true
               \/ close_match n ("united states", VStr "United States") = true).
  { destruct Hus as [-> | Hus]; [right; reflexivity|].
    left. unfold close_match. cbn [fst]. rewrite Hus. apply orb_true_r. }
  unfold COUNTRY_ALIASES. cbn [find].
  destruct (close_match n ("united states", VStr "United States")); [reflexivity|].
  destruct (close_match n ("usa", VStr "United States")); [reflexivity|].
  destruct (close_match n ("us", VStr "United States")); [reflexivity|].
  destruct H3; discriminate.
Qed.

Lemma normalizeCountryName_takes_us_for_the_United_States_witness :
  normalizeCountryName "Austria" = VStr "United States".
Proof.
  apply (normalizeCountryName_takes_us_for_the_United_States "Austria").
  - reflexivity.
  - discriminate.
  - vm_compute. reflexivity.
  - right. vm_compute. reflexivity.
Defined.

End CountryNameFacts.

(** ** aiContext: profile strength and stage *)

Section ContextFacts.
Import AiContext.
Variable ToNumber : value -> float.
Local Open Scope float_scope.

Ltac block_cases :=
  repeat match goal with
         | |- context [if ?b then _ else _] => destruct b
         end;
  (split;
   [ first [ exists None; split; [simpl; tauto | reflexivity]
           | exists (Some 20); split; [simpl; tauto | reflexivity]
           | exists (Some 15); split; [simpl; tauto | reflexivity]
           | exists (Some 10); split; [simpl; tauto | reflexivity]
           | exists (Some 5); split; [simpl; tauto | reflexivity] ]
   | simpl; rewrite ?length_app; simpl; lia ]).

Lemma gpa_block_step profile r :
  block_step (nth 0 increments []) r (gpa_block ToNumber profile r).
Proof. unfold gpa_block, block_step. cbv zeta. block_cases. Qed.

Lemma gre_block_step profile r :
  block_step (nth 1 increments []) r (gre_block ToNumber profile r).
Proof. unfold gre_block, block_step. cbv zeta. block_cases. Qed.

Lemma english_block_step profile r :
  block_step (nth 2 increments []) r (english_block ToNumber profile r).
Proof. unfold english_block, block_step. cbv zeta. block_cases. Qed.

Lemma completeness_block_step profile r :
  block_step (nth 3 increments []) r (completeness_block profile r).
Proof. unfold completeness_block, block_step. block_cases. Qed.

Lemma sop_block_step profile r :
  block_step (nth 4 increments []) r (sop_block profile r).
Proof. unfold sop_block, block_step. cbv zeta. block_cases. Qed.

Lemma budget_block_step profile r :
  block_step (nth 5 increments []) r (budget_block profile r).
Proof. unfold budget_block, block_step. block_cases. Qed.

Lemma bump_in b from x c :
  In x from -> In c b ->
  In (bump c x) (flat_map (fun x => map (fun c => bump c x) b) from).
Proof.
  intros Hx Hc. apply in_flat_map. exists x. split; [exact Hx|].
  apply in_map_iff. exists c. split; [reflexivity | exact Hc].
Qed.

Lemma reachable_scores_checked :
  forallb score_in_fives (reachable increments [0]) = true.
Proof. vm_compute. reflexivity. Qed.

Lemma fives_in_range (k : nat) :
  (k <= 20)%nat ->
  (0 <=? JsNum.of_nat (5 * k)) = true /\ (JsNum.of_nat (5 * k) <=? 100) = true.
Proof.
  intros H.
  do 21 (destruct k as [|k]; [split; vm_compute; reflexivity|]). lia.
Qed.


Lemma score_in_fives_spec x :
  score_in_fives x = true -> exists k, (k <= 20)%nat /\ x = JsNum.of_nat (5 * k).
Proof.
  unfold score_in_fives. intros H. apply existsb_exists in H.
  destruct H as (k & Hk & He). apply in_seq in Hk.
  apply FloatAxioms.Leibniz.eqb_spec in He. exists k. split; [lia | exact He].
Qed.

(** X23.  The profile strength is a score out of 100.  Whatever the
    profile holds, and however its values convert to numbers, the score
    [analyzeProfileStrength] returns is a whole number of fives between 0
    and 100, and the analysis makes at most six remarks (strengths and
    weaknesses together), one per block. *)
Theorem analyzeProfileStrength_score_is_out_of_100 (profile : list (string * value)) :
  let r := analyzeProfileStrength ToNumber profile in
  (0 <=? score r) = true
  /\ (score r <=? 100) = true
  /\ (exists k, (k <= 20)%nat /\ score r = JsNum.of_nat (5 * k))
  /\ (List.length (strengths r) + List.length (weaknesses r) <= 6)%nat.
Proof.
  intros r. subst r. unfold analyzeProfileStrength.
  set (r0 := {| strengths := []; weaknesses := []; score := 0 |}).
  destruct (gpa_block_step profile r0) as [(c1 & Hc1 & E1) L1].
  set (r1 := gpa_block ToNumber profile r0) in *.
  destruct (gre_block_step profile r1) as [(c2 & Hc2 & E2) L2].
  set (r2 := gre_block ToNumber profile r1) in *.
  destruct (english_block_step profile r2) as [(c3 & Hc3 & E3) L3].
  set (r3 := english_block ToNumber profile r2) in *.
  destruct (completeness_block_step profile r3) as [(c4 & Hc4 & E4) L4].
  set (r4 := completeness_block profile r3) in *.
  destruct (sop_block_step profile r4) as [(c5 & Hc5 & E5) L5].
  set (r5 := sop_block profile r4) in *.
  destruct (budget_block_step profile r5) as [(c6 & Hc6 & E6) L6].
  set (r6 := budget_block profile r5) in *.
  assert (Hreach : In (score r6) (reachable increments [0])).
  { rewrite E6, E5, E4, E3, E2, E1.
    unfold increments. cbn [reachable].
    repeat (apply bump_in; [|assumption]).
    left. reflexivity. }
  pose proof reachable_scores_checked as Hall. rewrite forallb_forall in Hall.
  destruct (score_in_fives_spec _ (Hall _ Hreach)) as (k & Hk & Ek).
  rewrite Ek. destruct (fives_in_range k Hk) as [Hlo Hhi].
  split; [exact Hlo|]. split; [exact Hhi|]. split; [exists k; split; [exact Hk | reflexivity]|].
  simpl in L1. lia.
Qed.

End ContextFacts.

Section StageFacts.
Import AiContext.
Local Open Scope float_scope.

Lemma incomplete_nil_iff tasks :
  incomplete tasks = Some [] <-> Forall is_done tasks.
Proof.
  induction tasks as [|t rest IH]; simpl.
  - split; [constructor | reflexivity].
  - destruct (Js.get t "status") as [status|] eqn:Es.
    + destruct (incomplete rest) as [l|].
      * destruct (Js.strict_eq status (VStr "DONE")) eqn:Ed.
        -- split.
           ++ intros H. inversion H; subst. constructor; [|apply IH; reflexivity].
              exists status. split; assumption.
           ++ intros H. inversion H as [|? ? _ Hrest]; subst.
              apply IH in Hrest. inversion Hrest. reflexivity.
        -- split; [discriminate|].
           intros H. inversion H as [|? ? (s' & Hs' & Hd) _]; subst.
           rewrite Es in Hs'. inversion Hs'; subst. congruence.
      * split; [discriminate|].
        intros H. inversion H as [|? ? _ Hrest]; subst.
        apply IH in Hrest. discriminate.
    + split; [discriminate|].
      intros H. inversion H as [|? ? (s' & Hs' & _) _]; subst. congruence.
Qed.

(** X24.  The stage is 1, 2, 4 or 5, never 3, although the counsellor
    prompt keeps guidance for a stage 3.  Whenever [calculateStage]
    returns, it returns 1 for an incomplete profile, else 2 without locks,
    else 5 exactly when there is at least one task and every task is DONE,
    else 4. *)
Theorem calculateStage_is_never_3
    (profile : list (string * value)) (locks tasks : list value) (stage : float) :
  calculateStage profile locks tasks = Some stage ->
  In stage [1; 2; 4; 5]
  /\ stage <> 3
  /\ (stage = 1 <-> Js.truthy (Js.get_own profile "profile_complete") = false)
  /\ (stage = 2 <->
      Js.truthy (Js.get_own profile "profile_complete") = true /\ locks = [])
  /\ (stage = 5 <->
      Js.truthy (Js.get_own profile "profile_complete") = true
      /\ locks <> [] /\ tasks <> [] /\ Forall is_done tasks)
  /\ (exists guidance, In (3, guidance) stageGuidance).
Proof.
  assert (Hne : forall a b : float,
             Prim2SF a <> Prim2SF b -> a <> b)
    by (intros a b H E; apply H; rewrite E; reflexivity).
  intros Hrun.
  assert (Hguide : exists guidance, In (3, guidance) stageGuidance)
    by (eexists; right; right; left; reflexivity).
  unfold calculateStage in Hrun.
  destruct (Js.truthy (Js.get_own profile "profile_complete")) eqn:Ec; simpl in Hrun.
  2:{ inversion Hrun; subst stage.
      split; [simpl; tauto|]. split; [apply Hne; vm_compute; discriminate|].
      split; [tauto|].
      split; [split; [intros H; exfalso; revert H; apply Hne; vm_compute; discriminate
                     | intros [H _]; discriminate]|].
      split; [|exact Hguide].
      split; [intros H; exfalso; revert H; apply Hne; vm_compute; discriminate
             | intros [H _]; discriminate]. }
  destruct locks as [|lock locks]; simpl in Hrun.
  - inversion Hrun; subst stage.
    split; [simpl; tauto|]. split; [apply Hne; vm_compute; discriminate|].
    split; [split; [intros H; exfalso; revert H; apply Hne; vm_compute; discriminate
                   | discriminate]|].
    split; [split; [intros _; split; reflexivity | reflexivity]|].
    split; [|exact Hguide].
    split; [intros H; exfalso; revert H; apply Hne; vm_compute; discriminate
           | intros (_ & H & _); congruence].
  - destruct (incomplete tasks) as [incompleteTasks|] eqn:Ei; [|discriminate].
    assert (Hfive : ((0 <? List.length tasks)%nat
                     && (List.length incompleteTasks =? 0)%nat = true)
                    <-> (tasks <> [] /\ Forall is_done tasks)).
    { rewrite andb_true_iff, Nat.ltb_lt, Nat.eqb_eq. split.
      - intros [Hpos Hnone]. split; [destruct tasks; [simpl in Hpos; lia | discriminate]|].
        apply incomplete_nil_iff. rewrite Ei.
        destruct incompleteTasks; [reflexivity | discriminate].
      - intros [Hpos Hdone]. apply incomplete_nil_iff in Hdone.
        rewrite Ei in Hdone. inversion Hdone; subst.
        split; [destruct tasks; [congruence | simpl; lia] | reflexivity]. }
    destruct ((0 <? List.length tasks)%nat && (List.length incompleteTasks =? 0)%nat) eqn:E5;
      inversion Hrun; subst stage.
    + split; [simpl; tauto|]. split; [apply Hne; vm_compute; discriminate|].
      split; [split; [intros H; exfalso; revert H; apply Hne; vm_compute; discriminate
                     | discriminate]|].
      split; [split; [intros H; exfalso; revert H; apply Hne; vm_compute; discriminate
                     | intros [_ H]; discriminate]|].
      split; [|exact Hguide].
      split; [intros _|reflexivity].
      split; [reflexivity|]. split; [discriminate|]. apply Hfive. reflexivity.
    + split; [simpl; tauto|]. split; [apply Hne; vm_compute; discriminate|].
      split; [split; [intros H; exfalso; revert H; apply Hne; vm_compute; discriminate
                     | discriminate]|].
      split; [split; [intros H; exfalso; revert H; apply Hne; vm_compute; discriminate
                     | intros [_ H]; discriminate]|].
      split; [|exact Hguide].
      split; [intros H; exfalso; revert H; apply Hne; vm_compute; discriminate|].
      intros (_ & _ & H). apply Hfive in H. discriminate.
Qed.

End StageFacts.

Lemma calculateStage_is_never_3_witness :
  In 5%float [1; 2; 4; 5]%float
  /\ 5%float <> 3%float
  /\ (5%float = 1%float
      <-> Js.truthy (Js.get_own [("profile_complete", VBool true)] "profile_complete") = false)
  /\ (5%float = 2%float <->
      Js.truthy (Js.get_own [("profile_complete", VBool true)] "profile_complete") = true
      /\ [VObj [("id", VStr "lock-1")]] = [])
  /\ (5%float = 5%float <->
      Js.truthy (Js.get_own [("profile_complete", VBool true)] "profile_complete") = true
      /\ [VObj [("id", VStr "lock-1")]] <> []
      /\ [VObj [("status", VStr "DONE")]] <> []
      /\ Forall AiContext.is_done [VObj [("status", VStr "DONE")]])
  /\ (exists guidance, In (3%float, guidance) AiContext.stageGuidance).
Proof.
  apply (calculateStage_is_never_3 [("profile_complete", VBool true)]
           [VObj [("id", VStr "lock-1")]] [VObj [("status", VStr "DONE")]] 5%float).
  vm_compute. reflexivity.
Defined.

(** ** universityService: the classification loop of searchUniversities *)

Section SortingFacts.
Import UniversityEnrichment UniversitySearch Spec.
Context {World : Type}.
Variable env : environment World.
Variable Date_getTime : value -> float.
Variable toISOString : Z -> string.
Local Open Scope js_scope.

Lemma sort_one_run enrichUS existingUniversities uni acc (st : state World) :
  exists acc' st',
    sort_one env Date_getTime toISOString enrichUS existingUniversities uni acc st
    = (Returned acc', st')
    /\ trace st' = trace st
    /\ same_store st st'
    /\ ( (exists row, acc' = reused row acc)
         \/ (exists cached_at, enrichUS = true /\ acc' = queued_us toISOString uni cached_at acc)
         \/ (exists cached_at, acc' = queued_nonUS toISOString uni cached_at acc) ).
Proof.
  unfold sort_one.
  assert (Hqueue : forall st1 : state World,
             trace st1 = trace st -> same_store st st1 ->
             exists acc' st',
               (cached_at <- ask (Date_now env) ;;
                if enrichUS && String.eqb (h_country uni) "United States"
                then ret (queued_us toISOString uni cached_at acc)
                else ret (queued_nonUS toISOString uni cached_at acc)) st1 = (Returned acc', st')
               /\ trace st' = trace st
               /\ same_store st st'
               /\ ( (exists row, acc' = reused row acc)
                    \/ (exists cached_at, enrichUS = true /\ acc' = queued_us toISOString uni cached_at acc)
                    \/ (exists cached_at, acc' = queued_nonUS toISOString uni cached_at acc) )).
  { intros st1 Ht Hs. unfold bind, ask.
    destruct (Date_now env (world st1)) as [cached_at w].
    destruct enrichUS; simpl;
      [destruct (String.eqb (h_country uni) "United States")|];
      unfold ret; eexists _, _; (split; [reflexivity|]);
      (split; [exact Ht|]); (split; [exact Hs|]); eauto. }
  destruct (existing_row (externalId_of uni) existingUniversities) as [row|].
  - unfold bind at 1. unfold still_fresh, bind, ask.
    destruct (Date_now env (world st)) as [now w]. unfold ret at 1.
    match goal with |- context [if ?c then SCORECARD_CACHE_TTL else _] => set (ttl := if c then _ else _) end.
    destruct ((JsNum.of_Z now - Date_getTime (Js.get_own row "cached_at")) <? ttl)%float.
    + unfold ret. eexists _, _. split; [reflexivity|]. split; [reflexivity|].
      split; [repeat split|]. left. exists row. reflexivity.
    + apply (Hqueue (set_world w st)); [reflexivity | repeat split].
  - unfold bind at 1. unfold ret at 1. apply (Hqueue st); [reflexivity | repeat split].
Qed.

Lemma array_get_app_old j (a b : list value) :
  (j < List.length a)%nat -> array_get j (a ++ b) = array_get j a.
Proof. intros H. unfold array_get. apply app_nth1. exact H. Qed.

Lemma array_get_app_new (a : list value) v : array_get (List.length a) (a ++ [v]) = v.
Proof. unfold array_get. rewrite app_nth2, Nat.sub_diag by lia. reflexivity. Qed.

Lemma well_sorted_reused row acc : well_sorted acc -> well_sorted (reused row acc).
Proof. intros H. exact H. Qed.

Lemma slots_fresh acc : well_sorted acc -> ~ In (List.length (toUpsert acc)) (slots acc).
Proof. intros (_ & H & _) Hin. apply H in Hin. lia. Qed.

Lemma well_sorted_old_records acc v :
  well_sorted acc ->
  forall u, In u (nonUSUniversities acc) ->
    exists props,
      array_get (index u) (toUpsert acc ++ [v]) = VObj props
      /\ Js.get_own props "name" = VStr (name u)
      /\ Js.get_own props "country" = VStr (country u)
      /\ Js.get_own props "data_source" = VStr "HIPOLABS".
Proof.
  intros (_ & Hslots & Hrec) u Hu.
  rewrite array_get_app_old; [exact (Hrec u Hu)|].
  apply Hslots. unfold slots. apply in_or_app. right.
  apply in_map_iff. exists u. split; [reflexivity | exact Hu].
Qed.

Lemma well_sorted_queued_us uni cached_at acc :
  well_sorted acc -> well_sorted (queued_us toISOString uni cached_at acc).
Proof.
  intros H. pose proof (slots_fresh acc H) as Hfresh.
  pose proof (well_sorted_old_records acc (uniData_of toISOString uni cached_at) H) as Hold.
  destruct H as (Hnd & Hslots & Hrec).
  unfold well_sorted, slots in *. cbn [queued_us usUniversities nonUSUniversities toUpsert].
  rewrite map_app, length_app. cbn [map us_index List.length].
  split; [|split].
  - eapply Permutation_NoDup; [|apply (NoDup_cons _ Hfresh Hnd)].
    rewrite <- app_assoc. apply Permutation_cons_app.
    apply Permutation_refl.
  - intros j. rewrite <- app_assoc, !in_app_iff. cbn [In app].
    specialize (Hslots j). rewrite in_app_iff in Hslots. split.
    + intros [Hj | [Hj | Hj]]; [| lia |]; assert (j < List.length (toUpsert acc))%nat
        by (apply Hslots; tauto); lia.
    + intros Hj. destruct (Nat.eq_dec j (List.length (toUpsert acc))) as [->|Hne];
        [right; left; left; reflexivity|].
      assert (Hj' : (j < List.length (toUpsert acc))%nat) by lia.
      apply Hslots in Hj'. tauto.
  - exact Hold.
Qed.

Lemma well_sorted_queued_nonUS uni cached_at acc :
  well_sorted acc -> well_sorted (queued_nonUS toISOString uni cached_at acc).
Proof.
  intros H. pose proof (slots_fresh acc H) as Hfresh.
  pose proof (well_sorted_old_records acc (uniData_of toISOString uni cached_at) H) as Hold.
  destruct H as (Hnd & Hslots & Hrec).
  unfold well_sorted, slots in *. cbn [queued_nonUS usUniversities nonUSUniversities toUpsert].
  rewrite map_app, length_app. cbn [map index List.length].
  split; [|split].
  - eapply Permutation_NoDup; [|apply (NoDup_cons _ Hfresh Hnd)].
    rewrite app_assoc. apply Permutation_cons_append.
  - intros j. rewrite app_assoc, !in_app_iff. cbn [In].
    specialize (Hslots j). rewrite in_app_iff in Hslots. split.
    + intros [Hj | [Hj | []]]; [|lia].
      assert (j < List.length (toUpsert acc))%nat by (apply Hslots; exact Hj). lia.
    + intros Hj. destruct (Nat.eq_dec j (List.length (toUpsert acc))) as [->|Hne];
        [right; left; reflexivity|].
      assert (Hj' : (j < List.length (toUpsert acc))%nat) by lia.
      apply Hslots in Hj'. left. exact Hj'.
  - intros u Hu. apply in_app_iff in Hu. destruct Hu as [Hu | [<- | []]].
    + exact (Hold u Hu).
    + cbn [index name country]. rewrite array_get_app_new.
      eexists. split; [reflexivity|]. repeat split.
Qed.


Lemma sort_all_run enrichUS existingUniversities hipolabsResults :
  forall acc (st : state World),
    well_sorted acc ->
    (enrichUS = false -> usUniversities acc = []) ->
    exists s st',
      sort_all env Date_getTime toISOString enrichUS existingUniversities hipolabsResults acc st
      = (Returned s, st')
      /\ trace st' = trace st
      /\ same_store st st'
      /\ well_sorted s
      /\ (enrichUS = false -> usUniversities s = [])
      /\ (List.length (universities_found s) + List.length (toUpsert s)
          = List.length (universities_found acc) + List.length (toUpsert acc)
            + List.length hipolabsResults)%nat.
Proof.
  induction hipolabsResults as [|uni rest IH]; intros acc st Hw Hus.
  - exists acc, st. simpl. split; [reflexivity|]. split; [reflexivity|].
    split; [repeat split|]. split; [exact Hw|]. split; [exact Hus | lia].
  - cbn [sort_all]. unfold bind at 1.
    destruct (sort_one_run enrichUS existingUniversities uni acc st)
      as (acc1 & st1 & E1 & T1 & S1 & Hcase).
    rewrite E1.
    assert (Hw1 : well_sorted acc1
                  /\ (enrichUS = false -> usUniversities acc1 = [])
                  /\ (List.length (universities_found acc1) + List.length (toUpsert acc1)
                      = S (List.length (universities_found acc) + List.length (toUpsert acc)))%nat).
    { destruct Hcase as [(row & ->) | [(cached_at & He & ->) | (cached_at & ->)]].
      - split; [apply well_sorted_reused; exact Hw|]. split; [exact Hus|].
        cbn [reused universities_found toUpsert]. rewrite length_app. simpl. lia.
      - split; [apply well_sorted_queued_us; exact Hw|]. split; [congruence|].
        cbn [queued_us universities_found toUpsert]. rewrite length_app. simpl. lia.
      - split; [apply well_sorted_queued_nonUS; exact Hw|]. split; [exact Hus|].
        cbn [queued_nonUS universities_found toUpsert]. rewrite length_app. simpl. lia. }
    destruct Hw1 as (Hw1 & Hus1 & Hlen1).
    destruct (IH acc1 st1 Hw1 Hus1) as (s & st' & E & T & S' & Hws & Huss & Hlen).
    exists s, st'. split; [exact E|]. split; [congruence|].
    split; [destruct S1 as (A1 & A2 & A3 & A4), S' as (B1 & B2 & B3 & B4);
            repeat split; congruence|].
    split; [exact Hws|]. split; [exact Huss|]. simpl. lia.
Qed.

Lemma well_sorted_nothing : well_sorted nothing_sorted.
Proof.
  unfold well_sorted, slots. simpl. split; [constructor|]. split.
  - intros j. split; [intros [] | lia].
  - intros u [].
Qed.

(** X25.  The loop of searchUniversities sorts every result exactly once.
    Each Hipolabs entry either reuses the stored row of its external id or
    gets one new record in [toUpsert]; every new record has exactly one
    owner among the entities queued for the College Scorecard and for the
    model, the owners' slots are distinct and cover [toUpsert], and the slot
    of an entity queued for the model holds its name and country with the
    source HIPOLABS.  With [enrichUS] off nothing is queued for the
    Scorecard.  The loop reads the clock and touches neither trace nor
    tables. *)
Theorem searchUniversities_sorts_every_result_once
    (enrichUS : bool) (existingUniversities : list (list (string * value)))
    (hipolabsResults : list hipolabs) (st : state World) :
  exists s st',
    sort_all env Date_getTime toISOString enrichUS existingUniversities hipolabsResults
      nothing_sorted st = (Returned s, st')
    /\ trace st' = trace st
    /\ same_store st st'
    /\ well_sorted s
    /\ (List.length (universities_found s) + List.length (toUpsert s)
        = List.length hipolabsResults)%nat
    /\ (List.length (usUniversities s) + List.length (nonUSUniversities s)
        = List.length (toUpsert s))%nat
    /\ NoDup (map index (nonUSUniversities s))
    /\ Forall (fun j => (j < List.length (toUpsert s))%nat) (map index (nonUSUniversities s))
    /\ (enrichUS = false -> usUniversities s = []).
Proof.
  destruct (sort_all_run enrichUS existingUniversities hipolabsResults nothing_sorted st
              well_sorted_nothing (fun _ => eq_refl))
    as (s & st' & E & T & S' & Hw & Hus & Hlen).
  exists s, st'. split; [exact E|]. split; [exact T|]. split; [exact S'|].
  split; [exact Hw|]. split; [simpl in Hlen; exact Hlen|].
  destruct Hw as (Hnd & Hslots & _).
  split; [|split; [|split; [|exact Hus]]].
  - assert (Hperm : Permutation (slots s) (seq 0 (List.length (toUpsert s)))).
    { apply NoDup_Permutation; [exact Hnd | apply seq_NoDup|].
      intros j. rewrite Hslots, in_seq. lia. }
    apply Permutation_length in Hperm. unfold slots in Hperm.
    rewrite length_app, !length_map, length_seq in Hperm. exact Hperm.
  - unfold slots in Hnd. apply NoDup_app_remove_l in Hnd. exact Hnd.
  - apply Forall_forall. intros j Hj. apply Hslots. unfold slots.
    apply in_or_app. right. exact Hj.
Qed.

End SortingFacts.
